(** * The outbound-request security gate of the Ideogram API client

  A shallow embedding of [src/utils.js] (URL validation, image-file
  validation, bounded byte acquisition, filename generation, the square
  check) and of [redactApiKey] from [src/config.js], with the properties
  the specification states about them.

  JavaScript strings are sequences of UTF-16 code units; a code unit is a
  natural number ([N]).  Platform services the code calls but does not
  define (the WHATWG URL parser, [net.isIPv4]/[net.isIPv6],
  [dns.lookup], [fs.readFile], [axios.get], the [image-size] decoder,
  the Unicode case tables) are fields of a [Platform] record; every
  function of the repository is a Rocq function over that record.  The
  file system answers read by read, so that a file can differ between two
  reads of one function.

  The second part embeds the rest of the client: the constants, the key
  lookup and the parameter validation of [src/config.js]; [buildFormData],
  [saveImage] and the spinner of [src/utils.js]; the class [IdeogramAPI]
  with its request function and its seven operations; and [downloadImage]
  and [saveResults] of [src/cli.js].  Their further services ([path],
  [process.env], [fs.mkdir], [fs.writeFile], the form's length,
  [axios.post], [JSON.stringify]) are fields of a [Host] record, and what
  they do to the outside is recorded as a sequence of [action]s.  Log lines
  and [console] output are not part of the model. *)

From Stdlib Require Import String Ascii NArith ZArith Bool Arith Lia List.
From Stdlib Require Import DecimalString.
From Stdlib Require DecimalPos DecimalN.
Import ListNotations.

(* ================================================================== *)
(** ** JavaScript strings *)
(* ================================================================== *)

Module JS.

Definition codeunit := N.
Definition jsstring := list codeunit.

(** A Rocq string literal read as the code units of an ASCII text. *)
Definition js (s : string) : jsstring :=
  map N_of_ascii (list_ascii_of_string s).

Fixpoint str_eqb (a b : jsstring) : bool :=
  match a, b with
  | [], [] => true
  | x :: a', y :: b' => N.eqb x y && str_eqb a' b'
  | _, _ => false
  end.

(** [s.startsWith(p)] and an anchored literal regex [/^p/.test(s)]. *)
Fixpoint startsWith (p s : jsstring) : bool :=
  match p, s with
  | [], _ => true
  | _ :: _, [] => false
  | x :: p', y :: s' => N.eqb x y && startsWith p' s'
  end.

(** [s.includes(needle)]. *)
Fixpoint includes (needle s : jsstring) : bool :=
  startsWith needle s ||
  match s with
  | [] => false
  | _ :: s' => includes needle s'
  end.

(** [list.includes(s)] for an array of strings. *)
Definition arr_includes (l : list jsstring) (s : jsstring) : bool :=
  existsb (str_eqb s) l.

Definition isDigit (c : codeunit) : bool := (N.leb 48 c && N.leb c 57)%bool.
Definition isLower (c : codeunit) : bool := (N.leb 97 c && N.leb c 122)%bool.
Definition isUpper (c : codeunit) : bool := (N.leb 65 c && N.leb c 90)%bool.

(** The class [\s] of a regex, which is also what [trim] removes:
    WhiteSpace and LineTerminator of ECMA-262. *)
Definition isWhiteSpace (c : codeunit) : bool :=
  (N.leb 9 c && N.leb c 13 || N.eqb c 32 || N.eqb c 160 || N.eqb c 5760
   || N.leb 8192 c && N.leb c 8202 || N.eqb c 8232 || N.eqb c 8233
   || N.eqb c 8239 || N.eqb c 8287 || N.eqb c 12288 || N.eqb c 65279)%bool.

Section ToLowerCase.

(** [String.prototype.toLowerCase] maps every code point to its lowercase
    sequence and concatenates.  On the ASCII range the mapping is fixed
    ([A-Z] to [a-z], the rest unchanged); outside it the Unicode tables
    decide, possibly looking at the context (final sigma, surrogate
    pairs).  [lowerNonAscii before c after] is what the tables give for
    the non-ASCII unit [c] between [before] and [after]. *)
Variable lowerNonAscii : jsstring -> codeunit -> jsstring -> jsstring.

Definition lowerAscii (c : codeunit) : codeunit :=
  if isUpper c then (c + 32)%N else c.

Fixpoint toLowerCase_from (before s : jsstring) : jsstring :=
  match s with
  | [] => []
  | c :: rest =>
      (if N.ltb c 128 then [lowerAscii c] else lowerNonAscii before c rest)
      ++ toLowerCase_from (before ++ [c]) rest
  end.

Definition toLowerCase (s : jsstring) : jsstring := toLowerCase_from [] s.

End ToLowerCase.

(** [s.trim()]. *)
Fixpoint dropWhile (f : codeunit -> bool) (s : jsstring) : jsstring :=
  match s with
  | [] => []
  | c :: rest => if f c then dropWhile f rest else s
  end.

Definition dropWhileEnd (f : codeunit -> bool) (s : jsstring) : jsstring :=
  rev (dropWhile f (rev s)).

Definition trim (s : jsstring) : jsstring :=
  dropWhileEnd isWhiteSpace (dropWhile isWhiteSpace s).

(** [s.substring(0, n)] for a number [n]: the end is clamped to
    [0 .. s.length]. *)
Definition substring0 (n : Z) (s : jsstring) : jsstring :=
  firstn (Z.to_nat n) s.

(** [s.slice(-n)]: the last [n] units, the whole string when shorter. *)
Definition slice_last (n : nat) (s : jsstring) : jsstring :=
  skipn (length s - n) s.

(** [s.split(sep)[0]] for a one-unit separator. *)
Fixpoint before_first (sep : codeunit) (s : jsstring) : jsstring :=
  match s with
  | [] => []
  | c :: rest => if N.eqb c sep then [] else c :: before_first sep rest
  end.

(** [s.replace(/^\[|\]$/g, '')]: one leading '[' and one trailing ']'. *)
Definition dropLast1 (c : codeunit) (s : jsstring) : jsstring :=
  match rev s with
  | x :: r => if N.eqb x c then rev r else s
  | [] => s
  end.

Definition stripBrackets (s : jsstring) : jsstring :=
  match s with
  | c :: rest => if N.eqb c 91 then dropLast1 93%N rest else dropLast1 93%N s
  | [] => []
  end.

(** The code unit of an ASCII character. *)
Definition ch (a : ascii) : codeunit := N_of_ascii a.

Fixpoint takeWhile (f : codeunit -> bool) (s : jsstring) : jsstring :=
  match s with
  | [] => []
  | c :: rest => if f c then c :: takeWhile f rest else []
  end.

(** [s.replace(/[...]/g, '')] for a character class [cls]: every unit of
    the class is removed. *)
Definition removeAll (cls : codeunit -> bool) (s : jsstring) : jsstring :=
  filter (fun c => negb (cls c)) s.

(** [s.replace(a, b)] for one-unit strings [a], [b]: only the first
    occurrence is replaced. *)
Fixpoint replaceFirst (a b : codeunit) (s : jsstring) : jsstring :=
  match s with
  | [] => []
  | c :: rest => if N.eqb c a then b :: rest else c :: replaceFirst a b rest
  end.

(** [s.replace(/\s+/g, '-')]: [inRun] is true while inside a run of
    white space whose hyphen has been written already. *)
Fixpoint hyphenate_from (inRun : bool) (s : jsstring) : jsstring :=
  match s with
  | [] => []
  | c :: rest =>
      if isWhiteSpace c
      then (if inRun then [] else [ch "-"]) ++ hyphenate_from true rest
      else c :: hyphenate_from false rest
  end.

Definition hyphenate (s : jsstring) : jsstring := hyphenate_from false s.

(** Case-insensitive comparison of an input unit with an ASCII pattern
    character under the regex flag [i] (no [u] flag): both are
    canonicalised with the upper-case mapping, and a non-ASCII unit never
    canonicalises to an ASCII one. *)
Definition upperAscii (c : codeunit) : codeunit :=
  if isLower c then (c - 32)%N else c.

Definition canon_eqb (input pattern : codeunit) : bool :=
  (N.ltb input 128 && N.eqb (upperAscii input) (upperAscii pattern))%bool.

(** A template literal prints a non-negative integer in decimal. *)
Definition dec (n : N) : jsstring := js (NilZero.string_of_uint (N.to_uint n)).

(** A template literal prints a missing value as [undefined]. *)
Definition show (o : option jsstring) : jsstring :=
  match o with
  | Some s => s
  | None => js "undefined"
  end.

(** Values a caller can pass where the code expects a string. *)
Inductive value :=
| VUndefined
| VNull
| VBool (b : bool)
| VNumber (z : Z)
| VString (s : jsstring)
| VObject.

(** [!v] *)
Definition falsy (v : value) : bool :=
  match v with
  | VUndefined | VNull => true
  | VBool b => negb b
  | VNumber z => Z.eqb z 0
  | VString s => match s with [] => true | _ => false end
  | VObject => false
  end.

Definition isString (v : value) : bool :=
  match v with VString _ => true | _ => false end.

End JS.

Import JS.

(* ================================================================== *)
(** ** Errors, effects and the platform *)
(* ================================================================== *)

Module Sys.

(** An error object raised by the platform: its [code] and [message]
    properties, either of which may be missing. *)
Record SysError := {
  err_code : option jsstring;
  err_message : option jsstring
}.

(** What the code can throw: [Own msg] is [new Error(msg)] created by the
    repository's code; [Foreign e] is an error object of the platform,
    passed on as it is. *)
Inductive error :=
| Own (msg : jsstring)
| Foreign (e : SysError).

(** [error.code] and [error.message] *)
Definition code_of (e : error) : option jsstring :=
  match e with
  | Own _ => None
  | Foreign s => err_code s
  end.

Definition message_of (e : error) : option jsstring :=
  match e with
  | Own m => Some m
  | Foreign s => err_message s
  end.

(** [error.code === c] *)
Definition code_is (e : error) (c : jsstring) : bool :=
  match code_of e with
  | Some x => str_eqb x c
  | None => false
  end.

Definition buffer := list N.

Record URL := {
  protocol : jsstring;
  hostname : jsstring
}.

(** The options object handed to [axios.get]. *)
Record RequestConfig := {
  responseType : jsstring;
  timeout : Z;
  maxContentLength : Z;
  maxRedirects : Z
}.

Record Response := {
  content_type : option jsstring;
  data : buffer
}.

Record Dimensions := {
  width : N;
  height : N
}.

(** The UTC fields of a [Date]. *)
Record Date := {
  year : Z;
  month : N;
  day : N;
  hours : N;
  minutes : N;
  seconds : N;
  milliseconds : N
}.

Inductive sysresult (A : Type) :=
| Success (a : A)
| Failure (e : SysError).

Arguments Success {A} a.
Arguments Failure {A} e.

(** The services the repository's code calls and does not define. *)
Record Platform := {
  (** the Unicode lower-case tables, see [JS.toLowerCase] *)
  lowerNonAscii : jsstring -> codeunit -> jsstring -> jsstring;
  (** [new URL(s)]: [None] when the constructor throws *)
  parseURL : jsstring -> option URL;
  (** [net.isIPv4], [net.isIPv6] *)
  isIPv4 : jsstring -> bool;
  isIPv6 : jsstring -> bool;
  (** [dns.lookup(host)]: the resolved address, or the rejection *)
  lookup : jsstring -> sysresult jsstring;
  (** [fs.readFile(path)]: [readFileAt k path] is what the read number
      [k] from now on answers, counted from 0; a file may change between
      two reads *)
  readFileAt : nat -> jsstring -> sysresult buffer;
  (** [axios.get(url, config)] *)
  axios_get : jsstring -> RequestConfig -> sysresult Response;
  (** [imageSize(buffer)] and [imageSizeFromFile(path)] of image-size;
      the second reads the file itself, and nothing ties its answer to
      what [fs.readFile] returns *)
  imageSize : buffer -> sysresult Dimensions;
  imageSizeFromFile : jsstring -> sysresult Dimensions;
  (** [new Date()]: the clock reading *)
  now : Date
}.

(** What the next read of the file system answers. *)
Definition readFile (P : Platform) (path : jsstring) : sysresult buffer :=
  readFileAt P 0 path.

(** The platform once a read has been made: its next read is the one
    that was second before. *)
Definition afterRead (P : Platform) : Platform :=
  {| lowerNonAscii := lowerNonAscii P;
     parseURL := parseURL P;
     isIPv4 := isIPv4 P;
     isIPv6 := isIPv6 P;
     lookup := lookup P;
     readFileAt := fun k => readFileAt P (S k);
     axios_get := axios_get P;
     imageSize := imageSize P;
     imageSizeFromFile := imageSizeFromFile P;
     now := now P |}.

(** The observable calls, in the order they are made. *)
Inductive event :=
| DnsLookup (host : jsstring)
| ReadFile (path : jsstring)
| HttpGet (url : jsstring) (cfg : RequestConfig).

Inductive outcome (A : Type) :=
| Return (a : A)
| Throw (e : error).

Arguments Return {A} a.
Arguments Throw {A} e.

(** An asynchronous function: the calls it made and how it settled. *)
Definition io (A : Type) : Type := (list event * outcome A)%type.

Definition ret {A} (a : A) : io A := ([], Return a).

Definition throw {A} (e : error) : io A := ([], Throw e).

Definition bind {A B} (m : io A) (k : A -> io B) : io B :=
  match m with
  | (t, Return a) => let (t', r) := k a in (t ++ t', r)
  | (t, Throw e) => (t, Throw e)
  end.

(** [try { m } catch (error) { h error }] *)
Definition try_catch {A} (m : io A) (h : error -> io A) : io A :=
  match m with
  | (t, Throw e) => let (t', r) := h e in (t ++ t', r)
  | (t, Return a) => (t, Return a)
  end.

Definition settle {A} (r : sysresult A) : outcome A :=
  match r with
  | Success a => Return a
  | Failure e => Throw (Foreign e)
  end.

Definition trace {A} (m : io A) : list event := fst m.
Definition result {A} (m : io A) : outcome A := snd m.

End Sys.

Import Sys.

Declare Scope io_scope.
Delimit Scope io_scope with io.
Notation "x <- m ;; k" := (bind m (fun x => k))
  (at level 61, m at next level, right associativity) : io_scope.
Notation "m ;; k" := (bind m (fun _ => k))
  (at level 61, right associativity) : io_scope.

(* ================================================================== *)
(** ** src/utils.js *)
(* ================================================================== *)

Module Utils.

Local Open Scope io_scope.
Local Open Scope bool_scope.

Definition inRange (lo hi : ascii) (c : codeunit) : bool :=
  N.leb (ch lo) c && N.leb c (ch hi).

(** The regular expressions of the two pattern tables, each as the test
    it performs on a string. *)

(** [/^172\.(1[6-9]|2[0-9]|3[0-1])\./] *)
Definition re_classB (s : jsstring) : bool :=
  startsWith (js "172.") s &&
  match skipn 4 s with
  | d1 :: d2 :: dot :: _ =>
      (N.eqb d1 (ch "1") && inRange "6" "9" d2
       || N.eqb d1 (ch "2") && inRange "0" "9" d2
       || N.eqb d1 (ch "3") && inRange "0" "1" d2)
      && N.eqb dot (ch ".")
  | _ => false
  end.

Definition blockedPatterns : list (jsstring -> bool) :=
  [ startsWith (js "127.");        (* /^127\./      loopback *)
    startsWith (js "10.");         (* /^10\./       private class A *)
    re_classB;                     (*               private class B *)
    startsWith (js "192.168.");    (* /^192\.168\./ private class C *)
    startsWith (js "169.254.");    (* /^169\.254\./ link-local *)
    startsWith (js "0.");          (* /^0\./        invalid range *)
    (fun s => str_eqb s (js "::1")); (* /^::1$/     IPv6 loopback *)
    startsWith (js "fe80:");       (* /^fe80:/      IPv6 link-local *)
    startsWith (js "fc00:");       (* /^fc00:/      IPv6 unique local *)
    startsWith (js "fd00:") ].     (* /^fd00:/      IPv6 unique local *)

Definition isBlockedIP (ip : jsstring) : bool :=
  let cleanIP := stripBrackets ip in
  if str_eqb cleanIP (js "localhost") || str_eqb cleanIP (js "127.0.0.1")
     || str_eqb cleanIP (js "::1")
  then true
  else
    let blockedHosts :=
      [js "metadata.google.internal"; js "metadata"; js "169.254.169.254"] in
    if arr_includes blockedHosts cleanIP then true
    else existsb (fun pattern => pattern cleanIP) blockedPatterns.

(** *** The scan [url.match(/\[::ffff:(\d+\.\d+\.\d+\.\d+)\]/i)] *)

(** A literal pattern prefix matched case-insensitively; the rest of the
    input on success. *)
Fixpoint match_ci (pattern s : jsstring) : option jsstring :=
  match pattern, s with
  | [], _ => Some s
  | _ :: _, [] => None
  | p :: pattern', c :: s' =>
      if canon_eqb c p then match_ci pattern' s' else None
  end.

(** [\d+]: the longest run of digits, which must not be empty.  What
    follows [\d+] in the pattern is never a digit, so a shorter run cannot
    succeed where the longest fails. *)
Definition match_digits (s : jsstring) : option (jsstring * jsstring) :=
  match takeWhile isDigit s with
  | [] => None
  | ds => Some (ds, skipn (length ds) s)
  end.

Definition match_char (c : ascii) (s : jsstring) : option jsstring :=
  match s with
  | x :: rest => if N.eqb x (ch c) then Some rest else None
  | [] => None
  end.

Definition obind {A B} (o : option A) (k : A -> option B) : option B :=
  match o with
  | Some a => k a
  | None => None
  end.

(** The whole pattern anchored at the head of [s]; the capture group. *)
Definition mapped_literal_at (s : jsstring) : option jsstring :=
  obind (match_ci (js "[::ffff:") s) (fun s0 =>
  obind (match_digits s0) (fun '(a, s1) =>
  obind (match_char "." s1) (fun s2 =>
  obind (match_digits s2) (fun '(b, s3) =>
  obind (match_char "." s3) (fun s4 =>
  obind (match_digits s4) (fun '(c, s5) =>
  obind (match_char "." s5) (fun s6 =>
  obind (match_digits s6) (fun '(d, s7) =>
  obind (match_char "]" s7) (fun _ =>
  Some (a ++ [ch "."] ++ b ++ [ch "."] ++ c ++ [ch "."] ++ d)))))))))).

(** Without the flag [g], [match] reports the leftmost match only. *)
Fixpoint ipv6MappedMatch (url : jsstring) : option jsstring :=
  match mapped_literal_at url with
  | Some extracted => Some extracted
  | None =>
      match url with
      | [] => None
      | _ :: rest => ipv6MappedMatch rest
      end
  end.

Definition privatePatterns : list (jsstring -> bool) :=
  [ startsWith (js "10.");
    re_classB;
    startsWith (js "192.168.");
    startsWith (js "169.254.");
    startsWith (js "0.") ].

Definition msg_localhost : jsstring := js "Access to localhost is not allowed".
Definition msg_private : jsstring :=
  js "Access to internal/private IP addresses is not allowed".
Definition msg_metadata : jsstring :=
  js "Access to cloud metadata endpoints is not allowed".
Definition msg_https : jsstring :=
  js "Only HTTPS URLs are allowed for security reasons".
Definition msg_invalid_url (url : jsstring) : jsstring :=
  js "Invalid URL: " ++ url.
Definition msg_resolves_internal (hostname : jsstring) : jsstring :=
  js "Domain " ++ hostname ++ js " resolves to internal/private IP address".
Definition msg_unresolved (hostname : jsstring) : jsstring :=
  js "Domain " ++ hostname ++ js " could not be resolved".
Definition msg_lookup_failed (hostname : jsstring) (m : option jsstring)
  : jsstring :=
  js "Failed to validate domain " ++ hostname ++ js ": " ++ show m.

Definition dnsLookup (P : Platform) (host : jsstring) : io jsstring :=
  ([DnsLookup host], settle (lookup P host)).

(** Lines 88-112: the check on the raw string. *)
Definition preParseScan (url : jsstring) : io unit :=
  match ipv6MappedMatch url with
  | Some extractedIPv4 =>
      if str_eqb extractedIPv4 (js "127.0.0.1")
         || startsWith (js "127.") extractedIPv4
      then throw (Own msg_localhost)
      else if existsb (fun pattern => pattern extractedIPv4) privatePatterns
      then throw (Own msg_private)
      else ret tt
  | None => ret tt
  end.

(** Lines 145-167: the domain branch with its [catch]. *)
Definition resolveDomain (P : Platform) (hostname : jsstring) : io unit :=
  try_catch
    (address <- dnsLookup P hostname ;;
     if isBlockedIP address
     then throw (Own (msg_resolves_internal hostname))
     else ret tt)
    (fun error =>
       if code_is error (js "ENOTFOUND")
       then throw (Own (msg_unresolved hostname))
       else if match message_of error with
               | Some m => negb (falsy (VString m))
                           && includes (js "resolves to internal") m
               | None => false
               end
       then throw error
       else throw (Own (msg_lookup_failed hostname (message_of error)))).

(** Line 127: [parsed.hostname.toLowerCase()]. *)
Definition lowerHostname (P : Platform) (parsed : URL) : jsstring :=
  toLowerCase (lowerNonAscii P) (hostname parsed).

Definition blockedHostnames : list jsstring :=
  [js "localhost"; js "metadata.google.internal"; js "metadata"].

Definition validateImageUrl (P : Platform) (url : jsstring) : io jsstring :=
  preParseScan url ;;
  parsed <- match parseURL P url with
            | Some u => ret u
            | None => throw (Own (msg_invalid_url url))
            end ;;
  if negb (str_eqb (protocol parsed) (js "https:"))
  then throw (Own msg_https)
  else
    let hostname := lowerHostname P parsed in
    let cleanHostname := stripBrackets hostname in
    let blockedHosts := blockedHostnames in
    if arr_includes blockedHosts cleanHostname
    then throw (Own msg_metadata)
    else
      (if isIPv4 P cleanHostname || isIPv6 P cleanHostname
       then (if isBlockedIP cleanHostname
             then throw (Own msg_private)
             else ret tt)
       else resolveDomain P hostname) ;;
      ret url.

(** *** Image files *)

(** [buffer.slice(a, b)] for [0 <= a <= b]; it never reads past the end. *)
Definition slice (a b : nat) (buf : buffer) : buffer :=
  firstn (b - a) (skipn a buf).

(** [buf[i] === v]: an index past the end reads [undefined], which is
    equal to no byte. *)
Definition byte_is (buf : buffer) (i : nat) (v : N) : bool :=
  match nth_error buf i with
  | Some x => N.eqb x v
  | None => false
  end.

(** [buf.toString() === text] for an ASCII [text] and a buffer of at most
    as many bytes as [text] has characters.  The UTF-8 decoder yields one
    character per ASCII byte and a non-ASCII character for anything else,
    so the comparison holds exactly when the bytes are the character codes
    of [text]. *)
Definition decodes_to (buf : buffer) (text : jsstring) : bool :=
  str_eqb buf text.

(** [await fs.readFile(path)]: one read of the file system; what comes
    after it in a function runs on [afterRead P]. *)
Definition fsReadFile (P : Platform) (path : jsstring) : io buffer :=
  ([ReadFile path], settle (readFile P path)).

Definition msg_empty (filepath : jsstring) : jsstring :=
  js "Image file is empty: " ++ filepath.
Definition msg_not_image (filepath : jsstring) : jsstring :=
  js "File does not appear to be a valid image (PNG, JPEG, WebP, or GIF): "
  ++ filepath.
Definition msg_not_found (filepath : jsstring) : jsstring :=
  js "Image file not found: " ++ filepath.
Definition msg_permission (filepath : jsstring) : jsstring :=
  js "Permission denied reading image file: " ++ filepath.

Definition isPNG (buf : buffer) : bool :=
  let magicBytes := slice 0 4 buf in
  byte_is magicBytes 0 137 && byte_is magicBytes 1 80
  && byte_is magicBytes 2 78 && byte_is magicBytes 3 71.

Definition isJPEG (buf : buffer) : bool :=
  let magicBytes := slice 0 4 buf in
  byte_is magicBytes 0 255 && byte_is magicBytes 1 216
  && byte_is magicBytes 2 255.

Definition isWebP (buf : buffer) : bool :=
  decodes_to (slice 8 12 buf) (js "WEBP").

Definition isGIF (buf : buffer) : bool :=
  let magicBytes := slice 0 4 buf in
  decodes_to (slice 0 3 magicBytes) (js "GIF").

Definition validateImagePath (P : Platform) (filepath : jsstring)
  : io jsstring :=
  try_catch
    (buf <- fsReadFile P filepath ;;
     if Nat.eqb (length buf) 0
     then throw (Own (msg_empty filepath))
     else if negb (isPNG buf) && negb (isJPEG buf)
             && negb (isWebP buf) && negb (isGIF buf)
     then throw (Own (msg_not_image filepath))
     else ret filepath)
    (fun error =>
       if code_is error (js "ENOENT")
       then throw (Own (msg_not_found filepath))
       else if code_is error (js "EACCES")
       then throw (Own (msg_permission filepath))
       else throw error).

(** *** The square check *)

Inductive imageSource :=
| SrcBuffer (b : buffer)      (* a Buffer or typed array *)
| SrcPath (p : jsstring)      (* a string *)
| SrcOther.                   (* anything else *)

Definition msg_dimensions (cause : option jsstring) : jsstring :=
  js "Unable to read image dimensions: " ++ show cause.
Definition msg_not_square (w h : N) : jsstring :=
  js "Image must be square. Received " ++ dec w ++ js "x" ++ dec h.

Definition assertSquareImage (P : Platform) (imageSource : imageSource)
  : io unit :=
  dimensions <-
    try_catch
      (match imageSource with
       | SrcBuffer b => ([], settle (imageSize P b))
       | SrcPath p => ([], settle (imageSizeFromFile P p))
       | SrcOther => throw (Own (js "Unsupported image input"))
       end)
      (fun error => throw (Own (msg_dimensions (message_of error)))) ;;
  if negb (N.eqb (width dimensions) (height dimensions))
  then throw (Own (msg_not_square (width dimensions) (height dimensions)))
  else ret tt.

(** *** Byte acquisition *)

Definition maxBytes : Z := 50 * 1024 * 1024.

Definition msg_too_large : jsstring :=
  js "Image file size exceeds maximum of 50MB".

(** The file is read twice: by [validateImagePath], which keeps nothing
    of what it read, and again for the bytes that are returned. *)
Definition loadImageAsBuffer (P : Platform) (imagePath : jsstring)
  : io buffer :=
  validateImagePath P imagePath ;;
  buf <- fsReadFile (afterRead P) imagePath ;;
  if Z.ltb maxBytes (Z.of_nat (length buf))
  then throw (Own msg_too_large)
  else ret buf.

Definition downloadConfig : RequestConfig :=
  {| responseType := js "arraybuffer";
     timeout := 60000;
     maxContentLength := 50 * 1024 * 1024;
     maxRedirects := 5 |}.



Definition httpGet (P : Platform) (url : jsstring) (cfg : RequestConfig)
  : io Response :=
  ([HttpGet url cfg], settle (axios_get P url cfg)).



(** *** File names *)

Definition digit (n : N) : codeunit := (48 + n mod 10)%N.

(** [n] in [w] decimal digits, least significant first. *)
Fixpoint pad_rev (w : nat) (n : N) : jsstring :=
  match w with
  | O => []
  | S w' => digit n :: pad_rev w' (n / 10)
  end.

(** [n] zero-padded to [w] digits. *)
Definition pad (w : nat) (n : N) : jsstring := rev (pad_rev w n).

(** [Date.prototype.toISOString]: four digits for the years 0 to 9999, a
    sign and six digits otherwise. *)
Definition isoYear (y : Z) : jsstring :=
  if Z.leb 0 y && Z.leb y 9999 then pad 4 (Z.to_N y)
  else (if Z.ltb y 0 then js "-" else js "+") ++ pad 6 (Z.to_N (Z.abs y)).

Definition toISOString (d : Date) : jsstring :=
  isoYear (year d) ++ js "-" ++ pad 2 (month d) ++ js "-" ++ pad 2 (day d)
  ++ js "T" ++ pad 2 (hours d) ++ js ":" ++ pad 2 (minutes d)
  ++ js ":" ++ pad 2 (seconds d) ++ js "." ++ pad 3 (milliseconds d)
  ++ js "Z".

Definition isDashOrColon (c : codeunit) : bool :=
  N.eqb c (ch "-") || N.eqb c (ch ":").

Definition isLowerAlnum (c : codeunit) : bool := isLower c || isDigit c.

Definition isDot (c : codeunit) : bool := N.eqb c (ch ".").

Definition timestampOf (d : Date) : jsstring :=
  before_first (ch ".")
    (replaceFirst (ch "T") (ch "_") (removeAll isDashOrColon (toISOString d))).

Definition sanitizePrompt (P : Platform) (prompt : jsstring) (maxLength : Z)
  : jsstring :=
  substring0 maxLength
    (hyphenate
       (trim
          (removeAll (fun c => negb (isLowerAlnum c || isWhiteSpace c))
             (toLowerCase (lowerNonAscii P) prompt)))).

Definition sanitizeExtension (P : Platform) (extension : jsstring)
  : jsstring :=
  match substring0 10
          (removeAll (fun c => negb (isLowerAlnum c))
             (dropWhile isDot (toLowerCase (lowerNonAscii P) extension)))
  with
  | [] => js "png"
  | e => e
  end.

(** [extension] and [maxLength] are [None] when the caller omits them or
    passes [undefined]; the defaults are 'png' and 50. *)
Definition generateFilename (P : Platform) (prompt : jsstring)
  (extension : option jsstring) (maxLength : option Z) : jsstring :=
  let extension := match extension with Some e => e | None => js "png" end in
  let maxLength := match maxLength with Some n => n | None => 50%Z end in
  let timestamp := timestampOf (now P) in
  let sanitized := sanitizePrompt P prompt maxLength in
  let sanitizedExtension := sanitizeExtension P extension in
  timestamp ++ js "_" ++ sanitized ++ js "." ++ sanitizedExtension.

End Utils.

(* ================================================================== *)
(** ** src/config.js: [redactApiKey] *)
(* ================================================================== *)

Module Config.

Definition redactApiKey (apiKey : value) : jsstring :=
  match apiKey with
  | VString s =>
      if (falsy apiKey || negb (isString apiKey) || (length s <? 4))%bool
      then js "xxx...xxx"
      else js "xxx..." ++ slice_last 4 s
  | _ => js "xxx...xxx"
  end.

End Config.

(* ================================================================== *)
(** ** A sample platform *)
(* ================================================================== *)

(** What Node.js answers on the handful of inputs the examples below use:
    each table row is the value the real service returns for that input.
    Inputs outside the tables get a failure or [false]. *)
Module Node.

Fixpoint table_get {A} (t : list (jsstring * A)) (k : jsstring) : option A :=
  match t with
  | [] => None
  | (k', v) :: t' => if str_eqb k k' then Some v else table_get t' k
  end.

Definition https (host : string) : URL :=
  {| protocol := js "https:"; hostname := js host |}.

(** The host of a URL is what follows the userinfo; here the userinfo is
    a public mapped literal and the host the mapped loopback address. *)
Definition decoyUrl : jsstring :=
  js "https://[::ffff:8.8.8.8]@[::ffff:127.0.0.1]/image.jpg".

Definition uniqueLocalUrl : jsstring :=
  js "https://[fd12:3456:789a::1]/image.jpg".

(** [new URL(s)]: the userinfo before '@' is not part of the host, and an
    IPv6 host is serialised in its compressed hexadecimal form. *)
Definition urls : list (jsstring * URL) :=
  [ (js "https://example.com/image.jpg", https "example.com");
    (js "https://localhost/image.jpg", https "localhost");
    (js "https://metadata.google.internal/computeMetadata",
      https "metadata.google.internal");
    (js "https://10.0.0.1/image.jpg", https "10.0.0.1");
    (js "https://evil.com/image.jpg", https "evil.com");
    (js "https://nonexistent.domain.invalid/image.jpg",
      https "nonexistent.domain.invalid");
    (uniqueLocalUrl, https "[fd12:3456:789a::1]");
    (decoyUrl, https "[::ffff:7f00:1]");
    (js "http://example.com/image.jpg",
      {| protocol := js "http:"; hostname := js "example.com" |}) ].

Definition ipv4_literals : list jsstring := [js "10.0.0.1"; js "8.8.8.8"].

Definition ipv6_literals : list jsstring :=
  [js "fd12:3456:789a::1"; js "::ffff:7f00:1"].

Definition enoent : SysError :=
  {| err_code := Some (js "ENOENT");
     err_message := Some (js "ENOENT: no such file or directory") |}.

Definition enotfound (host : string) : SysError :=
  {| err_code := Some (js "ENOTFOUND");
     err_message := Some (js "getaddrinfo ENOTFOUND " ++ js host) |}.

(** The addresses the DNS resolver is taken to return. *)
Definition dns : list (jsstring * jsstring) :=
  [ (js "example.com", js "8.8.8.8");
    (js "evil.com", js "127.0.0.1") ].

Definition pngHeader : buffer := [137; 80; 78; 71; 13; 10; 26; 10]%N.
Definition jpegHeader : buffer := [255; 216; 255; 224]%N.

Definition files : list (jsstring * buffer) :=
  [ (js "test-image.png", pngHeader);
    (js "test-image.jpg", jpegHeader);
    (js "empty.jpg", []) ].

Definition jpegResponse : Response :=
  {| content_type := Some (js "image/jpeg"); data := jpegHeader |}.

Definition tooLarge : SysError :=
  {| err_code := Some (js "ERR_BAD_RESPONSE");
     err_message := Some (js "maxContentLength size exceeded") |}.

Definition from_option {A} (e : SysError) (o : option A) : sysresult A :=
  match o with
  | Some a => Success a
  | None => Failure e
  end.

Definition platform : Platform :=
  {| lowerNonAscii := fun _ c _ => [c];
     parseURL := table_get urls;
     isIPv4 := arr_includes ipv4_literals;
     isIPv6 := arr_includes ipv6_literals;
     lookup := fun h => from_option (enotfound "") (table_get dns h);
     readFileAt := fun _ p => from_option enoent (table_get files p);
     axios_get := fun _ cfg =>
       if Z.leb (Z.of_nat (length (data jpegResponse))) (maxContentLength cfg)
       then Success jpegResponse
       else Failure tooLarge;
     imageSize := fun b =>
       Success {| width := 4; height := N.of_nat (length b) |};
     imageSizeFromFile := fun _ => Success {| width := 4; height := 2 |};
     now := {| year := 2025; month := 1; day := 19; hours := 14;
               minutes := 30; seconds := 22; milliseconds := 7 |} |}.

(** The same platform with another clock reading. *)
Definition atTime (d : Date) : Platform :=
  {| lowerNonAscii := lowerNonAscii platform;
     parseURL := parseURL platform;
     isIPv4 := isIPv4 platform;
     isIPv6 := isIPv6 platform;
     lookup := lookup platform;
     readFileAt := readFileAt platform;
     axios_get := axios_get platform;
     imageSize := imageSize platform;
     imageSizeFromFile := imageSizeFromFile platform;
     now := d |}.

(** One second later, and the same instant of the year 10000. *)
Definition oneSecondLater : Date :=
  {| year := 2025; month := 1; day := 19; hours := 14;
     minutes := 30; seconds := 23; milliseconds := 7 |}.

Definition inYear10000 : Date :=
  {| year := 10000; month := 1; day := 19; hours := 14;
     minutes := 30; seconds := 22; milliseconds := 7 |}.

End Node.

(* ================================================================== *)
(** ** The specification's own words *)
(* ================================================================== *)

(** Definitions that follow the text of the specification, to be compared
    with the functions translated from the source, and the vocabulary of
    the statements below. *)
Module Spec.

(** Section 4.3, the signature table: PNG is bytes 0..3 = 89 50 4E 47,
    JPEG is bytes 0..2 = FF D8 FF, GIF is bytes 0..2 = 'GIF', WEBP is
    bytes 8..11 = 'WEBP'. *)
Definition pngSignature (bytes : buffer) : Prop :=
  firstn 4 bytes = [137; 80; 78; 71]%N.
Definition jpegSignature (bytes : buffer) : Prop :=
  firstn 3 bytes = [255; 216; 255]%N.
Definition gifSignature (bytes : buffer) : Prop :=
  firstn 3 bytes = js "GIF".
Definition webpSignature (bytes : buffer) : Prop :=
  firstn 4 (skipn 8 bytes) = js "WEBP".

Definition recognizedSignature (bytes : buffer) : Prop :=
  pngSignature bytes \/ jpegSignature bytes \/ gifSignature bytes
  \/ webpSignature bytes.

(** Section 4.4: the image-metadata decoder applied to a source, bytes or
    path; any other source is refused before a decoder is called. *)
Definition readDimensions (P : Platform) (source : Utils.imageSource)
  : sysresult Dimensions :=
  match source with
  | Utils.SrcBuffer b => imageSize P b
  | Utils.SrcPath p => imageSizeFromFile P p
  | Utils.SrcOther =>
      Failure {| err_code := None;
                 err_message := Some (js "Unsupported image input") |}
  end.


(** Whether an error message, if there is one, contains the words by
    which the [catch] of line 160 recognises the code's own error. *)
Definition marked_internal (m : option jsstring) : bool :=
  match m with
  | Some m => includes (js "resolves to internal") m
  | None => false
  end.

(** Section 8 names the blocked IPv6 ranges as prefixes of the address
    value: fe80::/10, fc00::/7, fd00::/8.  [firstHextet] reads the leading
    hexadecimal group of a textual address. *)
Definition hexValue (c : codeunit) : option N :=
  if isDigit c then Some (c - 48)%N
  else if (N.leb 97 c && N.leb c 102)%bool then Some (c - 87)%N
  else if (N.leb 65 c && N.leb c 70)%bool then Some (c - 55)%N
  else None.

Fixpoint hextet_from (acc : N) (s : jsstring) : N :=
  match s with
  | [] => acc
  | c :: rest =>
      match hexValue c with
      | Some v => hextet_from (16 * acc + v)%N rest
      | None => acc
      end
  end.

Definition firstHextet (address : jsstring) : N := hextet_from 0 address.

(** The canonical text of the IPv4 address a.b.c.d. *)
Definition dotted (a b c d : N) : jsstring :=
  dec a ++ js "." ++ dec b ++ js "." ++ dec c ++ js "." ++ dec d.

(** Section 8, the IPv4 ranges: 10.0.0.0/8, 172.16.0.0/12, 192.168.0.0/16,
    169.254.0.0/16, and with them 127.0.0.0/8 and 0.0.0.0/8, as a test on
    the first two octets. *)
Definition inBlockedIPv4Range (a b : N) : bool :=
  (N.eqb a 10 || N.eqb a 172 && N.leb 16 b && N.leb b 31
   || N.eqb a 192 && N.eqb b 168 || N.eqb a 169 && N.eqb b 254
   || N.eqb a 127 || N.eqb a 0)%bool.

Definition octets : list N := map N.of_nat (seq 0 256).

(** A string against the table of patterns, as [some] runs it. *)
Definition anyPattern (s : jsstring) : bool :=
  existsb (fun pattern : jsstring -> bool => pattern s)
    Utils.blockedPatterns.

(** fe80::/10 : the top ten bits are 1111 1110 10 *)
Definition inLinkLocal (address : jsstring) : bool :=
  N.eqb (N.shiftr (firstHextet address) 6) 1018.

(** fc00::/7 : the top seven bits are 1111 110 *)
Definition inUniqueLocal (address : jsstring) : bool :=
  N.eqb (N.shiftr (firstHextet address) 9) 126.

(** Section 4.5, step (b): the free text lower-cased, everything except
    [a-z0-9\s] stripped, trimmed, white-space runs collapsed to single
    hyphens, truncated to [maxLen]. *)
Definition inSlugClass (c : codeunit) : bool :=
  (isLower c || isDigit c || isWhiteSpace c)%bool.

(** Every maximal run of white space becomes one hyphen, written where
    the run ends. *)
Fixpoint collapseRuns (s : jsstring) : jsstring :=
  match s with
  | [] => []
  | c :: rest =>
      if isWhiteSpace c
      then match rest with
           | c' :: _ => if isWhiteSpace c' then collapseRuns rest
                        else ch "-" :: collapseRuns rest
           | [] => [ch "-"]
           end
      else c :: collapseRuns rest
  end.

Definition slug (P : Platform) (freeText : jsstring) (maxLen : Z)
  : jsstring :=
  firstn (Z.to_nat maxLen)
    (collapseRuns
       (trim (filter inSlugClass (toLowerCase (lowerNonAscii P) freeText)))).

(** Step (c): the extension lower-cased, leading dots stripped, everything
    except [a-z0-9] stripped, truncated to 10 characters, 'png' when
    nothing is left. *)
Definition alnumOnly (P : Platform) (extension : jsstring) : jsstring :=
  firstn 10
    (filter (fun c => (isLower c || isDigit c)%bool)
       (dropWhile (fun c => N.eqb c (ch "."))
          (toLowerCase (lowerNonAscii P) extension))).

Definition safeExtension (P : Platform) (extension : jsstring) : jsstring :=
  if Nat.eqb (length (alnumOnly P extension)) 0 then js "png"
  else alnumOnly P extension.

(** A character of a slug: a lower-case letter, a digit or a hyphen. *)
Definition slugChar (c : codeunit) : Prop :=
  isLower c = true \/ isDigit c = true \/ c = ch "-".

Definition alnumChar (c : codeunit) : Prop :=
  isLower c = true \/ isDigit c = true.

(** Neither '/' nor '\'. *)
Definition noSeparator (c : codeunit) : Prop :=
  c <> ch "/" /\ c <> ch "\".

(** Section 8: the free text 'Hello, World! ' followed by U+2728. *)
Definition helloWorldSparkles : jsstring := js "Hello, World! " ++ [10024%N].

(** [\d*]: a string of decimal digits. *)
Definition digits (s : jsstring) : Prop :=
  Forall (fun c => isDigit c = true) s.

(** The regular expression [^\d{8}_\d{6}<rest>$] for a literal [rest]. *)
Definition stampedName (name rest : jsstring) : Prop :=
  exists d8 d6 : jsstring,
    length d8 = 8 /\ length d6 = 6
    /\ digits d8 /\ digits d6
    /\ name = d8 ++ js "_" ++ d6 ++ rest.

End Spec.

(* ================================================================== *)
(** ** Parameter values *)
(* ================================================================== *)

(** What a caller of the SDK or of the command line puts into a
    parameter object.  A Number is [NaN] or has an integer value, which
    is what [parseInt] and integer literals produce; Numbers with a
    fraction and the infinities are not part of the model.  A missing
    property reads as [FUndefined]. *)
Module Params.

Set Warnings "-register-all".

Inductive field :=
| FUndefined
| FNull
| FBool (b : bool)
| FNaN
| FInt (z : Z)                (* a Number whose value is the integer z *)
| FString (s : jsstring)
| FBuffer (b : buffer)
| FArray (items : list field)
| FObject (entries : list (jsstring * field)).

(** [!!v] *)
Definition truthy (v : field) : bool :=
  match v with
  | FUndefined | FNull | FNaN => false
  | FBool b => b
  | FInt z => negb (Z.eqb z 0)
  | FString s => match s with [] => false | _ => true end
  | FBuffer _ | FArray _ | FObject _ => true
  end.

(** [a || b] *)
Definition orElse (a b : field) : field := if truthy a then a else b.

(** An integer in decimal. *)
Definition decZ (z : Z) : jsstring :=
  if Z.ltb z 0 then ch "-" :: dec (Z.to_N (- z)) else dec (Z.to_N z).

(** [Number.MAX_SAFE_INTEGER], 2^53 - 1, and [Number.isSafeInteger] on an
    integer. *)
Definition MAX_SAFE_INTEGER : Z := 9007199254740991.

Definition isSafeInteger (z : Z) : bool := Z.leb (Z.abs z) MAX_SAFE_INTEGER.

Section ToString.

(** [buffer.toString()]: the UTF-8 decoding of the bytes. *)
Variable utf8 : buffer -> jsstring.

(** [String(n)] for an integer Number beyond the safe range: the digits
    are those of the shortest decimal that reads back as [n], with zeros
    after them, and from 1e21 on the exponent form, as in '1e+21'. *)
Variable numberToString : Z -> jsstring.

(** [String(v)], [`${v}`] and, on a primitive, [v.toString()].  A safe
    integer prints its decimal digits.  An array prints its items
    separated by commas, [undefined] and [null] items as nothing; a plain
    object prints as [[object Object]]. *)
Fixpoint toString (v : field) : jsstring :=
  match v with
  | FUndefined => js "undefined"
  | FNull => js "null"
  | FBool b => if b then js "true" else js "false"
  | FNaN => js "NaN"
  | FInt z => if isSafeInteger z then decZ z else numberToString z
  | FString s => s
  | FBuffer b => utf8 b
  | FArray items =>
      (fix joined (l : list field) : jsstring :=
         match l with
         | [] => []
         | x :: rest =>
             match x with
             | FUndefined | FNull => []
             | _ => toString x
             end
             ++ match rest with
                | [] => []
                | _ :: _ => ch "," :: joined rest
                end
         end) items
  | FObject _ => js "[object Object]"
  end.

End ToString.

(** The value of a digit in a radix up to 36, [None] for anything else. *)
Definition digitValue (radix : N) (c : codeunit) : option N :=
  let v := if isDigit c then Some (c - 48)%N
           else if isLower c then Some (c - 87)%N
           else if isUpper c then Some (c - 55)%N
           else None in
  match v with
  | Some d => if N.ltb d radix then Some d else None
  | None => None
  end.

(** The number written by the longest prefix of digits. *)
Fixpoint parseDigits (radix : N) (acc : N) (s : jsstring) : N :=
  match s with
  | [] => acc
  | c :: rest =>
      match digitValue radix c with
      | Some d => parseDigits radix (acc * radix + d) rest
      | None => acc
      end
  end.

(** [parseInt(s)] for a string, ECMA-262 19.2.5 with no radix argument:
    leading white space is skipped, a sign is read, [0x] or [0X] selects
    radix 16, and the longest prefix of digits is the value; [None] is
    [NaN], the result when there is no digit. *)
Definition parseIntString (s : jsstring) : option Z :=
  let s1 := dropWhile isWhiteSpace s in
  let '(negative, s2) :=
    match s1 with
    | c :: r => if N.eqb c (ch "-") then (true, r)
                else if N.eqb c (ch "+") then (false, r)
                else (false, s1)
    | [] => (false, s1)
    end in
  let '(radix, s3) :=
    match s2 with
    | a :: b :: r =>
        if N.eqb a (ch "0") && (N.eqb b (ch "x") || N.eqb b (ch "X"))
        then (16%N, r) else (10%N, s2)
    | _ => (10%N, s2)
    end in
  match s3 with
  | c :: _ =>
      match digitValue radix c with
      | Some _ =>
          let n := Z.of_N (parseDigits radix 0 s3) in
          Some (if negative then (- n)%Z else n)
      | None => None
      end
  | [] => None
  end.

(** [parseInt(v)]: the argument is converted to a string first. *)
Definition parseInt (utf8 : buffer -> jsstring)
  (numberToString : Z -> jsstring) (v : field) : option Z :=
  parseIntString (toString utf8 numberToString v).

(** [array.join(sep)] for an array of strings. *)
Fixpoint join (sep : jsstring) (l : list jsstring) : jsstring :=
  match l with
  | [] => []
  | [x] => x
  | x :: rest => x ++ sep ++ join sep rest
  end.

(** One call of [formData.append]: the field name and what was passed as
    its value. *)
Inductive PartValue :=
| Text (s : jsstring)                          (* a string *)
| File (content : buffer) (filename : jsstring) (* a Buffer, { filename } *)
| Raw (item : field).                          (* an array item, as it is *)

Record Part := {
  part_name : jsstring;
  part_value : PartValue
}.

(** A [FormData] object is the sequence of the [append] calls made on
    it. *)
Definition FormData := list Part.

End Params.

(* ================================================================== *)
(** ** The rest of the platform *)
(* ================================================================== *)

(** The services used by the request, form and file-writing code, beside
    those of [Platform]: built-in conversions, [path], [process.env],
    [fs.mkdir], [fs.writeFile], the [form-data] length and [axios.post]. *)
Module Runtime.

Import Params.

(** The options object handed to [axios.post]; the [Api-Key] header is
    the only header the code sets itself. *)
Record PostConfig := {
  header_api_key : jsstring;
  post_timeout : Z;
  post_maxContentLength : Z;
  post_maxBodyLength : Z
}.

(** How [axios.post] settles: with a response; with an error that
    carries a response ([error.response.status] and
    [error.response.data?.message]); or with an error that carries
    none. *)
Inductive PostResult :=
| Responded (contentType : option jsstring) (body : field)
| HttpFailure (status : N) (dataMessage : field) (e : SysError)
| NetworkFailure (e : SysError).

Record Host := {
  base : Platform;
  (** [buffer.toString()] *)
  utf8 : buffer -> jsstring;
  (** [String(n)] for an integer Number [n] beyond the safe range *)
  numberToString : Z -> jsstring;
  (** [JSON.stringify(v)] and [JSON.stringify(v, null, 2)] *)
  stringify : field -> jsstring;
  stringifyPretty : field -> jsstring;
  (** [Buffer.from(s, 'base64')] *)
  fromBase64 : jsstring -> buffer;
  (** [path.dirname(p)] and [path.join(a, b)] *)
  dirname : jsstring -> jsstring;
  pathJoin : jsstring -> jsstring -> jsstring;
  (** [process.env[name]] *)
  env : jsstring -> option jsstring;
  (** [fs.mkdir(p, { recursive: true })] *)
  mkdir : jsstring -> sysresult unit;
  (** [fs.writeFile(p, buffer)] and [fs.writeFile(p, text, 'utf8')] *)
  writeFile : jsstring -> buffer -> sysresult unit;
  writeText : jsstring -> jsstring -> sysresult unit;
  (** [formData.getLengthSync()] *)
  getLengthSync : FormData -> sysresult Z;
  (** [axios.post(url, formData, config)] *)
  axios_post : jsstring -> FormData -> PostConfig -> PostResult
}.

(** The observable calls of the whole client, in the order they are
    made: those of [event], and the ones that change something. *)
Inductive action :=
| Core (e : event)
| MkDir (path : jsstring)
| WriteFile (path : jsstring) (content : buffer)
| WriteText (path : jsstring) (text : jsstring)
| HttpPost (url : jsstring) (formData : FormData) (cfg : PostConfig).

Definition task (A : Type) : Type := (list action * outcome A)%type.

Definition done {A} (a : A) : task A := ([], Return a).

Definition raise {A} (e : error) : task A := ([], Throw e).

Definition andThen {A B} (m : task A) (k : A -> task B) : task B :=
  match m with
  | (t, Return a) => let (t', r) := k a in (t ++ t', r)
  | (t, Throw e) => (t, Throw e)
  end.

(** [try { m } catch (error) { h error }] *)
Definition attempt {A} (m : task A) (h : error -> task A) : task A :=
  match m with
  | (t, Throw e) => let (t', r) := h e in (t ++ t', r)
  | (t, Return a) => (t, Return a)
  end.

(** A function of [src/utils.js] called from the client. *)
Definition lift {A} (m : io A) : task A := (map Core (fst m), snd m).

(** A synchronous function that returns or throws. *)
Definition now_or_never {A} (r : outcome A) : task A := ([], r).

Definition actions {A} (m : task A) : list action := fst m.
Definition outcome_of {A} (m : task A) : outcome A := snd m.

Definition isPost (a : action) : bool :=
  match a with HttpPost _ _ _ => true | _ => false end.

Definition isWrite (a : action) : bool :=
  match a with WriteFile _ _ | WriteText _ _ => true | _ => false end.

(** [process.env.NODE_ENV === 'production'] *)
Definition production (H : Host) : bool :=
  match env H (js "NODE_ENV") with
  | Some v => str_eqb v (js "production")
  | None => false
  end.

(** The host once [k] reads of the file system have been made. *)
Definition afterReads (k : nat) (H : Host) : Host :=
  {| base := Nat.iter k afterRead (base H);
     utf8 := utf8 H;
     numberToString := numberToString H;
     stringify := stringify H;
     stringifyPretty := stringifyPretty H;
     fromBase64 := fromBase64 H;
     dirname := dirname H;
     pathJoin := pathJoin H;
     env := env H;
     mkdir := mkdir H;
     writeFile := writeFile H;
     writeText := writeText H;
     getLengthSync := getLengthSync H;
     axios_post := axios_post H |}.

(** The same platform at another clock reading. *)
Definition atClock (P : Platform) (d : Date) : Platform :=
  {| lowerNonAscii := lowerNonAscii P;
     parseURL := parseURL P;
     isIPv4 := isIPv4 P;
     isIPv6 := isIPv6 P;
     lookup := lookup P;
     readFileAt := readFileAt P;
     axios_get := axios_get P;
     imageSize := imageSize P;
     imageSizeFromFile := imageSizeFromFile P;
     now := d |}.

End Runtime.

Declare Scope task_scope.
Delimit Scope task_scope with task.
Notation "x <- m ;; k" := (Runtime.andThen m (fun x => k))
  (at level 61, m at next level, right associativity) : task_scope.
Notation "m ;; k" := (Runtime.andThen m (fun _ => k))
  (at level 61, right associativity) : task_scope.

(* ================================================================== *)
(** ** src/config.js: constants, the key lookup, parameter validation *)
(* ================================================================== *)

Module Operations.

Import Params Runtime.

Definition BASE_URL : jsstring := js "https://api.ideogram.ai".

Definition API_VERSION : jsstring := js "v1".

Module ENDPOINTS.
Definition GENERATE_V3 : jsstring :=
  js "/" ++ API_VERSION ++ js "/ideogram-v3/generate".
Definition EDIT_V3 : jsstring :=
  js "/" ++ API_VERSION ++ js "/ideogram-v3/edit".
Definition REMIX_V3 : jsstring :=
  js "/" ++ API_VERSION ++ js "/ideogram-v3/remix".
Definition REFRAME_V3 : jsstring :=
  js "/" ++ API_VERSION ++ js "/ideogram-v3/reframe".
Definition REPLACE_BACKGROUND_V3 : jsstring :=
  js "/" ++ API_VERSION ++ js "/ideogram-v3/replace-background".
Definition UPSCALE : jsstring := js "/upscale".
Definition DESCRIBE : jsstring := js "/describe".
End ENDPOINTS.

Definition RESOLUTIONS : list jsstring :=
  map js [ "512x1536"; "576x1408"; "576x1472"; "576x1536"; "640x1344";
    "640x1408"; "640x1472"; "640x1536"; "704x1152"; "704x1216"; "704x1280";
    "704x1344"; "704x1408"; "704x1472"; "736x1312"; "768x1088"; "768x1216";
    "768x1280"; "768x1344"; "800x1280"; "832x960"; "832x1024"; "832x1088";
    "832x1152"; "832x1216"; "832x1248"; "864x1152"; "896x960"; "896x1024";
    "896x1088"; "896x1120"; "896x1152"; "960x832"; "960x896"; "960x1024";
    "960x1088"; "1024x832"; "1024x896"; "1024x960"; "1024x1024"; "1088x768";
    "1088x832"; "1088x896"; "1088x960"; "1120x896"; "1152x704"; "1152x832";
    "1152x864"; "1152x896"; "1216x704"; "1216x768"; "1216x832"; "1248x832";
    "1280x704"; "1280x768"; "1280x800"; "1312x736"; "1344x640"; "1344x704";
    "1344x768"; "1408x576"; "1408x640"; "1408x704"; "1472x576"; "1472x640";
    "1472x704"; "1536x512"; "1536x576"; "1536x640" ]%string.

Definition ASPECT_RATIOS : list jsstring :=
  map js [ "1x3"; "3x1"; "1x2"; "2x1"; "9x16"; "16x9"; "10x16"; "16x10";
    "2x3"; "3x2"; "3x4"; "4x3"; "4x5"; "5x4"; "1x1" ]%string.

Definition RENDERING_SPEEDS : list jsstring :=
  map js [ "FLASH"; "TURBO"; "DEFAULT"; "QUALITY" ]%string.

Definition MAGIC_PROMPT_OPTIONS : list jsstring :=
  map js [ "AUTO"; "ON"; "OFF" ]%string.

Definition STYLE_TYPES : list jsstring :=
  map js [ "AUTO"; "GENERAL"; "REALISTIC"; "DESIGN"; "FICTION" ]%string.

Definition STYLE_PRESETS : list jsstring :=
  map js [ "80S_ILLUSTRATION"; "90S_NOSTALGIA"; "ABSTRACT_ORGANIC";
    "ANALOG_NOSTALGIA"; "ART_BRUT"; "ART_DECO"; "ART_POSTER"; "AURA";
    "AVANT_GARDE"; "BAUHAUS"; "BLUEPRINT"; "BLURRY_MOTION"; "BRIGHT_ART";
    "C4D_CARTOON"; "CHILDRENS_BOOK"; "COLLAGE"; "COLORING_BOOK_I";
    "COLORING_BOOK_II"; "CUBISM"; "DARK_AURA"; "DOODLE"; "DOUBLE_EXPOSURE";
    "DRAMATIC_CINEMA"; "EDITORIAL"; "EMOTIONAL_MINIMAL"; "ETHEREAL_PARTY";
    "EXPIRED_FILM"; "FLAT_ART"; "FLAT_VECTOR"; "FOREST_REVERIE";
    "GEO_MINIMALIST"; "GLASS_PRISM"; "GOLDEN_HOUR"; "GRAFFITI_I";
    "GRAFFITI_II"; "HALFTONE_PRINT"; "HIGH_CONTRAST"; "HIPPIE_ERA";
    "ICONIC"; "JAPANDI_FUSION"; "JAZZY"; "LONG_EXPOSURE";
    "MAGAZINE_EDITORIAL"; "MINIMAL_ILLUSTRATION"; "MIXED_MEDIA";
    "MONOCHROME"; "NIGHTLIFE"; "OIL_PAINTING"; "OLD_CARTOONS";
    "PAINT_GESTURE"; "POP_ART"; "RETRO_ETCHING"; "RIVIERA_POP";
    "SPOTLIGHT_80S"; "STYLIZED_RED"; "SURREAL_COLLAGE"; "TRAVEL_POSTER";
    "VINTAGE_GEO"; "VINTAGE_POSTER"; "WATERCOLOR"; "WEIRD";
    "WOODBLOCK_PRINT" ]%string.

Definition COLOR_PALETTE_PRESETS : list jsstring :=
  map js [ "EMBER"; "FRESH"; "JUNGLE"; "MAGIC"; "MELON"; "MOSAIC"; "PASTEL";
    "ULTRAMARINE" ]%string.

Definition DESCRIBE_MODEL_VERSIONS : list jsstring :=
  map js [ "V_2"; "V_3" ]%string.

(** The entries of [OPERATION_CONSTRAINTS], as the interfaces of
    [src/types/index.ts] type them; a property an entry does not have is
    [None]. *)
Record PromptConstraint := {
  prompt_required : bool;
  maxLength : Z
}.

Record ImageConstraint := {
  image_required : bool;
  formats : list jsstring;
  mustBeSquare : option bool
}.

Record RangeConstraint := {
  range_min : Z;
  range_max : Z;
  range_default : option Z
}.

Record OptionsConstraint := {
  options : list jsstring;
  options_default : option jsstring;
  options_required : option bool
}.

Record ColorPaletteConstraint := {
  presets : list jsstring
}.

Record OperationConstraint := {
  on_prompt : option PromptConstraint;
  on_image : option ImageConstraint;
  on_mask : option ImageConstraint;
  on_resolution : option OptionsConstraint;
  on_aspectRatio : option OptionsConstraint;
  on_renderingSpeed : option OptionsConstraint;
  on_magicPrompt : option OptionsConstraint;
  on_numImages : option RangeConstraint;
  on_styleType : option OptionsConstraint;
  on_stylePreset : option OptionsConstraint;
  on_colorPalette : option ColorPaletteConstraint;
  on_imageWeight : option RangeConstraint;
  on_resemblance : option RangeConstraint;
  on_detail : option RangeConstraint;
  on_magicPromptOption : option OptionsConstraint;
  on_describeModelVersion : option OptionsConstraint
}.

Definition promptUpTo (n : Z) : option PromptConstraint :=
  Some {| prompt_required := true; maxLength := n |}.

Definition anyImage : option ImageConstraint :=
  Some {| image_required := true;
          formats := map js ["JPEG"; "PNG"; "WebP"; "GIF"]%string;
          mustBeSquare := None |}.

Definition squareImage : option ImageConstraint :=
  Some {| image_required := true;
          formats := map js ["JPEG"; "PNG"; "WebP"; "GIF"]%string;
          mustBeSquare := Some true |}.

Definition oneOf (l : list jsstring) : option OptionsConstraint :=
  Some {| options := l; options_default := None; options_required := None |}.

Definition oneOfOr (l : list jsstring) (d : string)
  : option OptionsConstraint :=
  Some {| options := l; options_default := Some (js d);
          options_required := None |}.

Definition requiredOneOf (l : list jsstring) : option OptionsConstraint :=
  Some {| options := l; options_default := None;
          options_required := Some true |}.

Definition between (lo hi : Z) : option RangeConstraint :=
  Some {| range_min := lo; range_max := hi; range_default := None |}.

Definition betweenOr (lo hi d : Z) : option RangeConstraint :=
  Some {| range_min := lo; range_max := hi; range_default := Some d |}.

(** An object with none of the properties the validation reads. *)
Definition unconstrained : OperationConstraint :=
  {| on_prompt := None; on_image := None; on_mask := None;
     on_resolution := None; on_aspectRatio := None;
     on_renderingSpeed := None; on_magicPrompt := None;
     on_numImages := None; on_styleType := None; on_stylePreset := None;
     on_colorPalette := None; on_imageWeight := None;
     on_resemblance := None; on_detail := None;
     on_magicPromptOption := None; on_describeModelVersion := None |}.

Definition for_generate_v3 : OperationConstraint :=
  {| on_prompt := promptUpTo 10000;
     on_image := None; on_mask := None;
     on_resolution := oneOf RESOLUTIONS;
     on_aspectRatio := oneOf ASPECT_RATIOS;
     on_renderingSpeed := oneOfOr RENDERING_SPEEDS "DEFAULT";
     on_magicPrompt := oneOfOr MAGIC_PROMPT_OPTIONS "AUTO";
     on_numImages := betweenOr 1 8 1;
     on_styleType := oneOf STYLE_TYPES;
     on_stylePreset := oneOf STYLE_PRESETS;
     on_colorPalette := Some {| presets := COLOR_PALETTE_PRESETS |};
     on_imageWeight := None; on_resemblance := None; on_detail := None;
     on_magicPromptOption := None; on_describeModelVersion := None |}.

Definition for_edit_v3 : OperationConstraint :=
  {| on_prompt := promptUpTo 10000;
     on_image := anyImage; on_mask := anyImage;
     on_resolution := None; on_aspectRatio := None;
     on_renderingSpeed := oneOfOr RENDERING_SPEEDS "DEFAULT";
     on_magicPrompt := oneOfOr MAGIC_PROMPT_OPTIONS "AUTO";
     on_numImages := betweenOr 1 8 1;
     on_styleType := oneOf STYLE_TYPES;
     on_stylePreset := oneOf STYLE_PRESETS;
     on_colorPalette := None;
     on_imageWeight := None; on_resemblance := None; on_detail := None;
     on_magicPromptOption := None; on_describeModelVersion := None |}.

Definition for_remix_v3 : OperationConstraint :=
  {| on_prompt := promptUpTo 10000;
     on_image := anyImage; on_mask := None;
     on_resolution := oneOf RESOLUTIONS;
     on_aspectRatio := oneOf ASPECT_RATIOS;
     on_renderingSpeed := oneOfOr RENDERING_SPEEDS "DEFAULT";
     on_magicPrompt := oneOfOr MAGIC_PROMPT_OPTIONS "AUTO";
     on_numImages := betweenOr 1 8 1;
     on_styleType := oneOf STYLE_TYPES;
     on_stylePreset := oneOf STYLE_PRESETS;
     on_colorPalette := None;
     on_imageWeight := between 0 100;
     on_resemblance := None; on_detail := None;
     on_magicPromptOption := None; on_describeModelVersion := None |}.

Definition for_reframe_v3 : OperationConstraint :=
  {| on_prompt := None;
     on_image := squareImage; on_mask := None;
     on_resolution := requiredOneOf RESOLUTIONS;
     on_aspectRatio := None;
     on_renderingSpeed := oneOfOr RENDERING_SPEEDS "DEFAULT";
     on_magicPrompt := None;
     on_numImages := betweenOr 1 8 1;
     on_styleType := None;
     on_stylePreset := oneOf STYLE_PRESETS;
     on_colorPalette := None;
     on_imageWeight := None; on_resemblance := None; on_detail := None;
     on_magicPromptOption := None; on_describeModelVersion := None |}.

Definition for_replace_background_v3 : OperationConstraint :=
  {| on_prompt := promptUpTo 10000;
     on_image := anyImage; on_mask := None;
     on_resolution := None; on_aspectRatio := None;
     on_renderingSpeed := oneOfOr RENDERING_SPEEDS "DEFAULT";
     on_magicPrompt := oneOfOr MAGIC_PROMPT_OPTIONS "AUTO";
     on_numImages := betweenOr 1 8 1;
     on_styleType := None;
     on_stylePreset := oneOf STYLE_PRESETS;
     on_colorPalette := None;
     on_imageWeight := None; on_resemblance := None; on_detail := None;
     on_magicPromptOption := None; on_describeModelVersion := None |}.

Definition for_upscale : OperationConstraint :=
  {| on_prompt := None;
     on_image := anyImage; on_mask := None;
     on_resolution := None; on_aspectRatio := None;
     on_renderingSpeed := None; on_magicPrompt := None;
     on_numImages := betweenOr 1 4 1;
     on_styleType := None; on_stylePreset := None;
     on_colorPalette := None;
     on_imageWeight := None;
     on_resemblance := between 0 100;
     on_detail := between 0 100;
     on_magicPromptOption := oneOf MAGIC_PROMPT_OPTIONS;
     on_describeModelVersion := None |}.

Definition for_describe : OperationConstraint :=
  {| on_prompt := None;
     on_image := anyImage; on_mask := None;
     on_resolution := None; on_aspectRatio := None;
     on_renderingSpeed := None; on_magicPrompt := None;
     on_numImages := None;
     on_styleType := None; on_stylePreset := None;
     on_colorPalette := None;
     on_imageWeight := None; on_resemblance := None; on_detail := None;
     on_magicPromptOption := None;
     on_describeModelVersion := oneOf DESCRIBE_MODEL_VERSIONS |}.

Definition OPERATION_CONSTRAINTS : list (jsstring * OperationConstraint) :=
  [ (js "generate-v3", for_generate_v3);
    (js "edit-v3", for_edit_v3);
    (js "remix-v3", for_remix_v3);
    (js "reframe-v3", for_reframe_v3);
    (js "replace-background-v3", for_replace_background_v3);
    (js "upscale", for_upscale);
    (js "describe", for_describe) ].

(** [OPERATION_CONSTRAINTS] is an object literal, so a lookup that finds
    no own property goes on to [Object.prototype]; these are the names it
    finds there, each bound to a function or object that has none of the
    properties the validation reads. *)
Definition objectPrototypeKeys : list jsstring :=
  map js [ "constructor"; "__defineGetter__"; "__defineSetter__";
    "hasOwnProperty"; "__lookupGetter__"; "__lookupSetter__";
    "isPrototypeOf"; "propertyIsEnumerable"; "toString"; "valueOf";
    "__proto__"; "toLocaleString" ]%string.

Fixpoint ownProperty {A} (o : list (jsstring * A)) (key : jsstring)
  : option A :=
  match o with
  | [] => None
  | (k, v) :: o' => if str_eqb key k then Some v else ownProperty o' key
  end.

(** [OPERATION_CONSTRAINTS[operation]], [None] when it is [undefined]. *)
Definition constraintsOf (operation : jsstring)
  : option OperationConstraint :=
  match ownProperty OPERATION_CONSTRAINTS operation with
  | Some c => Some c
  | None =>
      if arr_includes objectPrototypeKeys operation
      then Some unconstrained
      else None
  end.

(** [process.env.IDEOGRAM_OUTPUT_DIR || 'datasets/ideogram'] *)
Definition DEFAULT_OUTPUT_DIR (H : Host) : jsstring :=
  match env H (js "IDEOGRAM_OUTPUT_DIR") with
  | Some d => match d with [] => js "datasets/ideogram" | _ => d end
  | None => js "datasets/ideogram"
  end.

Definition missingKeyLines : list jsstring :=
  [ js "IDEOGRAM_API_KEY not found. Please provide your API key via "
    ++ js "one of these methods:";
    [];
    js "  1. CLI flag:           ideogram --api-key YOUR_KEY generate "
    ++ js "--prompt " ++ [34%N] ++ js "..." ++ [34%N];
    js "  2. Environment var:    export IDEOGRAM_API_KEY=YOUR_KEY";
    js "  3. Local .env file:    Create .env in current directory with "
    ++ js "IDEOGRAM_API_KEY=YOUR_KEY";
    js "  4. Global config:      Create ~/.ideogram/.env with "
    ++ js "IDEOGRAM_API_KEY=YOUR_KEY";
    [];
    js "Get your API key at https://ideogram.ai/api" ].

Definition msg_missing_key : jsstring := join [10%N] missingKeyLines.

(** [cliApiKey] is the value of the [--api-key] flag, [None] when the flag
    is absent. *)
Definition getIdeogramApiKey (H : Host) (cliApiKey : option jsstring)
  : outcome jsstring :=
  let apiKey :=
    match cliApiKey with
    | Some k =>
        if truthy (FString k) && negb (str_eqb (trim k) [])
        then Some k
        else env H (js "IDEOGRAM_API_KEY")
    | None => env H (js "IDEOGRAM_API_KEY")
    end in
  match apiKey with
  | None => Throw (Own msg_missing_key)
  | Some k =>
      if negb (truthy (FString k)) || str_eqb (trim k) []
      then Throw (Own msg_missing_key)
      else Return k
  end.

(** The parameter object of an operation: a property that is absent
    reads as [FUndefined]. *)
Record OperationParams := {
  prompt : field;
  seed : field;
  resolution : field;
  aspectRatio : field;
  renderingSpeed : field;
  magicPrompt : field;
  negativePrompt : field;
  numImages : field;
  colorPalette : field;
  styleCodes : field;
  styleType : field;
  stylePreset : field;
  imageWeight : field;
  resemblance : field;
  detail : field;
  magicPromptOption : field;
  describeModelVersion : field
}.

(** Statements in sequence, the first [throw] ends the function. *)
Definition next (a b : outcome unit) : outcome unit :=
  match a with
  | Return _ => b
  | Throw e => Throw e
  end.

(** [list.includes(v)] for an array of strings and any value. *)
Definition arrayIncludes (l : list jsstring) (v : field) : bool :=
  match v with
  | FString s => arr_includes l s
  | _ => false
  end.

Definition checkPrompt (c : OperationConstraint) (params : OperationParams)
  : outcome unit :=
  match on_prompt c with
  | Some pc =>
      if prompt_required pc
      then match prompt params with
           | FString s =>
               if negb (truthy (FString s))
               then Throw (Own (js "Prompt is required and must be a string"))
               else if Z.ltb (maxLength pc) (Z.of_nat (length s))
               then Throw (Own (js "Prompt exceeds maximum length of "
                                ++ decZ (maxLength pc) ++ js " characters"))
               else Return tt
           | _ => Throw (Own (js "Prompt is required and must be a string"))
           end
      else Return tt
  | None => Return tt
  end.

(** [if (v && constraint?.options) { if (!options.includes(v)) throw }] *)
Definition checkOption (constraint : option OptionsConstraint) (v : field)
  (message : jsstring) : outcome unit :=
  match truthy v, option_map options constraint with
  | true, Some allowed =>
      if negb (arrayIncludes allowed v)
      then Throw (Own message)
      else Return tt
  | _, _ => Return tt
  end.

Definition isUndefined (v : field) : bool :=
  match v with FUndefined => true | _ => false end.

(** [if (v !== undefined && constraint) { const n = parseInt(v);
    if (isNaN(n) || n < min || n > max) throw }] *)
Definition checkRange (H : Host) (constraint : option RangeConstraint)
  (v : field) (label : jsstring) : outcome unit :=
  match negb (isUndefined v), constraint with
  | true, Some rc =>
      if match parseInt (utf8 H) (numberToString H) v with
         | None => true
         | Some n => Z.ltb n (range_min rc) || Z.ltb (range_max rc) n
         end
      then Throw (Own (label ++ js " must be between " ++ decZ (range_min rc)
                       ++ js " and " ++ decZ (range_max rc)))
      else Return tt
  | _, _ => Return tt
  end.

Definition quoted (H : Host) (v : field) : jsstring :=
  js "'" ++ toString (utf8 H) (numberToString H) v ++ js "'".

Definition validateOperationParams (H : Host) (operation : jsstring)
  (params : OperationParams) : outcome unit :=
  match constraintsOf operation with
  | None => Throw (Own (js "Unknown operation: " ++ operation))
  | Some constraints =>
      next (checkPrompt constraints params)
     (next (checkOption (on_resolution constraints) (resolution params)
              (js "Invalid resolution " ++ quoted H (resolution params)
               ++ js ". Must be one of the supported resolutions."))
     (next (checkOption (on_aspectRatio constraints) (aspectRatio params)
              (js "Invalid aspect ratio " ++ quoted H (aspectRatio params)
               ++ js ". Must be one of: " ++ join (js ", ") ASPECT_RATIOS))
     (next (checkOption (on_renderingSpeed constraints)
              (renderingSpeed params)
              (js "Invalid rendering speed "
               ++ quoted H (renderingSpeed params)
               ++ js ". Must be one of: " ++ join (js ", ") RENDERING_SPEEDS))
     (next (checkOption (on_magicPrompt constraints) (magicPrompt params)
              (js "Invalid magic prompt option "
               ++ quoted H (magicPrompt params)
               ++ js ". Must be one of: "
               ++ join (js ", ") MAGIC_PROMPT_OPTIONS))
     (next (checkRange H (on_numImages constraints) (numImages params)
              (js "numImages"))
     (next (checkOption (on_styleType constraints) (styleType params)
              (js "Invalid style type " ++ quoted H (styleType params)
               ++ js ". Must be one of: " ++ join (js ", ") STYLE_TYPES))
     (next (checkOption (on_stylePreset constraints) (stylePreset params)
              (js "Invalid style preset " ++ quoted H (stylePreset params)
               ++ js ". Must be one of the supported presets."))
     (next (checkRange H (on_imageWeight constraints) (imageWeight params)
              (js "imageWeight"))
     (next (checkRange H (on_resemblance constraints) (resemblance params)
              (js "resemblance"))
           (checkRange H (on_detail constraints) (detail params)
              (js "detail")))))))))))
  end.

End Operations.

(* ================================================================== *)
(** ** src/utils.js: forms and files written *)
(* ================================================================== *)

Module Forms.

Import Params Runtime.

Local Open Scope task_scope.

(** [formData.append(key, value)] and
    [formData.append(key, value, { filename })] *)
Definition append (formData : FormData) (key : jsstring) (v : PartValue)
  : FormData :=
  formData ++ [ {| part_name := key; part_value := v |} ].

(** The body of the loop over [Object.entries(params)]. *)
Definition appendEntry (H : Host) (formData : FormData)
  (entry : jsstring * field) : FormData :=
  let '(key, value) := entry in
  match value with
  | FUndefined | FNull => formData
  | FBuffer b => append formData key (File b (js "image.jpg"))
  | FObject _ => append formData key (Text (stringify H value))
  | FArray items =>
      fold_left
        (fun fd item =>
           match item with
           | FBuffer b => append fd key (File b (js "image.jpg"))
           | _ => append fd key (Raw item)
           end)
        items formData
  | FBool _ | FNaN | FInt _ | FString _ =>
      append formData key (Text (toString (utf8 H) (numberToString H) value))
  end.

(** [params] is the object as [Object.entries] lists it: its own
    properties in the order they were written.  The TypeScript variant of
    the function differs in one place: it appends [String(item)] for an
    array item that is not a Buffer. *)
Definition buildFormData (H : Host) (params : list (jsstring * field))
  : FormData :=
  fold_left (appendEntry H) params [].

Definition fsMkdir (H : Host) (dir : jsstring) : task unit :=
  ([MkDir dir], settle (mkdir H dir)).

Definition fsWriteFile (H : Host) (path : jsstring) (content : buffer)
  : task unit :=
  ([WriteFile path content], settle (writeFile H path content)).

Definition fsWriteText (H : Host) (path text : jsstring) : task unit :=
  ([WriteText path text], settle (writeText H path text)).

Definition msg_image_data : jsstring :=
  js "imageData must be a Buffer or base64-encoded string".

Definition saveImage (H : Host) (imageData : field) (outputPath : jsstring)
  : task jsstring :=
  let dir := dirname H outputPath in
  fsMkdir H dir ;;
  buffer <- match imageData with
            | FBuffer b => done b
            | FString s => done (fromBase64 H s)
            | _ => raise (Own msg_image_data)
            end ;;
  fsWriteFile H outputPath buffer ;;
  done outputPath.

Definition ensureDirectory (H : Host) (dirPath : jsstring) : task jsstring :=
  fsMkdir H dirPath ;;
  done dirPath.

Definition saveMetadata (H : Host) (metadataPath : jsstring)
  (metadata : field) : task jsstring :=
  let jsonContent := stringifyPretty H metadata in
  fsWriteText H metadataPath jsonContent ;;
  done metadataPath.

End Forms.

(* ================================================================== *)
(** ** The client: [IdeogramAPI] *)
(* ================================================================== *)

Module Api.

Import Params Runtime Operations Forms.

Local Open Scope task_scope.

Record IdeogramAPI := {
  apiKey : jsstring;
  baseUrl : jsstring
}.

(** [new IdeogramAPI(apiKey, baseUrl)]: an argument that is omitted is
    [None]; the base URL then defaults to [BASE_URL]. *)
Definition newIdeogramAPI (apiKey baseUrl : option jsstring)
  : outcome IdeogramAPI :=
  let baseUrl := match baseUrl with Some b => b | None => BASE_URL end in
  if match apiKey with
     | Some k => negb (truthy (FString k))
     | None => true
     end
  then Throw (Own (js "API key is required"))
  else if negb (startsWith (js "https://") baseUrl)
  then Throw (Own (js "Base URL must use HTTPS protocol for security"))
  else Return {| apiKey := match apiKey with Some k => k | None => [] end;
                 baseUrl := baseUrl |}.

Definition verifyApiKey (api : IdeogramAPI) : outcome unit :=
  if negb (truthy (FString (apiKey api)))
  then Throw (Own (js "API key not set. Initialize IdeogramAPI with "
                   ++ js "your API key."))
  else Return tt.

Definition MAX_REQUEST_SIZE : Z := 50 * 1024 * 1024.

(** [(n / 1024 / 1024).toFixed(2)] for [0 <= n]: the quotient is exact in
    floating point, and [toFixed] rounds it to hundredths, a tie upwards. *)
Definition megabytes (n : Z) : jsstring :=
  let hundredths := Z.to_N ((200 * n + 1048576) / 2097152) in
  dec (hundredths / 100) ++ js "." ++ Utils.pad 2 (hundredths mod 100)%N.

Definition msg_payload (formDataLength : Z) : jsstring :=
  js "Request payload too large: " ++ megabytes formDataLength
  ++ js "MB exceeds maximum of 50MB".

(** What reading [message.includes] throws when the caught error has no
    [message]. *)
Definition undefinedIncludes : SysError :=
  {| err_code := None;
     err_message :=
       Some (js "Cannot read properties of undefined (reading 'includes')") |}.

(** The first [try] of [_makeRequest]. *)
Definition checkSize (H : Host) (formData : FormData) : task unit :=
  attempt
    (formDataLength <- now_or_never (settle (getLengthSync H formData)) ;;
     if Z.ltb MAX_REQUEST_SIZE formDataLength
     then raise (Own (msg_payload formDataLength))
     else done tt)
    (fun err =>
       match message_of err with
       | Some m =>
           if negb (includes (js "Request payload too large") m)
           then done tt
           else raise err
       | None => raise (Foreign undefinedIncludes)
       end).

Definition postConfig (api : IdeogramAPI) : PostConfig :=
  {| header_api_key := apiKey api;
     post_timeout := 120000;
     post_maxContentLength := 100 * 1024 * 1024;
     post_maxBodyLength := 50 * 1024 * 1024 |}.

(** What the second [catch] receives: the error, and its [response]
    property when it has one (the status and [data?.message]). *)
Record Caught := {
  caught_error : error;
  caught_response : option (N * field)
}.

Definition msg_invalid_response : jsstring :=
  js "Invalid response format from API".

(** The body of the second [try]. *)
Definition post (H : Host) (api : IdeogramAPI) (url : jsstring)
  (formData : FormData) : list action * (field + Caught) :=
  ([HttpPost url formData (postConfig api)],
   match axios_post H url formData (postConfig api) with
   | Responded contentType body =>
       if match contentType with
          | Some c => negb (truthy (FString c))
                      || negb (includes (js "application/json") c)
          | None => true
          end
       then inr {| caught_error := Own msg_invalid_response;
                   caught_response := None |}
       else inl body
   | HttpFailure status dataMessage e =>
       inr {| caught_error := Foreign e;
              caught_response := Some (status, dataMessage) |}
   | NetworkFailure e =>
       inr {| caught_error := Foreign e; caught_response := None |}
   end).

(** The second [catch]: what is thrown in the end. *)
Definition explain (H : Host) (c : Caught) : error :=
  match caught_response c with
  | Some (status, dataMessage) =>
      let message :=
        toString (utf8 H) (numberToString H)
          (orElse dataMessage
             (match message_of (caught_error c) with
              | Some m => FString m
              | None => FUndefined
              end)) in
      if N.eqb status 400 then Own (js "Invalid input: " ++ message)
      else if N.eqb status 401
      then Own (js "Authentication failed. Check API key.")
      else if N.eqb status 403
      then Own (js "Not authorized to perform this operation.")
      else if N.eqb status 422 then Own (js "Validation failed: " ++ message)
      else if N.eqb status 429
      then Own (js "Rate limit exceeded. Too many requests.")
      else if production H
      then Own (js "Operation failed. Please try again.")
      else Own (js "API error (" ++ dec status ++ js "): " ++ message)
  | None =>
      if production H
      then Own (js "Request failed. Please check your connection and "
                ++ js "try again.")
      else caught_error c
  end.

Definition makeRequest (H : Host) (api : IdeogramAPI) (endpoint : jsstring)
  (formData : FormData) : task field :=
  now_or_never (verifyApiKey api) ;;
  let url := baseUrl api ++ endpoint in
  checkSize H formData ;;
  let (t, r) := post H api url formData in
  (t, match r with
      | inl body => Return body
      | inr c => Throw (explain H c)
      end).

(** The [image] and [mask] properties: a path or a [Buffer]. *)
Inductive image :=
| ImageBuffer (b : buffer)
| ImagePath (p : jsstring).

Definition source (i : image) : Utils.imageSource :=
  match i with
  | ImageBuffer b => Utils.SrcBuffer b
  | ImagePath p => Utils.SrcPath p
  end.

(** [Buffer.isBuffer(x) ? x : await loadImageAsBuffer(x)] *)
Definition bufferOf (H : Host) (i : image) : task buffer :=
  match i with
  | ImageBuffer b => done b
  | ImagePath p => lift (Utils.loadImageAsBuffer (base H) p)
  end.

(** The reads of the file system a [bufferOf] that returns has made. *)
Definition readsOf (i : image) : nat :=
  match i with
  | ImageBuffer _ => 0
  | ImagePath _ => 2
  end.

Definition DEFAULT : field := FString (js "DEFAULT").
Definition AUTO : field := FString (js "AUTO").

Definition generate (H : Host) (api : IdeogramAPI) (params : OperationParams)
  : task field :=
  let formData := buildFormData H
    [ (js "prompt", prompt params);
      (js "seed", seed params);
      (js "resolution", resolution params);
      (js "aspect_ratio", aspectRatio params);
      (js "rendering_speed", orElse (renderingSpeed params) DEFAULT);
      (js "magic_prompt", orElse (magicPrompt params) AUTO);
      (js "negative_prompt", negativePrompt params);
      (js "num_images", orElse (numImages params) (FInt 1));
      (js "color_palette", colorPalette params);
      (js "style_codes", styleCodes params);
      (js "style_type", styleType params);
      (js "style_preset", stylePreset params) ] in
  makeRequest H api ENDPOINTS.GENERATE_V3 formData.

Definition edit (H : Host) (api : IdeogramAPI) (params : OperationParams)
  (image mask : image) : task field :=
  imageBuffer <- bufferOf H image ;;
  maskBuffer <- bufferOf (afterReads (readsOf image) H) mask ;;
  let formData := buildFormData H
    [ (js "prompt", prompt params);
      (js "image", FBuffer imageBuffer);
      (js "mask", FBuffer maskBuffer);
      (js "magic_prompt", orElse (magicPrompt params) AUTO);
      (js "num_images", orElse (numImages params) (FInt 1));
      (js "seed", seed params);
      (js "rendering_speed", orElse (renderingSpeed params) DEFAULT);
      (js "style_type", styleType params);
      (js "style_preset", stylePreset params);
      (js "color_palette", colorPalette params);
      (js "style_codes", styleCodes params) ] in
  makeRequest H api ENDPOINTS.EDIT_V3 formData.

Definition remix (H : Host) (api : IdeogramAPI) (params : OperationParams)
  (image : image) : task field :=
  imageBuffer <- bufferOf H image ;;
  let formData := buildFormData H
    [ (js "prompt", prompt params);
      (js "image", FBuffer imageBuffer);
      (js "image_weight", imageWeight params);
      (js "seed", seed params);
      (js "resolution", resolution params);
      (js "aspect_ratio", aspectRatio params);
      (js "rendering_speed", orElse (renderingSpeed params) DEFAULT);
      (js "magic_prompt", orElse (magicPrompt params) AUTO);
      (js "negative_prompt", negativePrompt params);
      (js "num_images", orElse (numImages params) (FInt 1));
      (js "color_palette", colorPalette params);
      (js "style_codes", styleCodes params);
      (js "style_type", styleType params);
      (js "style_preset", stylePreset params) ] in
  makeRequest H api ENDPOINTS.REMIX_V3 formData.

Definition reframe (H : Host) (api : IdeogramAPI) (params : OperationParams)
  (image : image) : task field :=
  lift (Utils.assertSquareImage (base H) (source image)) ;;
  imageBuffer <- bufferOf H image ;;
  let formData := buildFormData H
    [ (js "image", FBuffer imageBuffer);
      (js "resolution", resolution params);
      (js "num_images", orElse (numImages params) (FInt 1));
      (js "seed", seed params);
      (js "rendering_speed", orElse (renderingSpeed params) DEFAULT);
      (js "style_preset", stylePreset params);
      (js "color_palette", colorPalette params);
      (js "style_codes", styleCodes params) ] in
  makeRequest H api ENDPOINTS.REFRAME_V3 formData.

Definition replaceBackground (H : Host) (api : IdeogramAPI)
  (params : OperationParams) (image : image) : task field :=
  imageBuffer <- bufferOf H image ;;
  let formData := buildFormData H
    [ (js "prompt", prompt params);
      (js "image", FBuffer imageBuffer);
      (js "magic_prompt", orElse (magicPrompt params) AUTO);
      (js "num_images", orElse (numImages params) (FInt 1));
      (js "seed", seed params);
      (js "rendering_speed", orElse (renderingSpeed params) DEFAULT);
      (js "style_preset", stylePreset params);
      (js "color_palette", colorPalette params);
      (js "style_codes", styleCodes params) ] in
  makeRequest H api ENDPOINTS.REPLACE_BACKGROUND_V3 formData.

Definition upscale (H : Host) (api : IdeogramAPI) (params : OperationParams)
  (image : image) : task field :=
  imageBuffer <- bufferOf H image ;;
  let imageRequest := FObject
    [ (js "prompt", prompt params);
      (js "resemblance", resemblance params);
      (js "detail", detail params);
      (js "magic_prompt_option", magicPromptOption params);
      (js "num_images", orElse (numImages params) (FInt 1));
      (js "seed", seed params) ] in
  let formData := buildFormData H
    [ (js "image_file", FBuffer imageBuffer);
      (js "image_request", imageRequest) ] in
  makeRequest H api ENDPOINTS.UPSCALE formData.

Definition describe (H : Host) (api : IdeogramAPI) (params : OperationParams)
  (image : image) : task field :=
  imageBuffer <- bufferOf H image ;;
  let formData := buildFormData H
    [ (js "image_file", FBuffer imageBuffer);
      (js "describe_model_version", describeModelVersion params) ] in
  makeRequest H api ENDPOINTS.DESCRIBE formData.

(** A response body of the shape the API documents. *)
Record ImageData := {
  url : jsstring;
  image_resolution : field;
  image_seed : field;
  is_image_safe : field
}.

Record GenerationResponse := {
  response_data : option (list ImageData);
  created : field
}.

(** [response.data || []]: an array is truthy, also when empty. *)
Definition extractImages (response : GenerationResponse) : list ImageData :=
  match response_data response with
  | Some images => images
  | None => []
  end.

End Api.

(* ================================================================== *)
(** ** src/cli.js: saving the results *)
(* ================================================================== *)

Module Cli.

Import Params Runtime Operations Forms Api.

Local Open Scope task_scope.

Definition downloadConfig : RequestConfig :=
  {| responseType := js "arraybuffer";
     timeout := 60000;
     maxContentLength := 100 * 1024 * 1024;
     maxRedirects := 5 |}.

Definition downloadImage (H : Host) (url outputPath : jsstring) : task unit :=
  validatedUrl <- lift (Utils.validateImageUrl (base H) url) ;;
  response <- lift (Utils.httpGet (base H) validatedUrl downloadConfig) ;;
  saveImage H (FBuffer (data response)) outputPath ;;
  done tt.

(** [images.length > 1 ? `${promptOrName}-${i + 1}` : promptOrName] *)
Definition filenameBase (count : nat) (promptOrName : jsstring) (i : nat)
  : jsstring :=
  if Nat.ltb 1 count
  then promptOrName ++ js "-" ++ dec (N.of_nat (i + 1))
  else promptOrName.

Section SaveResults.

Variable H : Host.

(** [clock k] is what the [k]-th [new Date()] of the call reads, counting
    from 0. *)
Variable clock : nat -> Date.

Variables promptOrName outputDir : jsstring.

Variable count : nat.

(** The loop over the images, from index [i] on. *)
Fixpoint saveEach (i : nat) (images : list ImageData) : task unit :=
  match images with
  | [] => done tt
  | image :: rest =>
      let filename :=
        Utils.generateFilename (atClock (base H) (clock i))
          (filenameBase count promptOrName i) None None in
      let imagePath := pathJoin H outputDir filename in
      downloadImage H (url image) imagePath ;;
      saveEach (S i) rest
  end.

End SaveResults.

(** The entries of the [images] array of the metadata, from index [idx]. *)
Fixpoint imageEntries (idx : nat) (images : list ImageData) : list field :=
  match images with
  | [] => []
  | img :: rest =>
      FObject [ (js "index", FInt (Z.of_nat (idx + 1)));
                (js "url", FString (url img));
                (js "resolution", image_resolution img);
                (js "seed", image_seed img);
                (js "isImageSafe", is_image_safe img) ]
      :: imageEntries (S idx) rest
  end.

Definition saveResults (H : Host) (clock : nat -> Date)
  (response : GenerationResponse)
  (operation promptOrName baseOutputDir : jsstring) (options : field)
  : task unit :=
  let images := extractImages response in
  if Nat.eqb (length images) 0
  then done tt
  else
    let outputDir := pathJoin H baseOutputDir operation in
    ensureDirectory H outputDir ;;
    saveEach H clock promptOrName outputDir (length images) 0 images ;;
    let metadataFilename :=
      Utils.generateFilename (atClock (base H) (clock (length images)))
        promptOrName (Some (js "json")) None in
    let metadataPath := pathJoin H outputDir metadataFilename in
    saveMetadata H metadataPath
      (FObject
         [ (js "operation", FString operation);
           (js "timestamp",
            orElse (created response)
              (FString (Utils.toISOString (clock (S (length images))))));
           (js "parameters", options);
           (js "response",
            FObject [ (js "imageCount", FInt (Z.of_nat (length images)));
                      (js "images", FArray (imageEntries 0 images)) ]) ]) ;;
    done tt.

End Cli.

(* ================================================================== *)
(** ** src/utils.js: the spinner *)
(* ================================================================== *)

(** [createSpinner] returns three closures over the variables [message],
    [frameIndex] and [interval]; the terminal and the event loop's
    interval timers are the state they act on. *)
Module Progress.

Definition frames : list codeunit :=
  [10251; 10265; 10297; 10296; 10300; 10292; 10278; 10279; 10247; 10255]%N.

(** What [process.stdout.write] has written, the interval timers of the
    spinner that are running, and the handle the next [setInterval]
    returns. *)
Record Terminal := {
  written : list jsstring;
  timers : list nat;
  nextTimer : nat
}.

(** The variables of the closure. *)
Record Spinner := {
  message : jsstring;
  frameIndex : nat;
  interval : option nat
}.

Definition createSpinner (message : jsstring) : Spinner :=
  {| message := message; frameIndex := 0; interval := None |}.

Definition stdoutWrite (text : jsstring) (t : Terminal) : Terminal :=
  {| written := written t ++ [text];
     timers := timers t;
     nextTimer := nextTimer t |}.

Definition setInterval (t : Terminal) : nat * Terminal :=
  (nextTimer t,
   {| written := written t;
      timers := timers t ++ [nextTimer t];
      nextTimer := S (nextTimer t) |}).

Definition clearInterval (id : nat) (t : Terminal) : Terminal :=
  {| written := written t;
     timers := filter (fun x => negb (Nat.eqb x id)) (timers t);
     nextTimer := nextTimer t |}.

(** [frames[i]] in a template literal. *)
Definition frame (i : nat) : jsstring :=
  match nth_error frames i with
  | Some f => [f]
  | None => js "undefined"
  end.

Definition start (s : Spinner) (t : Terminal) : Spinner * Terminal :=
  let t1 := stdoutWrite [10%N] t in
  let (id, t2) := setInterval t1 in
  ({| message := message s; frameIndex := frameIndex s;
      interval := Some id |}, t2).

(** The callback handed to [setInterval]. *)
Definition draw (s : Spinner) (t : Terminal) : Spinner * Terminal :=
  ({| message := message s;
      frameIndex := (frameIndex s + 1) mod length frames;
      interval := interval s |},
   stdoutWrite ([13%N] ++ frame (frameIndex s) ++ js " " ++ message s) t).

(** [stop(finalMessage)], [None] for an omitted argument or [null]. *)
Definition stop (finalMessage : option jsstring) (s : Spinner) (t : Terminal)
  : Spinner * Terminal :=
  let (s1, t1) :=
    match interval s with
    | Some id =>
        ({| message := message s; frameIndex := frameIndex s;
            interval := None |}, clearInterval id t)
    | None => (s, t)
    end in
  let t2 := stdoutWrite [13%N] t1 in
  (s1,
   match finalMessage with
   | Some (c :: m) => stdoutWrite ((c :: m) ++ [10%N]) t2
   | _ => stdoutWrite [13; 27; 91; 75]%N t2
   end).

Definition update (newMessage : jsstring) (s : Spinner) (t : Terminal)
  : Spinner * Terminal :=
  ({| message := newMessage; frameIndex := frameIndex s;
      interval := interval s |}, t).

(** What can happen to a spinner: a call of one of its methods, or the
    event loop firing the timer [id], which runs the callback when that
    timer is still running. *)
Inductive step :=
| Start
| Stop (finalMessage : option jsstring)
| Update (newMessage : jsstring)
| Fire (id : nat).

Definition perform (st : Spinner * Terminal) (x : step)
  : Spinner * Terminal :=
  let (s, t) := st in
  match x with
  | Start => start s t
  | Stop m => stop m s t
  | Update m => update m s t
  | Fire id => if existsb (Nat.eqb id) (timers t) then draw s t else (s, t)
  end.

Definition run (steps : list step) (st : Spinner * Terminal)
  : Spinner * Terminal :=
  fold_left perform steps st.

(** The line the callback writes for the [k]-th frame. *)
Definition drawn (message : jsstring) (k : nat) : jsstring :=
  [13%N] ++ frame (k mod 10) ++ js " " ++ message.

(** What [stop] writes last. *)
Definition farewell (finalMessage : option jsstring) : jsstring :=
  match finalMessage with
  | Some (c :: m) => (c :: m) ++ [10%N]
  | _ => [13; 27; 91; 75]%N
  end.

End Progress.

(* ================================================================== *)
(** ** A sample host *)
(* ================================================================== *)

(** One possible state of the world around the client, for the examples:
    the built-in conversions as Node.js computes them on the values the
    examples use (ASCII bytes and strings, simple relative paths), an
    environment, a file system that accepts every write, and a server
    that answers by endpoint. *)
Module Lab.

Import Params Runtime Operations Forms Api.

Definition hexDigit (n : N) : codeunit :=
  if N.ltb n 10 then (48 + n)%N else (87 + n)%N.

(** One unit inside a JSON string. *)
Definition escapeUnit (c : codeunit) : jsstring :=
  if N.eqb c 34 then [92; 34]%N
  else if N.eqb c 92 then [92; 92]%N
  else if N.eqb c 8 then js "\b"
  else if N.eqb c 12 then js "\f"
  else if N.eqb c 10 then js "\n"
  else if N.eqb c 13 then js "\r"
  else if N.eqb c 9 then js "\t"
  else if N.ltb c 32
  then js "\u00" ++ [hexDigit (c / 16); hexDigit (c mod 16)]
  else [c].

Definition quote (s : jsstring) : jsstring :=
  [34%N] ++ flat_map escapeUnit s ++ [34%N].

(** The line break and indentation of [JSON.stringify(v, null, gap)];
    nothing when [gap] is 0. *)
Definition newline (gap level : nat) : jsstring :=
  match gap with
  | O => []
  | _ => 10%N :: repeat 32%N (gap * level)
  end.

Definition colon (gap : nat) : jsstring :=
  match gap with O => js ":" | _ => js ": " end.

Definition brackets (gap level : nat) (opening closing : string)
  (members : list jsstring) : jsstring :=
  match members with
  | [] => js opening ++ js closing
  | _ => js opening ++ newline gap (S level)
         ++ join (js "," ++ newline gap (S level)) members
         ++ newline gap level ++ js closing
  end.

(** [String(n)] beyond the safe range, for the one such number of the
    examples: 1e21 is printed in the exponent form. *)
Definition numberText (z : Z) : jsstring :=
  if Z.eqb z (10 ^ 21) then js "1e+21" else decZ z.

(** [JSON.stringify] on values whose strings are well-formed UTF-16. *)
Fixpoint jsonOf (gap level : nat) (v : field) {struct v} : jsstring :=
  match v with
  | FUndefined | FNull | FNaN => js "null"
  | FBool b => if b then js "true" else js "false"
  | FInt z => if isSafeInteger z then decZ z else numberText z
  | FString s => quote s
  | FBuffer b =>
      brackets gap level "{" "}"
        [ quote (js "type") ++ colon gap ++ quote (js "Buffer");
          quote (js "data") ++ colon gap
          ++ brackets gap (S level) "[" "]" (map dec b) ]
  | FArray items =>
      brackets gap level "[" "]"
        ((fix each (l : list field) : list jsstring :=
            match l with
            | [] => []
            | x :: r => jsonOf gap (S level) x :: each r
            end) items)
  | FObject entries =>
      brackets gap level "{" "}"
        ((fix each (l : list (jsstring * field)) : list jsstring :=
            match l with
            | [] => []
            | (k, x) :: r =>
                match x with
                | FUndefined => each r
                | _ => (quote k ++ colon gap ++ jsonOf gap (S level) x)
                       :: each r
                end
            end) entries)
  end.

(** The value of a base64 character, also of the URL-safe alphabet. *)
Definition sextet (c : codeunit) : option N :=
  if isUpper c then Some (c - 65)%N
  else if isLower c then Some (c - 71)%N
  else if isDigit c then Some (c + 4)%N
  else if N.eqb c 43 || N.eqb c 45 then Some 62%N
  else if N.eqb c 47 || N.eqb c 95 then Some 63%N
  else None.

Fixpoint sextets (s : jsstring) : list N :=
  match s with
  | [] => []
  | c :: rest =>
      if N.eqb c 61 then []
      else match sextet c with
           | Some v => v :: sextets rest
           | None => sextets rest
           end
  end.

Fixpoint octetsOf (l : list N) : buffer :=
  match l with
  | a :: b :: c :: d :: rest =>
      [ (a * 4 + b / 16) mod 256; (b * 16 + c / 4) mod 256;
        (c * 64 + d) mod 256 ]%N ++ octetsOf rest
  | [a; b; c] => [ (a * 4 + b / 16) mod 256; (b * 16 + c / 4) mod 256 ]%N
  | [a; b] => [ (a * 4 + b / 16) mod 256 ]%N
  | _ => []
  end.

(** [path.dirname] of a path without trailing or repeated slashes. *)
Definition dirnameOf (p : jsstring) : jsstring :=
  match dropWhile (fun c => negb (N.eqb c 47)) (rev p) with
  | [] => js "."
  | [_] => js "/"
  | _ :: r => rev r
  end.

Definition environment : list (jsstring * jsstring) :=
  [ (js "IDEOGRAM_API_KEY", js "env-key") ].

Definition econnrefused : SysError :=
  {| err_code := Some (js "ECONNREFUSED");
     err_message := Some (js "connect ECONNREFUSED 203.0.113.7:443") |}.

Definition status500 : SysError :=
  {| err_code := Some (js "ERR_BAD_RESPONSE");
     err_message := Some (js "Request failed with status code 500") |}.

Definition twoImages : field :=
  FObject
    [ (js "created", FString (js "2025-01-19T14:30:22.000000+00:00"));
      (js "data",
       FArray
         [ FObject [ (js "url", FString (js "https://example.com/image.jpg"));
                     (js "seed", FInt 12345) ];
           FObject [ (js "url", FString (js "https://example.com/image.jpg"));
                     (js "seed", FInt 12346) ] ]) ].

(** What the server is taken to answer, by endpoint: images for
    'generate', an HTML page for 'remix', an internal error whose body
    names a host for 'upscale'; any other request finds no server. *)
Definition answers : list (jsstring * PostResult) :=
  [ (js "https://api.ideogram.ai/v1/ideogram-v3/generate",
     Responded (Some (js "application/json; charset=utf-8")) twoImages);
    (js "https://api.ideogram.ai/v1/ideogram-v3/remix",
     Responded (Some (js "text/html")) (FString (js "<html></html>")));
    (js "https://api.ideogram.ai/upscale",
     HttpFailure 500 (FString (js "worker db-7.internal timed out"))
       status500) ].

(** The length of the multipart encoding: the bytes of each value, the
    headers of each part and the closing boundary. *)
Definition lengthOf (formData : FormData) : Z :=
  fold_right
    (fun part n =>
       (match part_value part with
        | Text s => 99 + Z.of_nat (length (part_name part))
                    + Z.of_nat (length s)
        | File b name => 138 + Z.of_nat (length (part_name part))
                         + Z.of_nat (length name) + Z.of_nat (length b)
        | Raw v => 99 + Z.of_nat (length (part_name part))
                   + Z.of_nat (length (toString (fun b => b) numberText v))
        end + n)%Z)
    56%Z formData.

Definition hostWith (env : list (jsstring * jsstring)) : Host :=
  {| base := Node.platform;
     utf8 := fun b => b;
     numberToString := numberText;
     stringify := jsonOf 0 0;
     stringifyPretty := jsonOf 2 0;
     fromBase64 := fun s => octetsOf (sextets s);
     dirname := dirnameOf;
     pathJoin := fun a b => a ++ js "/" ++ b;
     Runtime.env := Node.table_get env;
     mkdir := fun _ => Success tt;
     writeFile := fun _ _ => Success tt;
     writeText := fun _ _ => Success tt;
     getLengthSync := fun formData => Success (lengthOf formData);
     axios_post := fun url _ _ =>
       match Node.table_get answers url with
       | Some r => r
       | None => NetworkFailure econnrefused
       end |}.

Definition host : Host := hostWith environment.

(** A file that is replaced between two reads: 'upload.png' holds a PNG
    header when it is read first and a shell script from then on. *)
Definition script : buffer := js "#!/bin/sh".

Definition replacedFile : Platform :=
  {| lowerNonAscii := lowerNonAscii Node.platform;
     parseURL := parseURL Node.platform;
     isIPv4 := isIPv4 Node.platform;
     isIPv6 := isIPv6 Node.platform;
     lookup := lookup Node.platform;
     readFileAt := fun k p =>
       if str_eqb p (js "upload.png")
       then match k with
            | O => Success Node.pngHeader
            | S _ => Success script
            end
       else readFileAt Node.platform k p;
     axios_get := axios_get Node.platform;
     imageSize := imageSize Node.platform;
     imageSizeFromFile := imageSizeFromFile Node.platform;
     now := now Node.platform |}.

Definition hostOfReplacedFile : Host :=
  {| base := replacedFile;
     utf8 := utf8 host;
     numberToString := numberToString host;
     stringify := stringify host;
     stringifyPretty := stringifyPretty host;
     fromBase64 := fromBase64 host;
     dirname := dirname host;
     pathJoin := pathJoin host;
     Runtime.env := Runtime.env host;
     mkdir := mkdir host;
     writeFile := writeFile host;
     writeText := writeText host;
     getLengthSync := getLengthSync host;
     axios_post := axios_post host |}.

Definition productionHost : Host :=
  hostWith ((js "NODE_ENV", js "production") :: environment).

(** A client with the default base URL. *)
Definition client : IdeogramAPI :=
  {| apiKey := js "env-key"; baseUrl := BASE_URL |}.

(** A prompt of sixty letters. *)
Definition longPrompt : jsstring := repeat (ch "a") 60.

(** A response with two images, and a clock that stands still. *)
Definition twoImageResponse : GenerationResponse :=
  {| response_data :=
       Some [ {| url := js "https://example.com/image.jpg";
                 image_resolution := FString (js "1024x1024");
                 image_seed := FInt 12345;
                 is_image_safe := FBool true |};
              {| url := js "https://example.com/image.jpg";
                 image_resolution := FString (js "1024x1024");
                 image_seed := FInt 12346;
                 is_image_safe := FBool true |} ];
     created := FString (js "2025-01-19T14:30:22.000000+00:00") |}.

Definition stillClock (_ : nat) : Date := now Node.platform.

(** A response of three images whose second URL is not an https URL. *)
Definition publicImage : ImageData :=
  {| url := js "https://example.com/image.jpg";
     image_resolution := FString (js "1024x1024");
     image_seed := FInt 12345;
     is_image_safe := FBool true |}.

Definition plainHttpImage : ImageData :=
  {| url := js "http://example.com/image.jpg";
     image_resolution := FString (js "1024x1024");
     image_seed := FInt 12346;
     is_image_safe := FBool true |}.

Definition brokenResponse : GenerationResponse :=
  {| response_data := Some [publicImage; plainHttpImage; publicImage];
     created := FString (js "2025-01-19T14:30:22.000000+00:00") |}.

(** The parameters of the test suite's valid 'generate-v3' call, and the
    same call without the optional ones. *)
Definition sampleParams : OperationParams :=
  {| prompt := FString (js "a beautiful landscape");
     seed := FUndefined; resolution := FUndefined;
     aspectRatio := FString (js "16x9");
     renderingSpeed := FString (js "QUALITY");
     magicPrompt := FUndefined; negativePrompt := FUndefined;
     numImages := FInt 2; colorPalette := FUndefined;
     styleCodes := FUndefined; styleType := FUndefined;
     stylePreset := FUndefined; imageWeight := FUndefined;
     resemblance := FUndefined; detail := FUndefined;
     magicPromptOption := FUndefined; describeModelVersion := FUndefined |}.

(** The same call asking for 1e21 images. *)
Definition exponentParams : OperationParams :=
  {| prompt := FString (js "a beautiful landscape");
     seed := FUndefined; resolution := FUndefined;
     aspectRatio := FString (js "16x9");
     renderingSpeed := FString (js "QUALITY");
     magicPrompt := FUndefined; negativePrompt := FUndefined;
     numImages := FInt (10 ^ 21); colorPalette := FUndefined;
     styleCodes := FUndefined; styleType := FUndefined;
     stylePreset := FUndefined; imageWeight := FUndefined;
     resemblance := FUndefined; detail := FUndefined;
     magicPromptOption := FUndefined; describeModelVersion := FUndefined |}.

Definition fewerParams : OperationParams :=
  {| prompt := FString (js "a beautiful landscape");
     seed := FUndefined; resolution := FUndefined;
     aspectRatio := FUndefined;
     renderingSpeed := FString (js "QUALITY");
     magicPrompt := FUndefined; negativePrompt := FUndefined;
     numImages := FUndefined; colorPalette := FUndefined;
     styleCodes := FUndefined; styleType := FUndefined;
     stylePreset := FUndefined; imageWeight := FUndefined;
     resemblance := FUndefined; detail := FUndefined;
     magicPromptOption := FUndefined; describeModelVersion := FUndefined |}.

(** The form of [generate] for the prompt 'a cat' alone. *)
Definition catForm : FormData :=
  [ {| part_name := js "prompt"; part_value := Text (js "a cat") |};
    {| part_name := js "rendering_speed"; part_value := Text (js "DEFAULT") |};
    {| part_name := js "magic_prompt"; part_value := Text (js "AUTO") |};
    {| part_name := js "num_images"; part_value := Text (js "1") |} ].

(** A form that carries one small image. *)
Definition imageForm : FormData :=
  [ {| part_name := js "image_file";
       part_value := File Node.pngHeader (js "image.jpg") |} ].

(** Where the images of the long prompt go when the clock stands still. *)
Definition longPromptPath : jsstring :=
  js "datasets/ideogram/generate/20250119_143022_" ++ repeat (ch "a") 50
  ++ js ".png".

End Lab.

(* ================================================================== *)
(** ** Vocabulary of the statements about the client *)
(* ================================================================== *)

Module Terms.

Import Params Runtime Operations Forms.

(** The names of the seven operations. *)
Definition operationKeys : list jsstring := map fst OPERATION_CONSTRAINTS.

(** A key that is absent, empty or white space only. *)
Definition blank (k : option jsstring) : Prop :=
  match k with
  | Some s => trim s = []
  | None => True
  end.

Definition noParams : OperationParams :=
  {| prompt := FUndefined; seed := FUndefined; resolution := FUndefined;
     aspectRatio := FUndefined; renderingSpeed := FUndefined;
     magicPrompt := FUndefined; negativePrompt := FUndefined;
     numImages := FUndefined; colorPalette := FUndefined;
     styleCodes := FUndefined; styleType := FUndefined;
     stylePreset := FUndefined; imageWeight := FUndefined;
     resemblance := FUndefined; detail := FUndefined;
     magicPromptOption := FUndefined; describeModelVersion := FUndefined |}.

(** The object [{ prompt: s }]. *)
Definition promptOnly (s : jsstring) : OperationParams :=
  {| prompt := FString s; seed := FUndefined; resolution := FUndefined;
     aspectRatio := FUndefined; renderingSpeed := FUndefined;
     magicPrompt := FUndefined; negativePrompt := FUndefined;
     numImages := FUndefined; colorPalette := FUndefined;
     styleCodes := FUndefined; styleType := FUndefined;
     stylePreset := FUndefined; imageWeight := FUndefined;
     resemblance := FUndefined; detail := FUndefined;
     magicPromptOption := FUndefined; describeModelVersion := FUndefined |}.

(** [a] is [b] or is left out. *)
Definition omitted (a b : field) : Prop := a = b \/ a = FUndefined.

(** [p] is [q] with some of the optional parameters left out. *)
Definition omits (p q : OperationParams) : Prop :=
  prompt p = prompt q
  /\ omitted (resolution p) (resolution q)
  /\ omitted (aspectRatio p) (aspectRatio q)
  /\ omitted (renderingSpeed p) (renderingSpeed q)
  /\ omitted (magicPrompt p) (magicPrompt q)
  /\ omitted (numImages p) (numImages q)
  /\ omitted (styleType p) (styleType q)
  /\ omitted (stylePreset p) (stylePreset q)
  /\ omitted (imageWeight p) (imageWeight q)
  /\ omitted (resemblance p) (resemblance q)
  /\ omitted (detail p) (detail q).

(** A prompt that meets a prompt constraint. *)
Definition promptMeets (constraint : option PromptConstraint) (v : field)
  : Prop :=
  forall pc, constraint = Some pc -> prompt_required pc = true ->
  exists s, v = FString s /\ s <> []
            /\ (Z.of_nat (length s) <= maxLength pc)%Z.

(** A value that, when given (truthy), is one of the listed options. *)
Definition optionMeets (constraint : option OptionsConstraint) (v : field)
  : Prop :=
  forall oc, constraint = Some oc -> truthy v = true ->
  exists s, v = FString s /\ In s (options oc).

(** A value that, when given (not [undefined]), reads as an integer of
    the range; a safe integer Number reads as itself. *)
Definition rangeMeets (H : Host) (constraint : option RangeConstraint)
  (v : field) : Prop :=
  forall rc, constraint = Some rc -> v <> FUndefined ->
  exists n, parseInt (utf8 H) (numberToString H) v = Some n
            /\ (range_min rc <= n <= range_max rc)%Z
            /\ (forall z, v = FInt z -> isSafeInteger z = true -> z = n).

Definition meets (H : Host) (c : OperationConstraint)
  (params : OperationParams) : Prop :=
  promptMeets (on_prompt c) (prompt params)
  /\ optionMeets (on_resolution c) (resolution params)
  /\ optionMeets (on_aspectRatio c) (aspectRatio params)
  /\ optionMeets (on_renderingSpeed c) (renderingSpeed params)
  /\ optionMeets (on_magicPrompt c) (magicPrompt params)
  /\ rangeMeets H (on_numImages c) (numImages params)
  /\ optionMeets (on_styleType c) (styleType params)
  /\ optionMeets (on_stylePreset c) (stylePreset params)
  /\ rangeMeets H (on_imageWeight c) (imageWeight params)
  /\ rangeMeets H (on_resemblance c) (resemblance params)
  /\ rangeMeets H (on_detail c) (detail params).

(** The [append] calls one property of the parameter object gives rise
    to. *)
Definition itemPart (key : jsstring) (item : field) : Part :=
  {| part_name := key;
     part_value := match item with
                   | FBuffer b => File b (js "image.jpg")
                   | _ => Raw item
                   end |}.

Definition entryParts (H : Host) (entry : jsstring * field) : list Part :=
  match snd entry with
  | FUndefined | FNull => []
  | FBuffer b =>
      [ {| part_name := fst entry; part_value := File b (js "image.jpg") |} ]
  | FObject _ =>
      [ {| part_name := fst entry;
           part_value := Text (stringify H (snd entry)) |} ]
  | FArray items => map (itemPart (fst entry)) items
  | FBool _ | FNaN | FInt _ | FString _ =>
      [ {| part_name := fst entry;
           part_value :=
             Text (toString (utf8 H) (numberToString H) (snd entry)) |} ]
  end.

(** How many fields a value contributes to the form. *)
Definition arity (v : field) : nat :=
  match v with
  | FUndefined | FNull => 0
  | FArray items => length items
  | _ => 1
  end.

(** Whether a [Content-Type] header names JSON. *)
Definition isJson (contentType : option jsstring) : bool :=
  match contentType with
  | Some c => includes (js "application/json") c
  | None => false
  end.

(** The message of a failed request: [data?.message] of the response
    when truthy, the error's own message otherwise. *)
Definition serverMessage (H : Host) (dataMessage : field) (e : SysError)
  : jsstring :=
  toString (utf8 H) (numberToString H)
    (orElse dataMessage
       (match err_message e with
        | Some m => FString m
        | None => FUndefined
        end)).

(** The messages that say nothing about the server's answer. *)
Definition genericMessages : list jsstring :=
  [ js "Authentication failed. Check API key.";
    js "Not authorized to perform this operation.";
    js "Rate limit exceeded. Too many requests.";
    js "Operation failed. Please try again.";
    js "Request failed. Please check your connection and try again." ].

(** The one request an [IdeogramAPI] instance makes for a form. *)
Definition postOf (api : Api.IdeogramAPI) (endpoint : jsstring)
  (formData : FormData) : action :=
  HttpPost (Api.baseUrl api ++ endpoint) formData (Api.postConfig api).

(** What [bufferOf] can return for an image: the Buffer itself; for a
    path, the bytes of the second read of the file, at most 50 MiB of
    them, after a first read that found a file that is not empty and
    starts with one of the four signatures. *)
Definition loaded (H : Host) (i : Api.image) (b : buffer) : Prop :=
  match i with
  | Api.ImageBuffer b' => b = b'
  | Api.ImagePath p =>
      (exists checked, readFile (base H) p = Success checked
                       /\ checked <> []
                       /\ Spec.recognizedSignature checked)
      /\ readFile (afterRead (base H)) p = Success b
      /\ (Z.of_nat (length b) <= 50 * 1024 * 1024)%Z
  end.

(** A form field that carries the bytes [b] as a file. *)
Definition fileField (name : string) (b : buffer) : Part :=
  {| part_name := js name; part_value := File b (js "image.jpg") |}.

(** A form field that carries a text. *)
Definition textField (name : string) (text : jsstring) : Part :=
  {| part_name := js name; part_value := Text text |}.

(** The bytes [saveImage] writes for a value, when it writes. *)
Definition bytesOf (H : Host) (imageData : field) : option buffer :=
  match imageData with
  | FBuffer b => Some b
  | FString s => Some (fromBase64 H s)
  | _ => None
  end.

(** A string of ASCII characters. *)
Definition ascii_only (s : jsstring) : Prop :=
  Forall (fun c => (c < 128)%N) s.

Definition isImageWrite (a : action) : bool :=
  match a with WriteFile _ _ => true | _ => false end.

(** The URLs of the GET requests among some actions, in order. *)
Fixpoint fetched (l : list action) : list jsstring :=
  match l with
  | [] => []
  | Core (HttpGet u _) :: rest => u :: fetched rest
  | _ :: rest => fetched rest
  end.

(** The path [saveResults] gives to the image of index [j]. *)
Definition pathOf (H : Host) (clock : nat -> Date)
  (promptOrName outputDir : jsstring) (count j : nat) : jsstring :=
  pathJoin H outputDir
    (Utils.generateFilename (atClock (base H) (clock j))
       (Cli.filenameBase count promptOrName j) None None).

(** The downloads [saveResults] makes for a list of images, the first of
    them with index [i]. *)
Fixpoint downloadsFrom (H : Host) (clock : nat -> Date)
  (promptOrName outputDir : jsstring) (count i : nat)
  (images : list Api.ImageData) : list (task unit) :=
  match images with
  | [] => []
  | image :: rest =>
      Cli.downloadImage H (Api.url image)
        (pathOf H clock promptOrName outputDir count i)
      :: downloadsFrom H clock promptOrName outputDir count (S i) rest
  end.

(** What several tasks do, one after the other. *)
Definition actionsOf (l : list (task unit)) : list action :=
  flat_map actions l.

(** Every one of them returns. *)
Definition allReturn (l : list (task unit)) : Prop :=
  Forall (fun d => outcome_of d = Return tt) l.

(** The path [saveResults] gives to the metadata file. *)
Definition metadataPathOf (H : Host) (clock : nat -> Date)
  (promptOrName outputDir : jsstring) (count : nat) : jsstring :=
  pathJoin H outputDir
    (Utils.generateFilename (atClock (base H) (clock count)) promptOrName
       (Some (js "json")) None).

End Terms.

(* ================================================================== *)
(** * Properties *)
(* ================================================================== *)

(** ** Facts about the string operations *)

Module JSFacts.

Lemma str_eqb_eq (a b : jsstring) : str_eqb a b = true <-> a = b.
Proof.
  revert b; induction a as [|x a IH]; intros [|y b]; simpl;
    try (split; congruence).
  rewrite andb_true_iff, N.eqb_eq, IH. split.
  - intros [-> ->]; reflexivity.
  - intros H; injection H; auto.
Qed.

Lemma str_eqb_refl (a : jsstring) : str_eqb a a = true.
Proof. apply str_eqb_eq; reflexivity. Qed.

Lemma startsWith_app (p r : jsstring) : startsWith p (p ++ r) = true.
Proof.
  induction p as [|x p IH]; simpl; [reflexivity|].
  now rewrite N.eqb_refl, IH.
Qed.

Lemma startsWith_prefix (p s : jsstring) :
  startsWith p s = true -> exists r, s = p ++ r.
Proof.
  revert s; induction p as [|x p IH]; intros s H; simpl in *.
  - now exists s.
  - destruct s as [|y s]; [discriminate|].
    apply andb_true_iff in H as [Hx Hp]. apply N.eqb_eq in Hx; subst y.
    destruct (IH _ Hp) as [r ->]. now exists r.
Qed.

Lemma startsWith_length (p s : jsstring) :
  startsWith p s = true -> length p <= length s.
Proof.
  intros H; destruct (startsWith_prefix _ _ H) as [r ->].
  rewrite length_app; lia.
Qed.

Lemma includes_length (n s : jsstring) :
  includes n s = true -> length n <= length s.
Proof.
  induction s as [|c s IH]; simpl; intros H.
  - rewrite orb_false_r in H. now apply startsWith_length in H.
  - apply orb_true_iff in H as [H|H].
    + now apply startsWith_length in H.
    + specialize (IH H); lia.
Qed.

Lemma includes_startsWith (n s : jsstring) :
  startsWith n s = true -> includes n s = true.
Proof. intros H; destruct s; simpl; now rewrite H. Qed.

Lemma includes_cons (n s : jsstring) (c : codeunit) :
  includes n s = true -> includes n (c :: s) = true.
Proof. intros H; simpl; rewrite H; apply orb_true_r. Qed.

Lemma includes_app (pre n post : jsstring) :
  includes n (pre ++ n ++ post) = true.
Proof.
  induction pre as [|c pre IH].
  - cbn [app]. apply includes_startsWith, startsWith_app.
  - cbn [app]. apply includes_cons, IH.
Qed.


Lemma str_eqb_neq (a b : jsstring) : str_eqb a b = false <-> a <> b.
Proof.
  rewrite <- str_eqb_eq. destruct (str_eqb a b); split; congruence.
Qed.

Lemma arr_includes_In (l : list jsstring) (s : jsstring) :
  arr_includes l s = true <-> In s l.
Proof.
  unfold arr_includes. rewrite existsb_exists. split.
  - intros [x [Hin Heq]]. apply str_eqb_eq in Heq. now subst.
  - intros Hin. exists s. split; [assumption | apply str_eqb_refl].
Qed.

Lemma slice_last_split (n : nat) (s : jsstring) :
  n <= length s ->
  s = firstn (length s - n) s ++ slice_last n s /\ length (slice_last n s) = n.
Proof.
  intros Hn. unfold slice_last. split.
  - symmetry. apply firstn_skipn.
  - rewrite length_skipn. lia.
Qed.

Lemma js_app (a b : string) : js (a ++ b) = js a ++ js b.
Proof.
  unfold js. induction a as [|c a IH]; simpl; [reflexivity|].
  now rewrite IH.
Qed.

End JSFacts.

Import JSFacts.

(** ** Facts about errors and effects *)

Module SysFacts.

Lemma bind_ret {A B} (a : A) (k : A -> io B) : bind (ret a) k = k a.
Proof. unfold bind, ret. now destruct (k a). Qed.

Lemma bind_throw {A B} (e : error) (k : A -> io B) :
  bind (throw e) k = throw e.
Proof. reflexivity. Qed.

Lemma code_is_own (m c : jsstring) : code_is (Own m) c = false.
Proof. reflexivity. Qed.

Lemma code_is_foreign (e : SysError) (c : jsstring) :
  err_code e = Some c -> code_is (Foreign e) c = true.
Proof.
  intros H. unfold code_is, code_of. rewrite H. apply str_eqb_refl.
Qed.

Lemma code_is_not (e : SysError) (c : jsstring) :
  err_code e <> Some c -> code_is (Foreign e) c = false.
Proof.
  intros H. unfold code_is, code_of. destruct (err_code e) as [x|];
    [|reflexivity].
  apply str_eqb_neq. congruence.
Qed.

End SysFacts.

Import SysFacts.

(* ------------------------------------------------------------------ *)
(** ** [redactApiKey] *)
(* ------------------------------------------------------------------ *)

Module ConfigSpec.

Import Config.

Lemma redactApiKey_long (s : jsstring) :
  4 <= length s -> redactApiKey (VString s) = js "xxx..." ++ slice_last 4 s.
Proof.
  intros H. unfold redactApiKey.
  destruct s as [|c s]; [simpl in H; lia|].
  cbn [falsy isString negb orb].
  destruct (Nat.ltb_spec (length (c :: s)) 4) as [Hlt|_]; [lia | reflexivity].
Qed.

Lemma redactApiKey_short (s : jsstring) :
  length s < 4 -> redactApiKey (VString s) = js "xxx...xxx".
Proof.
  intros H. unfold redactApiKey.
  destruct (Nat.ltb_spec (length s) 4) as [_|Hge]; [|lia].
  now rewrite !orb_true_r.
Qed.

Lemma includes_split (n s : jsstring) :
  includes n s = true -> exists a b, s = a ++ n ++ b.
Proof.
  induction s as [|c s IH]; simpl; intros H.
  - rewrite orb_false_r in H. apply startsWith_prefix in H as [r ->].
    now exists [], r.
  - apply orb_true_iff in H as [H|H].
    + apply startsWith_prefix in H as [r ->]. now exists [], r.
    + destruct (IH H) as [a [b ->]]. now exists (c :: a), b.
Qed.

(** A text of five or more characters found inside a redacted key
    covers one of the dots of the mask. *)
Lemma covers_a_dot (s last4 : jsstring) :
  4 < length s -> length last4 = 4 ->
  includes s (js "xxx..." ++ last4) = true ->
  length s <= 10 /\ In (ch ".") s.
Proof.
  intros Hlong H4 Hin. split.
  { apply includes_length in Hin. rewrite length_app, H4 in Hin.
    exact Hin. }
  destruct (includes_split _ _ Hin) as [a [b Hsplit]].
  assert (Hlen : length a + length s + length b = 10).
  { apply (f_equal (@length codeunit)) in Hsplit.
    rewrite !length_app, H4 in Hsplit. cbn in Hsplit. lia. }
  destruct a as [|a0 a].
  - apply (nth_error_In s 3).
    transitivity (nth_error (js "xxx..." ++ last4) 3); [|reflexivity].
    rewrite Hsplit. cbn [app]. symmetry. apply nth_error_app1. lia.
  - apply (nth_error_In s (5 - length (a0 :: a))).
    transitivity (nth_error (js "xxx..." ++ last4) 5); [|reflexivity].
    rewrite Hsplit.
    rewrite nth_error_app2 by (cbn [length] in *; lia).
    symmetry. apply nth_error_app1. cbn [length] in *. lia.
Qed.

(** C9, at the failing input: the key 'abcd' is printed whole after the
    prefix, as is every key of exactly four characters, so the full key
    does appear in the output.  The rest of the claim holds: an input
    that is not a string or is shorter than 4 characters gives
    'xxx...xxx'; any other gives 'xxx...' followed by exactly its last 4
    characters; two keys with the same last 4 characters are redacted
    alike; and a key of more than 4 characters is not printed whole: it
    occurs in the output only if it has at most 10 characters and
    contains a '.', that is, only where it overlaps the mask itself, so
    neither 'abcde' nor the key of the repository's test occurs in its
    redaction. *)
Theorem redactApiKey_prints_four_character_keys_whole :
  redactApiKey (VString (js "abcd")) = js "xxx...abcd"
  /\ includes (js "abcd") (redactApiKey (VString (js "abcd"))) = true
  /\ (forall s : jsstring,
         length s = 4 ->
         redactApiKey (VString s) = js "xxx..." ++ s
         /\ includes s (redactApiKey (VString s)) = true)
  /\ (forall v : value,
         (forall s, v = VString s -> length s < 4) ->
         redactApiKey v = js "xxx...xxx")
  /\ (forall s : jsstring,
         4 <= length s ->
         exists pre last4,
           s = pre ++ last4 /\ length last4 = 4
           /\ redactApiKey (VString s) = js "xxx..." ++ last4)
  /\ (forall s1 s2 : jsstring,
         4 <= length s1 -> 4 <= length s2 ->
         slice_last 4 s1 = slice_last 4 s2 ->
         redactApiKey (VString s1) = redactApiKey (VString s2))
  /\ (forall s : jsstring,
         4 < length s ->
         includes s (redactApiKey (VString s)) = true ->
         length s <= 10 /\ In (ch ".") s)
  /\ includes (js "abcde") (redactApiKey (VString (js "abcde"))) = false
  /\ redactApiKey (VString (js "ideogram-api-key-1234567890abcdefghij"))
     = js "xxx...ghij"
  /\ includes (js "ideogram-api-key-1234567890abcdefghij")
       (redactApiKey (VString (js "ideogram-api-key-1234567890abcdefghij")))
     = false.
Proof.
  split; [reflexivity|]. split; [reflexivity|].
  split.
  { intros s Hs. rewrite redactApiKey_long by lia.
    unfold slice_last. rewrite Hs. cbn [Nat.sub skipn].
    split; [reflexivity|].
    rewrite <- (app_nil_r s) at 2. apply includes_app. }
  split.
  { intros v Hv. destruct v; try reflexivity.
    apply redactApiKey_short, Hv. reflexivity. }
  split.
  { intros s Hs. destruct (slice_last_split 4 s Hs) as [Hsplit Hlen].
    exists (firstn (length s - 4) s), (slice_last 4 s).
    repeat split; try assumption. now apply redactApiKey_long. }
  split.
  { intros s1 s2 H1 H2 Hlast.
    rewrite !redactApiKey_long by assumption. now rewrite Hlast. }
  split.
  { intros s Hs Hin. rewrite redactApiKey_long in Hin by lia.
    apply (covers_a_dot s (slice_last 4 s)); [exact Hs| |exact Hin].
    apply slice_last_split. lia. }
  repeat split.
Qed.

End ConfigSpec.

(* ------------------------------------------------------------------ *)
(** ** [validateImagePath] *)
(* ------------------------------------------------------------------ *)

Module FileSpec.

Import Utils Spec.

(** Splits a conjunction of byte tests into the equations it states. *)
Ltac byte_tests H :=
  repeat (apply andb_true_iff in H; destruct H as [H ?]);
  try discriminate;
  repeat match goal with
         | E : N.eqb _ _ = true |- _ => apply N.eqb_eq in E; subst
         end.

Lemma isPNG_spec (buf : buffer) : isPNG buf = true <-> pngSignature buf.
Proof.
  unfold isPNG, pngSignature, slice, byte_is.
  destruct buf as [|a [|b [|c [|d r]]]]; cbn; split; intros H;
    try discriminate; try (byte_tests H; reflexivity).
  injection H as -> -> -> ->. reflexivity.
Qed.

Lemma isJPEG_spec (buf : buffer) : isJPEG buf = true <-> jpegSignature buf.
Proof.
  unfold isJPEG, jpegSignature, slice, byte_is.
  destruct buf as [|a [|b [|c [|d r]]]]; cbn; split; intros H;
    try discriminate; try (byte_tests H; reflexivity);
    injection H as -> -> ->; reflexivity.
Qed.

Lemma isGIF_spec (buf : buffer) : isGIF buf = true <-> gifSignature buf.
Proof.
  unfold isGIF, gifSignature, decodes_to, slice.
  rewrite str_eqb_eq. cbn [Nat.sub skipn].
  rewrite firstn_firstn. reflexivity.
Qed.

Lemma isWebP_spec (buf : buffer) : isWebP buf = true <-> webpSignature buf.
Proof.
  unfold isWebP, webpSignature, decodes_to, slice.
  rewrite str_eqb_eq. reflexivity.
Qed.

(** The four tests together, as the condition of line 197 has them. *)
Lemma unrecognized_spec (buf : buffer) :
  (negb (isPNG buf) && negb (isJPEG buf) && negb (isWebP buf)
   && negb (isGIF buf))%bool = false
  <-> recognizedSignature buf.
Proof.
  unfold recognizedSignature.
  rewrite <- isPNG_spec, <- isJPEG_spec, <- isGIF_spec, <- isWebP_spec.
  destruct (isPNG buf), (isJPEG buf), (isWebP buf), (isGIF buf); cbn;
    intuition congruence.
Qed.

(** The run on a readable file. *)
Lemma validateImagePath_read (P : Platform) (path : jsstring) (buf : buffer) :
  readFile P path = Success buf ->
  validateImagePath P path =
  ([ReadFile path],
   if Nat.eqb (length buf) 0 then Throw (Own (msg_empty path))
   else if (negb (isPNG buf) && negb (isJPEG buf) && negb (isWebP buf)
            && negb (isGIF buf))%bool
        then Throw (Own (msg_not_image path))
        else Return path).
Proof.
  intros H. unfold validateImagePath, fsReadFile, bind, try_catch.
  rewrite H. cbn [settle].
  destruct (Nat.eqb (length buf) 0); [reflexivity|].
  destruct (negb (isPNG buf) && negb (isJPEG buf) && negb (isWebP buf)
            && negb (isGIF buf))%bool; reflexivity.
Qed.

(** The run on a file that cannot be read. *)
Lemma validateImagePath_unreadable (P : Platform) (path : jsstring)
  (e : SysError) :
  readFile P path = Failure e ->
  validateImagePath P path =
  ([ReadFile path],
   if code_is (Foreign e) (js "ENOENT") then Throw (Own (msg_not_found path))
   else if code_is (Foreign e) (js "EACCES")
        then Throw (Own (msg_permission path))
        else Throw (Foreign e)).
Proof.
  intros H. unfold validateImagePath, fsReadFile, bind, try_catch.
  rewrite H. cbn [settle].
  destruct (code_is (Foreign e) (js "ENOENT")); [reflexivity|].
  destruct (code_is (Foreign e) (js "EACCES")); reflexivity.
Qed.

Lemma validateImagePath_accepts_iff (P : Platform) (path : jsstring) :
  result (validateImagePath P path) = Return path
  <-> exists buf, readFile P path = Success buf /\ buf <> []
                  /\ recognizedSignature buf.
Proof.
  destruct (readFile P path) as [buf|e] eqn:Hread.
  - rewrite (validateImagePath_read _ _ _ Hread). cbn [result snd].
    destruct buf as [|b buf]; cbn [length Nat.eqb].
    + split; [discriminate|]. intros [buf' [Heq [Hne _]]].
      injection Heq as <-. now elim Hne.
    + pose proof (unrecognized_spec (b :: buf)) as Hrec.
      destruct (negb (isPNG (b :: buf)) && _ && _ && _)%bool.
      * split; [discriminate|]. intros [buf' [Heq [_ Hsig]]].
        injection Heq as <-. apply Hrec in Hsig. discriminate.
      * split; [|reflexivity]. intros _. exists (b :: buf).
        repeat split; [discriminate | now apply Hrec].
  - rewrite (validateImagePath_unreadable _ _ _ Hread). cbn [result snd].
    split.
    + destruct (code_is _ _); [discriminate|].
      destruct (code_is _ _); discriminate.
    + intros [buf [Heq _]]. discriminate.
Qed.

Lemma validateImagePath_returns_path (P : Platform) (path v : jsstring) :
  result (validateImagePath P path) = Return v -> v = path.
Proof.
  destruct (readFile P path) as [buf|e] eqn:Hread.
  - rewrite (validateImagePath_read _ _ _ Hread). cbn [result snd].
    destruct (Nat.eqb _ _); [discriminate|].
    destruct (negb _ && _ && _ && _)%bool; [discriminate|].
    intros H; now injection H.
  - rewrite (validateImagePath_unreadable _ _ _ Hread). cbn [result snd].
    destruct (code_is _ _); [discriminate|].
    destruct (code_is _ _); discriminate.
Qed.

Lemma validateImagePath_rejects_unrecognized (P : Platform)
  (path : jsstring) (buf : buffer) :
  readFile P path = Success buf -> buf <> [] -> ~ recognizedSignature buf ->
  result (validateImagePath P path) = Throw (Own (msg_not_image path)).
Proof.
  intros Hread Hne Hsig.
  rewrite (validateImagePath_read _ _ _ Hread). cbn [result snd].
  destruct buf as [|b buf]; [now elim Hne|]. cbn [length Nat.eqb].
  pose proof (unrecognized_spec (b :: buf)) as Hrec.
  destruct (negb _ && _ && _ && _)%bool; [reflexivity|].
  elim Hsig. now apply Hrec.
Qed.

(** The four diagnoses never coincide, whatever paths they name. *)
Lemma diagnoses_distinct (p q : jsstring) :
  msg_empty p <> msg_not_found q /\ msg_empty p <> msg_permission q
  /\ msg_empty p <> msg_not_image q /\ msg_not_found p <> msg_permission q
  /\ msg_not_found p <> msg_not_image q
  /\ msg_permission p <> msg_not_image q.
Proof.
  unfold msg_empty, msg_not_found, msg_permission, msg_not_image.
  repeat split; intros H; cbn in H; discriminate H.
Qed.

(** C5: [validateImagePath] returns the file path exactly when the file is
    readable, not empty, and its bytes carry one of the four signatures of
    the specification (PNG in bytes 0..3, JPEG in bytes 0..2, 'GIF' in
    bytes 0..2, 'WEBP' in bytes 8..11); an empty file, a missing file
    (ENOENT), an unreadable file (EACCES) and an unrecognised format fail
    with four messages that are pairwise different. *)
Theorem validateImagePath_accepts_exactly_signed_files
  (P : Platform) (path : jsstring) :
  (result (validateImagePath P path) = Return path
   <-> exists buf, readFile P path = Success buf /\ buf <> []
                   /\ recognizedSignature buf)
  /\ (forall v, result (validateImagePath P path) = Return v -> v = path)
  /\ (readFile P path = Success [] ->
      result (validateImagePath P path) = Throw (Own (msg_empty path)))
  /\ (forall e, readFile P path = Failure e ->
                err_code e = Some (js "ENOENT") ->
      result (validateImagePath P path) = Throw (Own (msg_not_found path)))
  /\ (forall e, readFile P path = Failure e ->
                err_code e = Some (js "EACCES") ->
      result (validateImagePath P path) = Throw (Own (msg_permission path)))
  /\ (forall buf, readFile P path = Success buf -> buf <> [] ->
                  ~ recognizedSignature buf ->
      result (validateImagePath P path) = Throw (Own (msg_not_image path)))
  /\ (msg_empty path <> msg_not_found path
      /\ msg_empty path <> msg_permission path
      /\ msg_empty path <> msg_not_image path
      /\ msg_not_found path <> msg_permission path
      /\ msg_not_found path <> msg_not_image path
      /\ msg_permission path <> msg_not_image path).
Proof.
  split; [apply validateImagePath_accepts_iff|].
  split; [apply validateImagePath_returns_path|].
  split.
  { intros Hread. now rewrite (validateImagePath_read _ _ _ Hread). }
  split.
  { intros e Hread Hcode.
    rewrite (validateImagePath_unreadable _ _ _ Hread).
    now rewrite (code_is_foreign _ _ Hcode). }
  split.
  { intros e Hread Hcode.
    rewrite (validateImagePath_unreadable _ _ _ Hread).
    rewrite (code_is_foreign _ _ Hcode).
    unfold code_is, code_of. rewrite Hcode. reflexivity. }
  split; [apply validateImagePath_rejects_unrecognized|].
  apply diagnoses_distinct.
Qed.

(** The PNG header of the repository's test suite is accepted. *)
Lemma validateImagePath_accepts_exactly_signed_files_witness :
  result (validateImagePath Node.platform (js "test-image.png"))
  = Return (js "test-image.png").
Proof.
  destruct (validateImagePath_accepts_exactly_signed_files
              Node.platform (js "test-image.png")) as [Hiff _].
  apply Hiff. exists Node.pngHeader.
  split; [reflexivity|]. split; [discriminate|]. left. reflexivity.
Defined.

(** *** The check reads the first twelve bytes only *)

Lemma recognizedSignature_prefix (buf : buffer) :
  recognizedSignature (firstn 12 buf) <-> recognizedSignature buf.
Proof.
  unfold recognizedSignature, pngSignature, jpegSignature, gifSignature,
    webpSignature.
  rewrite !firstn_firstn, skipn_firstn_comm, firstn_firstn.
  reflexivity.
Qed.

Lemma short_buffer_no_webp (buf : buffer) :
  length buf < 12 -> ~ webpSignature buf.
Proof.
  unfold webpSignature. intros Hlen H.
  assert (Hl : length (firstn 4 (skipn 8 buf)) = 4) by now rewrite H.
  rewrite length_firstn, length_skipn in Hl. lia.
Qed.

(** C10, the counterexample: the eight-byte PNG header of the test suite
    is shorter than twelve bytes and carries neither the JPEG nor the GIF
    signature, and it is accepted. *)
Lemma short_png_header_is_accepted :
  length Node.pngHeader = 8
  /\ isJPEG Node.pngHeader = false /\ isGIF Node.pngHeader = false
  /\ readFile Node.platform (js "test-image.png") = Success Node.pngHeader
  /\ result (validateImagePath Node.platform (js "test-image.png"))
     = Return (js "test-image.png").
Proof. repeat split. Qed.

(** C10, as amended: on every non-empty buffer the magic-byte check
    settles, either accepting the file or rejecting it with the 'valid
    image' error; a buffer shorter than twelve bytes is accepted exactly
    when its leading bytes carry the PNG, JPEG or GIF signature; a buffer
    whose bytes 8..11 spell 'WEBP' is accepted whatever else it holds; and
    two non-empty buffers that agree on bytes 0..11 get the same answer. *)
Theorem magic_check_total_on_first_twelve_bytes
  (P : Platform) (path : jsstring) (buf : buffer) :
  readFile P path = Success buf -> buf <> [] ->
  (result (validateImagePath P path) = Return path
   \/ result (validateImagePath P path) = Throw (Own (msg_not_image path)))
  /\ (length buf < 12 ->
      (result (validateImagePath P path) = Return path
       <-> pngSignature buf \/ jpegSignature buf \/ gifSignature buf))
  /\ (webpSignature buf -> result (validateImagePath P path) = Return path)
  /\ (forall (P' : Platform) (buf' : buffer),
         readFile P' path = Success buf' -> buf' <> [] ->
         firstn 12 buf' = firstn 12 buf ->
         result (validateImagePath P' path)
         = result (validateImagePath P path)).
Proof.
  intros Hread Hne.
  assert (Hcases : forall Q b, readFile Q path = Success b -> b <> [] ->
            (recognizedSignature b
             /\ result (validateImagePath Q path) = Return path)
            \/ (~ recognizedSignature b
                /\ result (validateImagePath Q path)
                   = Throw (Own (msg_not_image path)))).
  { intros Q b HQ Hb.
    rewrite (validateImagePath_read _ _ _ HQ). cbn [result snd].
    destruct b as [|x b]; [now elim Hb|]. cbn [length Nat.eqb].
    pose proof (unrecognized_spec (x :: b)) as Hrec.
    destruct (negb _ && _ && _ && _)%bool.
    - right. split; [|reflexivity]. intros Hs. apply Hrec in Hs.
      discriminate.
    - left. split; [now apply Hrec | reflexivity]. }
  destruct (Hcases P buf Hread Hne) as [[Hsig Hres]|[Hsig Hres]].
  - split; [now left|]. split.
    { intros Hlen. split; [|intros _; exact Hres]. intros _.
      destruct Hsig as [H|[H|[H|H]]]; auto.
      now elim (short_buffer_no_webp buf Hlen). }
    split; [intros _; exact Hres|].
    intros P' buf' Hread' Hne' Hpre. rewrite Hres.
    destruct (Hcases P' buf' Hread' Hne') as [[_ Hres']|[Hsig' _]];
      [exact Hres'|].
    elim Hsig'. apply recognizedSignature_prefix. rewrite Hpre.
    now apply recognizedSignature_prefix.
  - split; [now right|]. split.
    { intros _. rewrite Hres. split; [discriminate|].
      intros H. elim Hsig. unfold recognizedSignature. tauto. }
    split.
    { intros H. elim Hsig. unfold recognizedSignature. tauto. }
    intros P' buf' Hread' Hne' Hpre. rewrite Hres.
    destruct (Hcases P' buf' Hread' Hne') as [[Hsig' _]|[_ Hres']];
      [|exact Hres'].
    elim Hsig. apply recognizedSignature_prefix. rewrite <- Hpre.
    now apply recognizedSignature_prefix.
Qed.

(** The amended statement at the test suite's PNG file. *)
Lemma magic_check_total_on_first_twelve_bytes_witness :
  result (validateImagePath Node.platform (js "test-image.png"))
  = Return (js "test-image.png")
  \/ result (validateImagePath Node.platform (js "test-image.png"))
     = Throw (Own (msg_not_image (js "test-image.png"))).
Proof.
  refine (proj1 (magic_check_total_on_first_twelve_bytes
                   Node.platform (js "test-image.png") Node.pngHeader _ _)).
  - reflexivity.
  - discriminate.
Defined.

End FileSpec.

(* ------------------------------------------------------------------ *)
(** ** [assertSquareImage] *)
(* ------------------------------------------------------------------ *)

Module SquareSpec.

Import Utils Spec.

(** The decoding step with its [catch]: a decoder failure, or an
    unsupported source, becomes the one wrapped error. *)
Lemma assertSquareImage_run (P : Platform) (source : imageSource) :
  assertSquareImage P source =
  ([], match readDimensions P source with
       | Success d =>
           if N.eqb (width d) (height d) then Return tt
           else Throw (Own (msg_not_square (width d) (height d)))
       | Failure e => Throw (Own (msg_dimensions (err_message e)))
       end).
Proof.
  unfold assertSquareImage, readDimensions, bind, try_catch.
  destruct source as [b|p|].
  - destruct (imageSize P b) as [d|e]; cbn; [|reflexivity].
    destruct (N.eqb (width d) (height d)); reflexivity.
  - destruct (imageSizeFromFile P p) as [d|e]; cbn; [|reflexivity].
    destruct (N.eqb (width d) (height d)); reflexivity.
  - reflexivity.
Qed.

(** C8: on a buffer or a path, [assertSquareImage] returns without error
    exactly when the decoded width equals the decoded height; on another
    image it fails with a message that prints the width and the height;
    and a failure of the decoder becomes the single error 'Unable to read
    image dimensions: ' followed by the cause's message. *)
Theorem assertSquareImage_accepts_exactly_squares
  (P : Platform) (source : imageSource) :
  (result (assertSquareImage P source) = Return tt
   <-> exists d, readDimensions P source = Success d /\ width d = height d)
  /\ (forall d, readDimensions P source = Success d ->
                width d <> height d ->
      result (assertSquareImage P source)
      = Throw (Own (js "Image must be square. Received "
                    ++ dec (width d) ++ js "x" ++ dec (height d))))
  /\ (forall e, readDimensions P source = Failure e ->
      result (assertSquareImage P source)
      = Throw (Own (js "Unable to read image dimensions: "
                    ++ show (err_message e))))
  /\ (forall (b : buffer) (p : jsstring),
         readDimensions P (SrcBuffer b) = imageSize P b
         /\ readDimensions P (SrcPath p) = imageSizeFromFile P p).
Proof.
  rewrite assertSquareImage_run. cbn [result snd].
  split; [|split; [|split]].
  - destruct (readDimensions P source) as [d|e].
    + destruct (N.eqb_spec (width d) (height d)) as [Heq|Hne].
      * split; [|reflexivity]. intros _. now exists d.
      * split; [discriminate|]. intros [d' [Hd Hw]].
        injection Hd as <-. contradiction.
    + split; [discriminate|]. intros [d [Hd _]]. discriminate.
  - intros d Hd Hne. rewrite Hd.
    destruct (N.eqb_spec (width d) (height d)); [contradiction|reflexivity].
  - intros e He. rewrite He. reflexivity.
  - intros b p. split; reflexivity.
Qed.

(** The 4x2 image of the test suite, read from a path, is rejected with
    its dimensions in the message. *)
Lemma assertSquareImage_accepts_exactly_squares_witness :
  result (assertSquareImage Node.platform (SrcPath (js "rectangle.bmp")))
  = Throw (Own (js "Image must be square. Received 4x2")).
Proof.
  destruct (assertSquareImage_accepts_exactly_squares
              Node.platform (SrcPath (js "rectangle.bmp")))
    as [_ [Hreject _]].
  apply (Hreject {| width := 4; height := 2 |}).
  - reflexivity.
  - discriminate.
Defined.

End SquareSpec.

(* ------------------------------------------------------------------ *)
(** ** [isBlockedIP] on IPv4 addresses *)
(* ------------------------------------------------------------------ *)

Module ClassifierSpec.

Import Utils Spec.

Lemma octets_In (n : N) : (n < 256)%N -> In n octets.
Proof.
  intros H. unfold octets. apply in_map_iff. exists (N.to_nat n).
  split; [apply N2Nat.id|]. apply in_seq. lia.
Qed.

(** An octet is printed as a non-empty string that starts and ends with
    a digit. *)
Lemma dec_octet_ends (n : N) :
  (n < 256)%N ->
  exists (first last : codeunit) (ds ds' : jsstring),
    dec n = first :: ds /\ rev (dec n) = last :: ds'
    /\ isDigit first = true /\ isDigit last = true.
Proof.
  intros Hn.
  assert (Hall : forallb (fun k =>
            match dec k, rev (dec k) with
            | x :: _, y :: _ => isDigit x && isDigit y
            | _, _ => false
            end)%bool octets = true) by (vm_compute; reflexivity).
  rewrite forallb_forall in Hall. specialize (Hall n (octets_In n Hn)).
  destruct (dec n) as [|x ds]; [discriminate|].
  destruct (rev (x :: ds)) as [|y ds']; [discriminate|].
  apply andb_true_iff in Hall as [Hx Hy].
  now exists x, y, ds, ds'.
Qed.

(** The ten patterns decide on the first two octets alone. *)
Lemma patterns_on_two_octets (a b c0 : N) (rest : jsstring) :
  (a < 256)%N -> (b < 256)%N ->
  anyPattern (dec a ++ js "." ++ dec b ++ js "." ++ c0 :: rest)
  = inBlockedIPv4Range a b.
Proof.
  intros Ha Hb.
  assert (Hall : forallb (fun x => forallb (fun y =>
            Bool.eqb
              (anyPattern (dec x ++ js "." ++ dec y ++ js "." ++ c0 :: rest))
              (inBlockedIPv4Range x y)) octets) octets = true)
    by (vm_compute; reflexivity).
  rewrite forallb_forall in Hall. specialize (Hall a (octets_In a Ha)).
  rewrite forallb_forall in Hall. specialize (Hall b (octets_In b Hb)).
  now apply Bool.eqb_prop in Hall.
Qed.

Lemma stripBrackets_plain (first last : codeunit) (s pre : jsstring) :
  isDigit first = true -> isDigit last = true ->
  rev (first :: s) = last :: pre ->
  stripBrackets (first :: s) = first :: s.
Proof.
  intros Hf Hl Hrev. unfold stripBrackets, dropLast1.
  assert (Hf' : N.eqb first 91 = false).
  { unfold isDigit in Hf. apply andb_true_iff in Hf as [_ Hhi].
    apply N.leb_le in Hhi. apply N.eqb_neq. lia. }
  assert (Hl' : N.eqb last 93 = false).
  { unfold isDigit in Hl. apply andb_true_iff in Hl as [_ Hhi].
    apply N.leb_le in Hhi. apply N.eqb_neq. lia. }
  now rewrite Hf', Hrev, Hl'.
Qed.

(** The exact-match lists add nothing to the patterns on a string that
    starts with a digit. *)
Lemma exact_lists_covered (first : codeunit) (s : jsstring) :
  isDigit first = true ->
  stripBrackets (first :: s) = first :: s ->
  isBlockedIP (first :: s) = anyPattern (first :: s).
Proof.
  intros Hf Hstrip. unfold isBlockedIP. cbv zeta. rewrite Hstrip.
  fold (anyPattern (first :: s)).
  destruct (anyPattern (first :: s)) eqn:Hp.
  - destruct (_ || _ || _)%bool; [reflexivity|].
    destruct (arr_includes _ _); reflexivity.
  - assert (Hno : forall lit : jsstring,
              anyPattern lit = true ->
              str_eqb (first :: s) lit = false).
    { intros lit Hlit. apply str_eqb_neq. intros E. rewrite E in Hp.
      congruence. }
    assert (Hletter : forall lit : jsstring,
              match lit with x :: _ => isDigit x | [] => false end = false ->
              str_eqb (first :: s) lit = false).
    { intros [|x lit] Hx; [reflexivity|]. cbn [str_eqb].
      destruct (N.eqb_spec first x) as [->|_]; [congruence|reflexivity]. }
    rewrite (Hletter (js "localhost") eq_refl).
    rewrite (Hno (js "127.0.0.1") eq_refl).
    rewrite (Hletter (js "::1") eq_refl).
    cbn [orb arr_includes existsb].
    rewrite (Hletter (js "metadata.google.internal") eq_refl).
    rewrite (Hletter (js "metadata") eq_refl).
    rewrite (Hno (js "169.254.169.254") eq_refl).
    reflexivity.
Qed.

(** On the canonical text of an IPv4 address the classifier answers
    exactly by the IPv4 ranges of the specification. *)
Lemma isBlockedIP_ipv4_ranges (a b c d : N) :
  (a < 256)%N -> (b < 256)%N -> (c < 256)%N -> (d < 256)%N ->
  isBlockedIP (dotted a b c d) = inBlockedIPv4Range a b.
Proof.
  intros Ha Hb Hc Hd. unfold dotted.
  destruct (dec_octet_ends a Ha) as [a0 [_ [da [_ [Ea [_ [Fa _]]]]]]].
  destruct (dec_octet_ends c Hc) as [c0 [_ [dc [_ [Ec _]]]]].
  destruct (dec_octet_ends d Hd) as [_ [d1 [_ [dd [_ [Ed [_ Ld]]]]]]].
  assert (Hshape : dec a ++ js "." ++ dec b ++ js "." ++ dec c ++ js "."
                   ++ dec d
                   = a0 :: da ++ js "." ++ dec b ++ js "." ++ dec c
                     ++ js "." ++ dec d) by now rewrite Ea.
  assert (Hrev : rev (a0 :: da ++ js "." ++ dec b ++ js "." ++ dec c
                      ++ js "." ++ dec d)
                 = d1 :: dd ++ rev (a0 :: da ++ js "." ++ dec b ++ js "."
                                    ++ dec c ++ js ".")).
  { change (a0 :: da ++ js "." ++ dec b ++ js "." ++ dec c ++ js "."
            ++ dec d)
      with ((a0 :: da) ++ js "." ++ dec b ++ js "." ++ dec c ++ js "."
            ++ dec d).
    rewrite !app_assoc, rev_app_distr, Ed. reflexivity. }
  rewrite Hshape.
  rewrite (exact_lists_covered a0 _ Fa
             (stripBrackets_plain a0 d1 _ _ Fa Ld Hrev)).
  rewrite <- Hshape, Ec.
  change ((c0 :: dc) ++ js "." ++ dec d) with (c0 :: dc ++ js "." ++ dec d).
  now apply patterns_on_two_octets.
Qed.

End ClassifierSpec.

(* ------------------------------------------------------------------ *)
(** ** [validateImageUrl]: the stages in order *)
(* ------------------------------------------------------------------ *)

Module UrlStages.

Import Utils Spec.

(** The scan makes no call and has three outcomes. *)
Lemma preParseScan_cases (url : jsstring) :
  preParseScan url = ret tt
  \/ preParseScan url = throw (Own msg_localhost)
  \/ preParseScan url = throw (Own msg_private).
Proof.
  unfold preParseScan. destruct (ipv6MappedMatch url) as [q|]; [|now left].
  destruct (str_eqb q (js "127.0.0.1") || startsWith (js "127.") q)%bool;
    [right; now left|].
  destruct (existsb _ privatePatterns); [right; now right | now left].
Qed.

(** Stage 1 decides alone when it rejects: neither the parser nor the
    scheme is looked at. *)
Lemma scan_rejection_is_final (P : Platform) (url : jsstring) (e : error) :
  preParseScan url = throw e -> validateImageUrl P url = throw e.
Proof.
  intros H. unfold validateImageUrl. rewrite H. apply bind_throw.
Qed.

Lemma scan_localhost (url q : jsstring) :
  ipv6MappedMatch url = Some q -> startsWith (js "127.") q = true ->
  preParseScan url = throw (Own msg_localhost).
Proof.
  intros Hm Hq. unfold preParseScan. rewrite Hm, Hq.
  now rewrite orb_true_r.
Qed.

Lemma scan_private (url q : jsstring) :
  ipv6MappedMatch url = Some q -> startsWith (js "127.") q = false ->
  existsb (fun pattern => pattern q) privatePatterns = true ->
  preParseScan url = throw (Own msg_private).
Proof.
  intros Hm Hq Hp. unfold preParseScan. rewrite Hm, Hq, Hp.
  destruct (str_eqb q (js "127.0.0.1")) eqn:E; [|reflexivity].
  apply str_eqb_eq in E. subst q. discriminate Hq.
Qed.

(** Stage 2: parsing comes after the scan. *)
Lemma unparseable_after_scan (P : Platform) (url : jsstring) :
  preParseScan url = ret tt -> parseURL P url = None ->
  validateImageUrl P url = throw (Own (msg_invalid_url url)).
Proof.
  intros Hs Hp. unfold validateImageUrl. rewrite Hs, bind_ret, Hp.
  apply bind_throw.
Qed.

(** Stage 3: the scheme is checked on the parsed URL. *)
Lemma scheme_after_parse (P : Platform) (url : jsstring) (u : URL) :
  preParseScan url = ret tt -> parseURL P url = Some u ->
  protocol u <> js "https:" ->
  validateImageUrl P url = throw (Own msg_https).
Proof.
  intros Hs Hp Hproto. unfold validateImageUrl.
  rewrite Hs, bind_ret, Hp, bind_ret.
  apply str_eqb_neq in Hproto. now rewrite Hproto.
Qed.

(** Stage 5: the three blocked names. *)
Lemma blocked_hostname (P : Platform) (url : jsstring) (u : URL) :
  preParseScan url = ret tt -> parseURL P url = Some u ->
  protocol u = js "https:" ->
  In (stripBrackets (lowerHostname P u)) blockedHostnames ->
  validateImageUrl P url = throw (Own msg_metadata).
Proof.
  intros Hs Hp Hproto Hin. unfold validateImageUrl.
  rewrite Hs, bind_ret, Hp, bind_ret, Hproto, str_eqb_refl. cbn [negb].
  apply arr_includes_In in Hin. now rewrite Hin.
Qed.

Lemma not_blocked_hostname (s : jsstring) :
  ~ In s blockedHostnames -> arr_includes blockedHostnames s = false.
Proof.
  intros H. destruct (arr_includes blockedHostnames s) eqn:E; [|reflexivity].
  apply arr_includes_In in E. contradiction.
Qed.

(** Stage 6: a literal address is classified without any lookup. *)
Lemma literal_branch (P : Platform) (url : jsstring) (u : URL) :
  preParseScan url = ret tt -> parseURL P url = Some u ->
  protocol u = js "https:" ->
  ~ In (stripBrackets (lowerHostname P u)) blockedHostnames ->
  (isIPv4 P (stripBrackets (lowerHostname P u))
   || isIPv6 P (stripBrackets (lowerHostname P u)))%bool = true ->
  validateImageUrl P url =
  ([], if isBlockedIP (stripBrackets (lowerHostname P u))
       then Throw (Own msg_private) else Return url).
Proof.
  intros Hs Hp Hproto Hin Hip. unfold validateImageUrl.
  rewrite Hs, bind_ret, Hp, bind_ret, Hproto, str_eqb_refl. cbn [negb].
  rewrite (not_blocked_hostname _ Hin), Hip.
  destruct (isBlockedIP _); reflexivity.
Qed.

Lemma includes_nil_r (n : jsstring) : n <> [] -> includes n [] = false.
Proof. destruct n; [congruence | reflexivity]. Qed.

Lemma own_message_marks_itself (hostname : jsstring) :
  includes (js "resolves to internal") (msg_resolves_internal hostname) = true.
Proof.
  unfold msg_resolves_internal.
  change (js " resolves to internal/private IP address")
    with (js " " ++ js "resolves to internal" ++ js "/private IP address").
  rewrite !app_assoc. rewrite <- (app_assoc _ (js "resolves to internal")).
  apply includes_app.
Qed.

(** Stage 7 with its [catch]: one lookup, and how each answer settles. *)
Lemma resolveDomain_run (P : Platform) (hostname : jsstring) :
  resolveDomain P hostname =
  ([DnsLookup hostname],
   match lookup P hostname with
   | Success address =>
       if isBlockedIP address
       then Throw (Own (msg_resolves_internal hostname))
       else Return tt
   | Failure e =>
       if code_is (Foreign e) (js "ENOTFOUND")
       then Throw (Own (msg_unresolved hostname))
       else if marked_internal (err_message e)
       then Throw (Foreign e)
       else Throw (Own (msg_lookup_failed hostname (err_message e)))
   end).
Proof.
  unfold resolveDomain, dnsLookup, bind, try_catch.
  destruct (lookup P hostname) as [address|e]; cbn [settle].
  - destruct (isBlockedIP address); [|reflexivity].
    cbn [throw code_is code_of message_of].
    rewrite own_message_marks_itself. reflexivity.
  - cbn [message_of]. destruct (code_is (Foreign e) (js "ENOTFOUND"));
      [reflexivity|].
    unfold marked_internal. destruct (err_message e) as [m|]; [|reflexivity].
    destruct m as [|c m]; [reflexivity|].
    cbn [falsy negb andb].
    destruct (includes (js "resolves to internal") (c :: m)); reflexivity.
Qed.

Lemma domain_branch (P : Platform) (url : jsstring) (u : URL) :
  preParseScan url = ret tt -> parseURL P url = Some u ->
  protocol u = js "https:" ->
  ~ In (stripBrackets (lowerHostname P u)) blockedHostnames ->
  isIPv4 P (stripBrackets (lowerHostname P u)) = false ->
  isIPv6 P (stripBrackets (lowerHostname P u)) = false ->
  validateImageUrl P url =
  ([DnsLookup (lowerHostname P u)],
   match snd (resolveDomain P (lowerHostname P u)) with
   | Return _ => Return url
   | Throw e => Throw e
   end).
Proof.
  intros Hs Hp Hproto Hin H4 H6. unfold validateImageUrl.
  rewrite Hs, bind_ret, Hp, bind_ret, Hproto, str_eqb_refl. cbn [negb].
  rewrite (not_blocked_hostname _ Hin), H4, H6. cbn [orb].
  rewrite resolveDomain_run. unfold bind, ret. cbn [snd].
  destruct (lookup P (lowerHostname P u)) as [a|e].
  - destruct (isBlockedIP a); reflexivity.
  - destruct (code_is _ _); [reflexivity|].
    destruct (marked_internal _); reflexivity.
Qed.

(** Whatever the platform answers, an accepted URL is handed back
    unchanged. *)
Lemma validateImageUrl_returns_url (P : Platform) (url v : jsstring) :
  result (validateImageUrl P url) = Return v -> v = url.
Proof.
  destruct (preParseScan_cases url) as [Hs|[Hs|Hs]];
    try (rewrite (scan_rejection_is_final P _ _ Hs); discriminate).
  destruct (parseURL P url) as [u|] eqn:Hp;
    [|rewrite (unparseable_after_scan P _ Hs Hp); discriminate].
  destruct (str_eqb (protocol u) (js "https:")) eqn:Hproto.
  2:{ apply str_eqb_neq in Hproto.
      rewrite (scheme_after_parse P _ _ Hs Hp Hproto). discriminate. }
  apply str_eqb_eq in Hproto.
  destruct (arr_includes blockedHostnames
              (stripBrackets (lowerHostname P u))) eqn:Hb.
  { apply arr_includes_In in Hb.
    rewrite (blocked_hostname P _ _ Hs Hp Hproto Hb). discriminate. }
  assert (Hnb : ~ In (stripBrackets (lowerHostname P u)) blockedHostnames).
  { intros Hin. apply arr_includes_In in Hin. congruence. }
  destruct (isIPv4 P (stripBrackets (lowerHostname P u))) eqn:H4.
  { rewrite (literal_branch P _ _ Hs Hp Hproto Hnb);
      [|now rewrite H4].
    cbn [result snd]. destruct (isBlockedIP _); [discriminate|].
    intros H; now injection H. }
  destruct (isIPv6 P (stripBrackets (lowerHostname P u))) eqn:H6.
  { rewrite (literal_branch P _ _ Hs Hp Hproto Hnb);
      [|now rewrite H4, H6].
    cbn [result snd]. destruct (isBlockedIP _); [discriminate|].
    intros H; now injection H. }
  rewrite (domain_branch P _ _ Hs Hp Hproto Hnb H4 H6). cbn [result snd].
  destruct (snd (resolveDomain P (lowerHostname P u)));
    [|discriminate].
  intros H; now injection H.
Qed.

(** The scan decides on the leftmost mapped literal alone. *)
Lemma preParseScan_run (url : jsstring) :
  preParseScan url =
  match ipv6MappedMatch url with
  | Some q =>
      if startsWith (js "127.") q then throw (Own msg_localhost)
      else if existsb (fun pattern => pattern q) privatePatterns
      then throw (Own msg_private)
      else ret tt
  | None => ret tt
  end.
Proof.
  unfold preParseScan. destruct (ipv6MappedMatch url) as [q|]; [|reflexivity].
  destruct (startsWith (js "127.") q) eqn:Hq; [now rewrite orb_true_r|].
  destruct (str_eqb q (js "127.0.0.1")) eqn:E; [|reflexivity].
  apply str_eqb_eq in E. subst q. discriminate Hq.
Qed.

(** How the validation settles on a string that the scan lets through
    and that parses to an https URL. *)
Lemma after_the_scheme (P : Platform) (url : jsstring) (u : URL) :
  preParseScan url = ret tt -> parseURL P url = Some u ->
  protocol u = js "https:" ->
  result (validateImageUrl P url) =
  if arr_includes blockedHostnames (stripBrackets (lowerHostname P u))
  then Throw (Own msg_metadata)
  else if (isIPv4 P (stripBrackets (lowerHostname P u))
           || isIPv6 P (stripBrackets (lowerHostname P u)))%bool
  then (if isBlockedIP (stripBrackets (lowerHostname P u))
        then Throw (Own msg_private) else Return url)
  else match lookup P (lowerHostname P u) with
       | Success address =>
           if isBlockedIP address
           then Throw (Own (msg_resolves_internal (lowerHostname P u)))
           else Return url
       | Failure e =>
           if code_is (Foreign e) (js "ENOTFOUND")
           then Throw (Own (msg_unresolved (lowerHostname P u)))
           else if marked_internal (err_message e)
           then Throw (Foreign e)
           else Throw (Own (msg_lookup_failed (lowerHostname P u)
                              (err_message e)))
       end.
Proof.
  intros Hs Hp Hproto.
  destruct (arr_includes blockedHostnames
              (stripBrackets (lowerHostname P u))) eqn:Hb.
  { apply arr_includes_In in Hb.
    now rewrite (blocked_hostname P _ _ Hs Hp Hproto Hb). }
  assert (Hnb : ~ In (stripBrackets (lowerHostname P u)) blockedHostnames).
  { intros Hin. apply arr_includes_In in Hin. congruence. }
  destruct (isIPv4 P (stripBrackets (lowerHostname P u))
            || isIPv6 P (stripBrackets (lowerHostname P u)))%bool eqn:Hip.
  { now rewrite (literal_branch P _ _ Hs Hp Hproto Hnb Hip). }
  apply orb_false_iff in Hip as [H4 H6].
  rewrite (domain_branch P _ _ Hs Hp Hproto Hnb H4 H6).
  rewrite resolveDomain_run. cbn [result snd].
  destruct (lookup P (lowerHostname P u)) as [a|e].
  - destruct (isBlockedIP a); reflexivity.
  - destruct (code_is _ _); [reflexivity|].
    destruct (marked_internal _); reflexivity.
Qed.

Lemma msg_resolves_internal_inj (h h' : jsstring) :
  msg_resolves_internal h = msg_resolves_internal h' -> h = h'.
Proof.
  unfold msg_resolves_internal. intros H.
  apply app_inv_head in H. now apply app_inv_tail in H.
Qed.

Lemma unresolved_is_not_internal (h h' : jsstring) :
  msg_unresolved h <> msg_resolves_internal h'.
Proof.
  unfold msg_unresolved, msg_resolves_internal. intros H.
  apply app_inv_head in H. apply (f_equal (@rev codeunit)) in H.
  rewrite !rev_app_distr in H. cbn in H. discriminate H.
Qed.

End UrlStages.

(* ------------------------------------------------------------------ *)
(** ** [validateImageUrl]: the claims *)
(* ------------------------------------------------------------------ *)

Module UrlSpec.

Import Utils Spec UrlStages.

(** C3, the counterexample: the host of this https URL is a domain name,
    not a literal address, and it is rejected without any DNS
    resolution. *)
Lemma metadata_domain_is_never_resolved :
  parseURL Node.platform (js "https://metadata.google.internal/computeMetadata")
  = Some (Node.https "metadata.google.internal")
  /\ isIPv4 Node.platform (js "metadata.google.internal") = false
  /\ isIPv6 Node.platform (js "metadata.google.internal") = false
  /\ validateImageUrl Node.platform
       (js "https://metadata.google.internal/computeMetadata")
     = ([], Throw (Own msg_metadata)).
Proof. repeat split. Qed.

(** C3, as amended: for every https URL that passes the pre-parse scan and
    whose hostname is none of the three blocked names and not a literal
    IPv4 or IPv6 address, [validateImageUrl] makes exactly one DNS
    resolution, of that hostname; a blocked resolved address fails with
    'Domain h resolves to internal/private IP address'; ENOTFOUND fails
    with 'Domain h could not be resolved'; any other lookup failure is
    wrapped into 'Failed to validate domain h: ' followed by the
    underlying message, unless that message itself contains 'resolves to
    internal', in which case the lookup's error is passed on unchanged;
    and a public resolved address makes the validation return the URL
    unchanged. *)
Theorem domain_is_resolved_exactly_once
  (P : Platform) (url : jsstring) (u : URL) :
  preParseScan url = ret tt ->
  parseURL P url = Some u ->
  protocol u = js "https:" ->
  ~ In (stripBrackets (lowerHostname P u)) blockedHostnames ->
  isIPv4 P (stripBrackets (lowerHostname P u)) = false ->
  isIPv6 P (stripBrackets (lowerHostname P u)) = false ->
  trace (validateImageUrl P url) = [DnsLookup (lowerHostname P u)]
  /\ (forall address,
         lookup P (lowerHostname P u) = Success address ->
         isBlockedIP address = true ->
         result (validateImageUrl P url)
         = Throw (Own (js "Domain " ++ lowerHostname P u
                       ++ js " resolves to internal/private IP address")))
  /\ (forall address,
         lookup P (lowerHostname P u) = Success address ->
         isBlockedIP address = false ->
         result (validateImageUrl P url) = Return url)
  /\ (forall e,
         lookup P (lowerHostname P u) = Failure e ->
         err_code e = Some (js "ENOTFOUND") ->
         result (validateImageUrl P url)
         = Throw (Own (js "Domain " ++ lowerHostname P u
                       ++ js " could not be resolved")))
  /\ (forall e,
         lookup P (lowerHostname P u) = Failure e ->
         err_code e <> Some (js "ENOTFOUND") ->
         marked_internal (err_message e) = false ->
         result (validateImageUrl P url)
         = Throw (Own (js "Failed to validate domain " ++ lowerHostname P u
                       ++ js ": " ++ show (err_message e))))
  /\ (forall e,
         lookup P (lowerHostname P u) = Failure e ->
         err_code e <> Some (js "ENOTFOUND") ->
         marked_internal (err_message e) = true ->
         result (validateImageUrl P url) = Throw (Foreign e))
  /\ (forall h m,
         msg_resolves_internal h <> msg_unresolved h
         /\ msg_resolves_internal h <> msg_lookup_failed h m
         /\ msg_unresolved h <> msg_lookup_failed h m).
Proof.
  intros Hs Hp Hproto Hnb H4 H6.
  rewrite (domain_branch P url u Hs Hp Hproto Hnb H4 H6).
  rewrite resolveDomain_run. cbn [trace result fst snd].
  split; [reflexivity|].
  split; [intros a -> ->; reflexivity|].
  split; [intros a -> ->; reflexivity|].
  split; [intros e -> Hc; now rewrite (code_is_foreign _ _ Hc)|].
  split; [intros e -> Hc ->; now rewrite (code_is_not _ _ Hc)|].
  split; [intros e -> Hc ->; now rewrite (code_is_not _ _ Hc)|].
  intros h m. unfold msg_resolves_internal, msg_unresolved, msg_lookup_failed.
  repeat split; intros H.
  - do 2 apply app_inv_head in H. discriminate H.
  - cbn in H. discriminate H.
  - cbn in H. discriminate H.
Qed.

(** The amended statement at the public domain of the test suite. *)
Lemma domain_is_resolved_exactly_once_witness :
  trace (validateImageUrl Node.platform (js "https://example.com/image.jpg"))
  = [DnsLookup (js "example.com")]
  /\ result (validateImageUrl Node.platform
               (js "https://example.com/image.jpg"))
     = Return (js "https://example.com/image.jpg").
Proof.
  assert (Hnb : ~ In (stripBrackets (lowerHostname Node.platform
                                       (Node.https "example.com")))
                     blockedHostnames).
  { vm_compute. intuition discriminate. }
  destruct (domain_is_resolved_exactly_once Node.platform
              (js "https://example.com/image.jpg") (Node.https "example.com")
              eq_refl eq_refl eq_refl Hnb eq_refl eq_refl)
    as [Htrace [_ [Hpublic _]]].
  split; [exact Htrace|].
  apply (Hpublic (js "8.8.8.8")); reflexivity.
Defined.

(** *** The wording of rejections *)

(** C4, the counterexample: the https URL with hostname localhost is
    rejected with the metadata-endpoint message, which does not mention
    localhost. *)
Lemma localhost_gets_the_metadata_message :
  parseURL Node.platform (js "https://localhost/image.jpg")
  = Some (Node.https "localhost")
  /\ result (validateImageUrl Node.platform (js "https://localhost/image.jpg"))
     = Throw (Own (js "Access to cloud metadata endpoints is not allowed"))
  /\ includes (js "localhost")
       (js "Access to cloud metadata endpoints is not allowed") = false.
Proof. repeat split. Qed.

Lemma includes_internal_private (hostname : jsstring) :
  includes (js "internal/private") (msg_resolves_internal hostname) = true.
Proof.
  unfold msg_resolves_internal.
  change (js " resolves to internal/private IP address")
    with (js " resolves to " ++ js "internal/private" ++ js " IP address").
  rewrite !app_assoc. rewrite <- (app_assoc _ (js "internal/private")).
  apply includes_app.
Qed.

(** Where the scan comes first: the host name of this URL is localhost,
    yet the string carries a private mapped literal in its path and is
    rejected by the scan, with the private-address message, before it is
    parsed. *)
Lemma scan_precedes_the_host_name (P : Platform) :
  validateImageUrl P (js "https://localhost/[::ffff:10.0.0.1]")
  = throw (Own msg_private).
Proof. now apply scan_rejection_is_final. Qed.

(** C4, as amended: the 'localhost' wording is used by the pre-parse scan
    alone, exactly when the leftmost mapped literal of the string starts
    with 127.; the 'metadata endpoint' wording is used exactly for an
    https URL that the scan lets through and whose hostname is localhost,
    metadata.google.internal or metadata; 'Access to internal/private IP
    addresses is not allowed' is used exactly when the scan finds a
    private mapped literal or when an https URL that the scan lets
    through has a blocked literal address as its host; and 'Domain h
    resolves to internal/private IP address' exactly when the host h of
    such a URL is a domain that resolves to a blocked address; these
    messages are pairwise different. *)
Theorem rejection_wording_by_category (P : Platform) (url : jsstring) :
  (result (validateImageUrl P url) = Throw (Own msg_localhost)
   <-> exists q, ipv6MappedMatch url = Some q
                 /\ startsWith (js "127.") q = true)
  /\ (result (validateImageUrl P url) = Throw (Own msg_metadata)
      <-> preParseScan url = ret tt
          /\ exists u, parseURL P url = Some u /\ protocol u = js "https:"
               /\ In (stripBrackets (lowerHostname P u))
                     [js "localhost"; js "metadata.google.internal";
                      js "metadata"])
  /\ (result (validateImageUrl P url) = Throw (Own msg_private)
      <-> (exists q, ipv6MappedMatch url = Some q
                     /\ startsWith (js "127.") q = false
                     /\ existsb (fun pattern => pattern q) privatePatterns
                        = true)
          \/ (preParseScan url = ret tt
              /\ exists u, parseURL P url = Some u
                   /\ protocol u = js "https:"
                   /\ ~ In (stripBrackets (lowerHostname P u))
                           blockedHostnames
                   /\ (isIPv4 P (stripBrackets (lowerHostname P u))
                       || isIPv6 P (stripBrackets (lowerHostname P u)))%bool
                      = true
                   /\ isBlockedIP (stripBrackets (lowerHostname P u))
                      = true))
  /\ (forall h,
         result (validateImageUrl P url)
         = Throw (Own (msg_resolves_internal h))
         <-> preParseScan url = ret tt
             /\ exists u, parseURL P url = Some u
                  /\ protocol u = js "https:"
                  /\ lowerHostname P u = h
                  /\ ~ In (stripBrackets h) blockedHostnames
                  /\ isIPv4 P (stripBrackets h) = false
                  /\ isIPv6 P (stripBrackets h) = false
                  /\ exists address, lookup P h = Success address
                                     /\ isBlockedIP address = true)
  /\ (includes (js "localhost") msg_localhost = true
      /\ includes (js "metadata endpoint") msg_metadata = true
      /\ includes (js "localhost") msg_metadata = false
      /\ includes (js "internal/private") msg_private = true
      /\ forall h,
           includes (js "internal/private") (msg_resolves_internal h) = true)
  /\ (msg_localhost <> msg_metadata /\ msg_localhost <> msg_private
      /\ msg_metadata <> msg_private
      /\ forall h, msg_resolves_internal h <> msg_localhost
                   /\ msg_resolves_internal h <> msg_metadata
                   /\ msg_resolves_internal h <> msg_private).
Proof.
  assert (Hscanned :
    forall e, preParseScan url = throw e ->
              result (validateImageUrl P url) = Throw e).
  { intros e He. now rewrite (scan_rejection_is_final P _ _ He). }
  assert (Hlater :
    preParseScan url = ret tt ->
    (parseURL P url = None
     /\ result (validateImageUrl P url) = Throw (Own (msg_invalid_url url)))
    \/ (exists u, parseURL P url = Some u /\ protocol u <> js "https:"
          /\ result (validateImageUrl P url) = Throw (Own msg_https))
    \/ (exists u, parseURL P url = Some u /\ protocol u = js "https:")).
  { intros Hs. destruct (parseURL P url) as [u|] eqn:Hp.
    - right. destruct (str_eqb (protocol u) (js "https:")) eqn:Hproto.
      + right. exists u. split; [reflexivity|]. now apply str_eqb_eq.
      + left. exists u. apply str_eqb_neq in Hproto.
        split; [reflexivity|]. split; [exact Hproto|].
        now rewrite (scheme_after_parse P _ _ Hs Hp Hproto).
    - left. split; [reflexivity|].
      now rewrite (unparseable_after_scan P _ Hs Hp). }
  pose proof (preParseScan_run url) as Hscan.
  split; [|split; [|split; [|split; [|split]]]].
  - (* the localhost wording *)
    destruct (ipv6MappedMatch url) as [q|].
    + destruct (startsWith (js "127.") q) eqn:Hq.
      { rewrite (Hscanned _ Hscan). split; [|reflexivity].
        intros _. now exists q. }
      split.
      2:{ intros [q' [Hq' Hstarts]]. injection Hq' as <-. congruence. }
      destruct (existsb _ privatePatterns).
      { rewrite (Hscanned _ Hscan). discriminate. }
      destruct (Hlater Hscan) as [[_ ->]|[[u [_ [_ ->]]]|[u [Hp Hproto]]]];
        try discriminate.
      rewrite (after_the_scheme P _ _ Hscan Hp Hproto).
      repeat match goal with
             | |- context [if ?b then _ else _] => destruct b
             | |- context [match ?x with Success _ => _ | Failure _ => _ end]
               => destruct x
             end; discriminate.
    + split; [|intros [q [Hq _]]; discriminate].
      destruct (Hlater Hscan) as [[_ ->]|[[u [_ [_ ->]]]|[u [Hp Hproto]]]];
        try discriminate.
      rewrite (after_the_scheme P _ _ Hscan Hp Hproto).
      repeat match goal with
             | |- context [if ?b then _ else _] => destruct b
             | |- context [match ?x with Success _ => _ | Failure _ => _ end]
               => destruct x
             end; discriminate.
  - (* the metadata wording *)
    change [js "localhost"; js "metadata.google.internal"; js "metadata"]
      with blockedHostnames.
    split.
    + intros Hres.
      destruct (preParseScan_cases url) as [Hs|[Hs|Hs]];
        try (rewrite (Hscanned _ Hs) in Hres; discriminate).
      split; [exact Hs|].
      destruct (Hlater Hs) as [[_ Hr]|[[u [_ [_ Hr]]]|[u [Hp Hproto]]]];
        try (rewrite Hr in Hres; discriminate).
      exists u. split; [exact Hp|]. split; [exact Hproto|].
      rewrite (after_the_scheme P _ _ Hs Hp Hproto) in Hres.
      destruct (arr_includes blockedHostnames _) eqn:Hb;
        [now apply arr_includes_In|].
      exfalso. revert Hres.
      repeat match goal with
             | |- context [if ?b then _ else _] => destruct b
             | |- context [match ?x with Success _ => _ | Failure _ => _ end]
               => destruct x
             end; discriminate.
    + intros [Hs [u [Hp [Hproto Hin]]]].
      now rewrite (blocked_hostname P _ _ Hs Hp Hproto Hin).
  - (* the private-address wording *)
    split.
    + intros Hres.
      destruct (preParseScan_cases url) as [Hs|[Hs|Hs]].
      * right. split; [exact Hs|].
        destruct (Hlater Hs) as [[_ Hr]|[[u [_ [_ Hr]]]|[u [Hp Hproto]]]];
          try (rewrite Hr in Hres; discriminate).
        exists u. split; [exact Hp|]. split; [exact Hproto|].
        rewrite (after_the_scheme P _ _ Hs Hp Hproto) in Hres.
        destruct (arr_includes blockedHostnames _) eqn:Hb;
          [discriminate|].
        split.
        { intros Hin. apply arr_includes_In in Hin. congruence. }
        destruct (isIPv4 P _ || isIPv6 P _)%bool.
        { split; [reflexivity|].
          destruct (isBlockedIP _); [reflexivity|discriminate]. }
        exfalso. revert Hres.
        repeat match goal with
               | |- context [if ?b then _ else _] => destruct b
               | |- context [match ?x with Success _ => _ | Failure _ => _ end]
                 => destruct x
               end; discriminate.
      * rewrite (Hscanned _ Hs) in Hres. discriminate.
      * left. rewrite Hscan in Hs.
        destruct (ipv6MappedMatch url) as [q|]; [|discriminate].
        exists q. split; [reflexivity|].
        destruct (startsWith (js "127.") q); [discriminate|].
        split; [reflexivity|].
        destruct (existsb _ privatePatterns); [reflexivity|discriminate].
    + intros [[q [Hq [H127 Hprivate]]]|[Hs [u [Hp [Hproto [Hnb [Hip Hb]]]]]]].
      * apply Hscanned. now apply (scan_private url q).
      * rewrite (literal_branch P _ _ Hs Hp Hproto Hnb Hip). now rewrite Hb.
  - (* the wording for a domain *)
    intros h. split.
    + intros Hres.
      destruct (preParseScan_cases url) as [Hs|[Hs|Hs]];
        try (rewrite (Hscanned _ Hs) in Hres; discriminate).
      split; [exact Hs|].
      destruct (Hlater Hs) as [[_ Hr]|[[u [_ [_ Hr]]]|[u [Hp Hproto]]]];
        try (rewrite Hr in Hres; discriminate).
      exists u. split; [exact Hp|]. split; [exact Hproto|].
      rewrite (after_the_scheme P _ _ Hs Hp Hproto) in Hres.
      destruct (arr_includes blockedHostnames _) eqn:Hb; [discriminate|].
      destruct (isIPv4 P _ || isIPv6 P _)%bool eqn:Hip.
      { destruct (isBlockedIP _); discriminate. }
      apply orb_false_iff in Hip as [H4 H6].
      destruct (lookup P (lowerHostname P u)) as [a|e] eqn:Hl.
      * destruct (isBlockedIP a) eqn:Ha; [|discriminate].
        assert (Hmsg : msg_resolves_internal (lowerHostname P u)
                       = msg_resolves_internal h) by congruence.
        apply msg_resolves_internal_inj in Hmsg. subst h.
        repeat split; try assumption.
        { intros Hin. apply arr_includes_In in Hin. congruence. }
        now exists a.
      * exfalso. destruct (code_is _ _).
        { assert (Hmsg : msg_unresolved (lowerHostname P u)
                         = msg_resolves_internal h) by congruence.
          now apply unresolved_is_not_internal in Hmsg. }
        destruct (marked_internal _); discriminate.
    + intros [Hs [u [Hp [Hproto [<- [Hnb [H4 [H6 [a [Hl Ha]]]]]]]]]].
      rewrite (after_the_scheme P _ _ Hs Hp Hproto).
      rewrite (not_blocked_hostname _ Hnb), H4, H6, Hl, Ha. reflexivity.
  - repeat split; try reflexivity. apply includes_internal_private.
  - repeat split; try discriminate;
      unfold msg_resolves_internal; intros H; cbn in H; discriminate H.
Qed.

(** The amended statement at the URLs of the test suite: the mapped
    loopback literal, and the metadata host name. *)
Lemma rejection_wording_by_category_witness :
  result (validateImageUrl Node.platform
            (js "https://[::ffff:127.0.0.1]/image.jpg"))
  = Throw (Own (js "Access to localhost is not allowed"))
  /\ result (validateImageUrl Node.platform
               (js "https://metadata.google.internal/computeMetadata"))
     = Throw (Own (js "Access to cloud metadata endpoints is not allowed")).
Proof.
  split.
  - apply (proj1 (rejection_wording_by_category Node.platform
                    (js "https://[::ffff:127.0.0.1]/image.jpg"))).
    exists (js "127.0.0.1"). split; reflexivity.
  - destruct (rejection_wording_by_category Node.platform
                (js "https://metadata.google.internal/computeMetadata"))
      as [_ [Hmetadata _]].
    apply Hmetadata. split; [reflexivity|].
    exists (Node.https "metadata.google.internal").
    split; [reflexivity|]. split; [reflexivity|].
    vm_compute. tauto.
Defined.

(** *** What the scan and the classifier miss *)

Lemma lowerHostname_mapped (P : Platform) :
  stripBrackets (lowerHostname P (Node.https "[::ffff:7f00:1]"))
  = js "::ffff:7f00:1".
Proof. reflexivity. Qed.

Lemma lowerHostname_unique_local (P : Platform) :
  stripBrackets (lowerHostname P (Node.https "[fd12:3456:789a::1]"))
  = js "fd12:3456:789a::1".
Proof. reflexivity. Qed.

(** C1, at the failing input: the string contains the blocked mapped
    literal [[::ffff:127.0.0.1]], but the scan reports the leftmost
    literal only, 8.8.8.8, and lets the string through; such a string
    then fails as 'Invalid URL' when it does not parse, and is accepted
    when it parses to the https URL whose host is the mapped loopback
    address.  What does hold is the claim for the leftmost literal: when
    that one starts with 127. or lies in a private range the validation
    fails with the IP error whatever the parser and the scheme are, and
    only a string that passed the scan is parsed, and only a parsed URL
    has its scheme checked. *)
Theorem scan_checks_leftmost_literal_only :
  includes (js "[::ffff:127.0.0.1]") Node.decoyUrl = true
  /\ ipv6MappedMatch Node.decoyUrl = Some (js "8.8.8.8")
  /\ preParseScan Node.decoyUrl = ret tt
  /\ (forall P : Platform,
         parseURL P Node.decoyUrl = None ->
         validateImageUrl P Node.decoyUrl
         = throw (Own (msg_invalid_url Node.decoyUrl)))
  /\ (forall P : Platform,
         parseURL P Node.decoyUrl = Some (Node.https "[::ffff:7f00:1]") ->
         isIPv6 P (js "::ffff:7f00:1") = true ->
         validateImageUrl P Node.decoyUrl = ret Node.decoyUrl)
  /\ validateImageUrl Node.platform Node.decoyUrl = ret Node.decoyUrl
  /\ (forall (P : Platform) (url q : jsstring),
         ipv6MappedMatch url = Some q ->
         (startsWith (js "127.") q = true ->
          validateImageUrl P url = throw (Own msg_localhost))
         /\ (startsWith (js "127.") q = false ->
             existsb (fun pattern => pattern q) privatePatterns = true ->
             validateImageUrl P url = throw (Own msg_private)))
  /\ (forall (P : Platform) (url : jsstring),
         preParseScan url = ret tt ->
         (parseURL P url = None ->
          validateImageUrl P url = throw (Own (msg_invalid_url url)))
         /\ (forall u, parseURL P url = Some u ->
                       protocol u <> js "https:" ->
             validateImageUrl P url = throw (Own msg_https))).
Proof.
  assert (Hscan : preParseScan Node.decoyUrl = ret tt) by reflexivity.
  split; [reflexivity|]. split; [reflexivity|]. split; [exact Hscan|].
  split; [intros P Hp; now apply unparseable_after_scan|].
  split.
  { intros P Hp H6.
    rewrite (literal_branch P _ _ Hscan Hp eq_refl).
    - now rewrite lowerHostname_mapped.
    - rewrite lowerHostname_mapped. vm_compute. intuition discriminate.
    - rewrite lowerHostname_mapped, H6. apply orb_true_r. }
  split; [reflexivity|].
  split.
  { intros P url q Hm. split.
    - intros Hq. apply scan_rejection_is_final.
      now apply (scan_localhost url q).
    - intros Hq Hp. apply scan_rejection_is_final.
      now apply (scan_private url q). }
  intros P url Hs. split.
  - now apply unparseable_after_scan.
  - intros u Hp Hproto. now apply (scheme_after_parse P url u).
Qed.

(** C2, at the failing input: fd12:3456:789a::1 lies in fc00::/7 (and in
    fd00::/8) and febf::1 in fe80::/10, yet the classifier answers
    [false] for both, with or without brackets, and the https URL with
    the first as its host is accepted.  The rest of the claim holds: the
    six exact-match hosts are blocked, brackets are stripped first, the
    canonical text of an IPv4 address is blocked exactly when it lies in
    one of the IPv4 ranges, and 8.8.8.8 is not blocked. *)
Theorem classifier_misses_ipv6_ranges :
  inUniqueLocal (js "fd12:3456:789a::1") = true
  /\ isBlockedIP (js "fd12:3456:789a::1") = false
  /\ isBlockedIP (js "[fd12:3456:789a::1]") = false
  /\ inLinkLocal (js "febf::1") = true
  /\ isBlockedIP (js "febf::1") = false
  /\ (forall P : Platform,
         parseURL P Node.uniqueLocalUrl
         = Some (Node.https "[fd12:3456:789a::1]") ->
         isIPv6 P (js "fd12:3456:789a::1") = true ->
         validateImageUrl P Node.uniqueLocalUrl = ret Node.uniqueLocalUrl)
  /\ validateImageUrl Node.platform Node.uniqueLocalUrl
     = ret Node.uniqueLocalUrl
  /\ forallb isBlockedIP
       [js "localhost"; js "127.0.0.1"; js "::1"; js "[::1]";
        js "169.254.169.254"; js "metadata.google.internal"; js "metadata";
        js "fe80::1"; js "fc00::1"; js "[fd00::1]"] = true
  /\ isBlockedIP (js "8.8.8.8") = false
  /\ (forall a b c d : N,
         (a < 256)%N -> (b < 256)%N -> (c < 256)%N -> (d < 256)%N ->
         isBlockedIP (dotted a b c d) = inBlockedIPv4Range a b).
Proof.
  assert (Hscan : preParseScan Node.uniqueLocalUrl = ret tt) by reflexivity.
  do 5 (split; [reflexivity|]).
  split.
  { intros P Hp H6.
    rewrite (literal_branch P _ _ Hscan Hp eq_refl).
    - now rewrite lowerHostname_unique_local.
    - rewrite lowerHostname_unique_local. vm_compute. intuition discriminate.
    - rewrite lowerHostname_unique_local, H6. apply orb_true_r. }
  do 3 (split; [reflexivity|]).
  apply ClassifierSpec.isBlockedIP_ipv4_ranges.
Qed.

End UrlSpec.

(* ------------------------------------------------------------------ *)
(** ** [loadImageAsBuffer] and [downloadImageAsBuffer] *)
(* ------------------------------------------------------------------ *)

Module AcquireSpec.

Import Utils Spec FileSpec UrlStages.

(** The validation reads the file once, whatever it finds. *)
Lemma validateImagePath_trace (P : Platform) (path : jsstring) :
  trace (validateImagePath P path) = [ReadFile path].
Proof.
  destruct (readFile P path) as [buf|e] eqn:Hread.
  - now rewrite (validateImagePath_read _ _ _ Hread).
  - now rewrite (validateImagePath_unreadable _ _ _ Hread).
Qed.

(** After a validation that passed: the second read and the size check. *)
Lemma loadImageAsBuffer_valid (P : Platform) (path : jsstring) :
  result (validateImagePath P path) = Return path ->
  loadImageAsBuffer P path =
  ([ReadFile path; ReadFile path],
   match readFile (afterRead P) path with
   | Success buf =>
       if Z.ltb maxBytes (Z.of_nat (length buf))
       then Throw (Own msg_too_large) else Return buf
   | Failure e => Throw (Foreign e)
   end).
Proof.
  intros Hvalid. pose proof (validateImagePath_trace P path) as Htrace.
  unfold loadImageAsBuffer, bind, fsReadFile, trace, result in *.
  destruct (validateImagePath P path) as [t r]. cbn [fst snd] in *.
  subst t r.
  destruct (readFile (afterRead P) path) as [buf|e]; cbn [settle];
    [|reflexivity].
  destruct (Z.ltb maxBytes (Z.of_nat (length buf))); reflexivity.
Qed.

(** After a validation that failed: nothing more is read. *)
Lemma loadImageAsBuffer_invalid (P : Platform) (path : jsstring) (e : error) :
  result (validateImagePath P path) = Throw e ->
  loadImageAsBuffer P path = ([ReadFile path], Throw e).
Proof.
  intros Hinvalid. pose proof (validateImagePath_trace P path) as Htrace.
  unfold loadImageAsBuffer, bind, trace, result in *.
  destruct (validateImagePath P path) as [t r]. cbn [fst snd] in *.
  now subst t r.
Qed.

(** The validation settles, and never with the size error. *)
Lemma validateImagePath_outcomes (P : Platform) (path : jsstring) :
  result (validateImagePath P path) = Return path
  \/ exists e, result (validateImagePath P path) = Throw e
               /\ e <> Own msg_too_large.
Proof.
  destruct (readFile P path) as [buf|e] eqn:Hread.
  - rewrite (validateImagePath_read _ _ _ Hread). cbn [result snd].
    destruct (Nat.eqb _ _).
    { right. eexists. split; [reflexivity|].
      unfold msg_empty. intros H. injection H as H'. cbn in H'. discriminate. }
    destruct (negb _ && _ && _ && _)%bool; [|now left].
    right. eexists. split; [reflexivity|].
    unfold msg_not_image. intros H. injection H as H'. cbn in H'. discriminate.
  - rewrite (validateImagePath_unreadable _ _ _ Hread). cbn [result snd].
    right. destruct (code_is _ _).
    { eexists. split; [reflexivity|].
      unfold msg_not_found. intros H. injection H as H'. cbn in H'.
      discriminate. }
    destruct (code_is _ _); eexists; (split; [reflexivity|]).
    + unfold msg_permission. intros H. injection H as H'. cbn in H'.
      discriminate.
    + discriminate.
Qed.


(** What is returned is the second read, and it is not over the limit. *)
Lemma loadImageAsBuffer_returns_iff (P : Platform) (path : jsstring)
  (buf : buffer) :
  result (loadImageAsBuffer P path) = Return buf
  <-> result (validateImagePath P path) = Return path
      /\ readFile (afterRead P) path = Success buf
      /\ (Z.of_nat (length buf) <= 50 * 1024 * 1024)%Z.
Proof.
  destruct (validateImagePath_outcomes P path) as [Hok|[e [He _]]].
  - rewrite (loadImageAsBuffer_valid _ _ Hok). cbn [result snd].
    unfold maxBytes.
    destruct (readFile (afterRead P) path) as [b|e].
    + destruct (Z.ltb_spec (50 * 1024 * 1024) (Z.of_nat (length b))).
      * split; [discriminate|]. intros [_ [Hread Hsmall]].
        injection Hread as <-. lia.
      * split.
        { intros Hr. injection Hr as <-. now repeat split. }
        intros [_ [Hread _]]. now injection Hread as <-.
    + split; [discriminate|]. intros [_ [Hread _]]. discriminate.
  - rewrite (loadImageAsBuffer_invalid _ _ _ He). cbn [result snd].
    split; [discriminate|]. intros [Hok _]. rewrite He in Hok. discriminate.
Qed.






End AcquireSpec.

(* ------------------------------------------------------------------ *)
(** ** [generateFilename] *)
(* ------------------------------------------------------------------ *)

Module FilenameSpec.

Import Utils Spec.

(** *** The slug *)

Lemma collapseRuns_cons (c : codeunit) (rest : jsstring) :
  collapseRuns (c :: rest)
  = if isWhiteSpace c
    then match rest with
         | c' :: _ => if isWhiteSpace c' then collapseRuns rest
                      else ch "-" :: collapseRuns rest
         | [] => [ch "-"]
         end
    else c :: collapseRuns rest.
Proof. reflexivity. Qed.

Lemma collapseRuns_white (c : codeunit) (rest : jsstring) :
  isWhiteSpace c = true ->
  collapseRuns (c :: rest)
  = ch "-" :: collapseRuns (dropWhile isWhiteSpace rest).
Proof.
  revert c. induction rest as [|c' rest IH]; intros c Hc;
    rewrite collapseRuns_cons, Hc; [reflexivity|].
  cbn [dropWhile]. destruct (isWhiteSpace c') eqn:Hc'.
  - now apply IH.
  - reflexivity.
Qed.

Lemma hyphenate_from_spec (s : jsstring) :
  hyphenate_from false s = collapseRuns s
  /\ hyphenate_from true s = collapseRuns (dropWhile isWhiteSpace s).
Proof.
  induction s as [|c s [IHf IHt]]; [now split|].
  cbn [hyphenate_from dropWhile].
  destruct (isWhiteSpace c) eqn:Hc; cbn [app].
  - rewrite IHt. split; [|reflexivity].
    symmetry. now apply collapseRuns_white.
  - rewrite IHf, collapseRuns_cons, Hc. now split.
Qed.

Lemma hyphenate_collapseRuns (s : jsstring) : hyphenate s = collapseRuns s.
Proof. apply hyphenate_from_spec. Qed.

Lemma sanitizePrompt_slug (P : Platform) (prompt : jsstring) (n : Z) :
  sanitizePrompt P prompt n = slug P prompt n.
Proof.
  unfold sanitizePrompt, slug, substring0, removeAll.
  rewrite hyphenate_collapseRuns. do 3 f_equal.
  apply filter_ext. intros c. unfold isLowerAlnum, inSlugClass.
  now rewrite negb_involutive.
Qed.

Lemma sanitizeExtension_safe (P : Platform) (extension : jsstring) :
  sanitizeExtension P extension = safeExtension P extension.
Proof.
  unfold sanitizeExtension, safeExtension, alnumOnly, substring0, removeAll.
  change (Z.to_nat 10) with 10.
  assert (E : forall l : jsstring,
             filter (fun c => negb (negb (isLowerAlnum c))) l
             = filter (fun c => (isLower c || isDigit c)%bool) l).
  { intros l. apply filter_ext. intros c. apply negb_involutive. }
  rewrite E. unfold isDot.
  destruct (firstn 10 _); reflexivity.
Qed.

Lemma Forall_dropWhile (Q : codeunit -> Prop) (f : codeunit -> bool)
  (s : jsstring) : Forall Q s -> Forall Q (dropWhile f s).
Proof.
  induction 1 as [|c s Hc Hs IH]; cbn [dropWhile]; [constructor|].
  destruct (f c); [exact IH | now constructor].
Qed.

Lemma Forall_trim (Q : codeunit -> Prop) (s : jsstring) :
  Forall Q s -> Forall Q (trim s).
Proof.
  intros H. unfold trim, dropWhileEnd.
  apply Forall_rev, Forall_dropWhile, Forall_rev, Forall_dropWhile, H.
Qed.

Lemma Forall_firstn_keep (Q : codeunit -> Prop) (n : nat) (s : jsstring) :
  Forall Q s -> Forall Q (firstn n s).
Proof.
  intros H. revert n. induction H as [|c s Hc Hs IH]; intros [|n];
    cbn [firstn]; constructor; auto.
Qed.

Lemma Forall_filter_class (f : codeunit -> bool) (s : jsstring) :
  Forall (fun c => f c = true) (filter f s).
Proof.
  apply Forall_forall. intros c Hin. now apply filter_In in Hin.
Qed.

Lemma collapseRuns_slugChars (s : jsstring) :
  Forall (fun c => inSlugClass c = true) s -> Forall slugChar (collapseRuns s).
Proof.
  induction 1 as [|c s Hc Hs IH]; [constructor|].
  rewrite collapseRuns_cons. destruct (isWhiteSpace c) eqn:Hw.
  - destruct s as [|c' s']; [repeat constructor; right; now right|].
    destruct (isWhiteSpace c'); [exact IH|].
    constructor; [right; now right | exact IH].
  - constructor; [|exact IH].
    unfold inSlugClass in Hc. rewrite Hw, orb_false_r in Hc.
    apply orb_true_iff in Hc. unfold slugChar. tauto.
Qed.

Lemma slug_chars (P : Platform) (text : jsstring) (n : Z) :
  Forall slugChar (slug P text n) /\ length (slug P text n) <= Z.to_nat n.
Proof.
  unfold slug. split.
  - apply Forall_firstn_keep, collapseRuns_slugChars, Forall_trim,
      Forall_filter_class.
  - rewrite length_firstn. apply Nat.le_min_l.
Qed.

Lemma safeExtension_chars (P : Platform) (extension : jsstring) :
  Forall alnumChar (safeExtension P extension)
  /\ 1 <= length (safeExtension P extension) <= 10.
Proof.
  assert (Hall : Forall alnumChar (alnumOnly P extension)).
  { unfold alnumOnly. apply Forall_firstn_keep.
    eapply Forall_impl; [|apply Forall_filter_class].
    intros c Hc. apply orb_true_iff in Hc. exact Hc. }
  assert (Hlen : length (alnumOnly P extension) <= 10).
  { unfold alnumOnly. rewrite length_firstn. apply Nat.le_min_l. }
  unfold safeExtension.
  destruct (Nat.eqb_spec (length (alnumOnly P extension)) 0) as [E|E].
  - split; [|cbn; lia]. repeat constructor; left; reflexivity.
  - split; [exact Hall | lia].
Qed.

(** *** The timestamp *)

Lemma digit_isDigit (n : N) : isDigit (digit n) = true.
Proof.
  unfold isDigit, digit.
  assert (H : (n mod 10 < 10)%N) by (apply N.mod_upper_bound; discriminate).
  revert H. generalize (n mod 10)%N. intros m H.
  apply andb_true_iff. split; apply N.leb_le; lia.
Qed.

Lemma pad_rev_digits (w : nat) (n : N) : digits (pad_rev w n).
Proof.
  revert n. induction w as [|w IH]; intros n; cbn [pad_rev]; constructor.
  - apply digit_isDigit.
  - apply IH.
Qed.

Lemma pad_digits (w : nat) (n : N) : digits (pad w n).
Proof. apply Forall_rev, pad_rev_digits. Qed.

Lemma pad_length (w : nat) (n : N) : length (pad w n) = w.
Proof.
  unfold pad. rewrite length_rev. revert n.
  induction w as [|w IH]; intros n; cbn [pad_rev length]; [reflexivity|].
  now rewrite IH.
Qed.

Lemma removeAll_digits (ds : jsstring) :
  digits ds -> removeAll isDashOrColon ds = ds.
Proof.
  unfold removeAll. induction 1 as [|c ds Hc Hds IH]; [reflexivity|].
  cbn [filter]. rewrite IH.
  replace (isDashOrColon c) with false; [reflexivity|].
  unfold isDigit in Hc. apply andb_true_iff in Hc as [Hlo Hhi].
  apply N.leb_le in Hlo. apply N.leb_le in Hhi.
  unfold isDashOrColon.
  change (ch "-") with 45%N. change (ch ":") with 58%N.
  symmetry. apply orb_false_iff. split; apply N.eqb_neq; lia.
Qed.

Lemma replaceFirst_skip (a b : codeunit) (ds r : jsstring) :
  digits ds -> isDigit a = false ->
  replaceFirst a b (ds ++ r) = ds ++ replaceFirst a b r.
Proof.
  intros Hds Ha. induction Hds as [|c ds Hc Hds IH]; [reflexivity|].
  cbn [app replaceFirst]. rewrite IH.
  destruct (N.eqb_spec c a) as [->|_]; [congruence | reflexivity].
Qed.

Lemma before_first_skip (sep : codeunit) (ds r : jsstring) :
  digits ds -> isDigit sep = false ->
  before_first sep (ds ++ r) = ds ++ before_first sep r.
Proof.
  intros Hds Ha. induction Hds as [|c ds Hc Hds IH]; [reflexivity|].
  cbn [app before_first]. rewrite IH.
  destruct (N.eqb_spec c sep) as [->|_]; [congruence | reflexivity].
Qed.

(** What the three string operations of lines 407-410 leave of an ISO
    time whose year has no sign. *)
Lemma stamp_of_groups (Y M D h m sec ms : jsstring) :
  digits Y -> digits M -> digits D -> digits h -> digits m -> digits sec ->
  before_first (ch ".")
    (replaceFirst (ch "T") (ch "_")
       (removeAll isDashOrColon
          (Y ++ js "-" ++ M ++ js "-" ++ D ++ js "T" ++ h ++ js ":" ++ m
           ++ js ":" ++ sec ++ js "." ++ ms ++ js "Z")))
  = Y ++ M ++ D ++ js "_" ++ h ++ m ++ sec.
Proof.
  intros HY HM HD Hh Hm Hs.
  assert (E : forall l r, digits l ->
            removeAll isDashOrColon (l ++ r) = l ++ removeAll isDashOrColon r).
  { intros l r Hl. unfold removeAll. rewrite filter_app.
    f_equal. now apply removeAll_digits. }
  rewrite (E Y) by assumption.
  change (js "-" ++ M ++ js "-" ++ D ++ js "T" ++ h ++ js ":" ++ m
          ++ js ":" ++ sec ++ js "." ++ ms ++ js "Z")
    with (ch "-" :: M ++ ch "-" :: D ++ ch "T" :: h ++ ch ":" :: m
          ++ ch ":" :: sec ++ ch "." :: ms ++ js "Z").
  change (removeAll isDashOrColon (ch "-" :: ?x))
    with (removeAll isDashOrColon x).
  rewrite (E M) by assumption.
  change (removeAll isDashOrColon (ch "-" :: ?x))
    with (removeAll isDashOrColon x).
  rewrite (E D) by assumption.
  change (removeAll isDashOrColon (ch "T" :: ?x))
    with (ch "T" :: removeAll isDashOrColon x).
  rewrite !(replaceFirst_skip (ch "T")) by (assumption || reflexivity).
  change (replaceFirst (ch "T") (ch "_") (ch "T" :: ?x)) with (ch "_" :: x).
  rewrite !(before_first_skip (ch ".")) by (assumption || reflexivity).
  change (before_first (ch ".") (ch "_" :: ?x))
    with (ch "_" :: before_first (ch ".") x).
  rewrite (E h) by assumption.
  change (removeAll isDashOrColon (ch ":" :: ?x))
    with (removeAll isDashOrColon x).
  rewrite (E m) by assumption.
  change (removeAll isDashOrColon (ch ":" :: ?x))
    with (removeAll isDashOrColon x).
  rewrite (E sec) by assumption.
  change (removeAll isDashOrColon (ch "." :: ?x))
    with (ch "." :: removeAll isDashOrColon x).
  rewrite !(before_first_skip (ch ".")) by (assumption || reflexivity).
  change (before_first (ch ".") (ch "." :: ?x)) with (@nil codeunit).
  now rewrite app_nil_r.
Qed.

Lemma timestampOf_plain_year (d : Date) :
  (0 <= year d <= 9999)%Z ->
  timestampOf d
  = (pad 4 (Z.to_N (year d)) ++ pad 2 (month d) ++ pad 2 (day d))
    ++ js "_" ++ (pad 2 (hours d) ++ pad 2 (minutes d) ++ pad 2 (seconds d)).
Proof.
  intros Hy. unfold timestampOf, toISOString, isoYear.
  replace (Z.leb 0 (year d) && Z.leb (year d) 9999)%bool with true
    by (symmetry; apply andb_true_iff; split; apply Z.leb_le; lia).
  rewrite stamp_of_groups by apply pad_digits.
  now rewrite <- !app_assoc.
Qed.

(** *** No path separator *)

Lemma digit_noSeparator (c : codeunit) : isDigit c = true -> noSeparator c.
Proof.
  unfold isDigit, noSeparator. change (ch "/") with 47%N.
  change (ch "\") with 92%N. intros H.
  apply andb_true_iff in H as [Hlo Hhi].
  apply N.leb_le in Hlo. apply N.leb_le in Hhi. lia.
Qed.

Lemma lower_noSeparator (c : codeunit) : isLower c = true -> noSeparator c.
Proof.
  unfold isLower, noSeparator. change (ch "/") with 47%N.
  change (ch "\") with 92%N. intros H.
  apply andb_true_iff in H as [Hlo Hhi].
  apply N.leb_le in Hlo. apply N.leb_le in Hhi. lia.
Qed.

Lemma slugChar_noSeparator (c : codeunit) : slugChar c -> noSeparator c.
Proof.
  intros [H|[H| ->]].
  - now apply lower_noSeparator.
  - now apply digit_noSeparator.
  - split; discriminate.
Qed.

Lemma alnumChar_noSeparator (c : codeunit) : alnumChar c -> noSeparator c.
Proof.
  intros [H|H]; [now apply lower_noSeparator | now apply digit_noSeparator].
Qed.

Lemma Forall_replaceFirst (Q : codeunit -> Prop) (a b : codeunit)
  (s : jsstring) : Q b -> Forall Q s -> Forall Q (replaceFirst a b s).
Proof.
  intros Hb. induction 1 as [|c s Hc Hs IH]; cbn [replaceFirst];
    [constructor|].
  destruct (N.eqb c a); now constructor.
Qed.

Lemma Forall_before_first (Q : codeunit -> Prop) (sep : codeunit)
  (s : jsstring) : Forall Q s -> Forall Q (before_first sep s).
Proof.
  induction 1 as [|c s Hc Hs IH]; cbn [before_first]; [constructor|].
  destruct (N.eqb c sep); now constructor.
Qed.

Lemma Forall_removeAll (Q : codeunit -> Prop) (cls : codeunit -> bool)
  (s : jsstring) : Forall Q s -> Forall Q (removeAll cls s).
Proof.
  unfold removeAll. induction 1 as [|c s Hc Hs IH]; cbn [filter];
    [constructor|].
  destruct (negb (cls c)); [now constructor | exact IH].
Qed.

Lemma pad_noSeparator (w : nat) (n : N) : Forall noSeparator (pad w n).
Proof.
  eapply Forall_impl; [apply digit_noSeparator | apply pad_digits].
Qed.

Lemma literal_noSeparator (s : jsstring) :
  forallb (fun c => negb (N.eqb c 47) && negb (N.eqb c 92))%bool s = true ->
  Forall noSeparator s.
Proof.
  intros H. apply Forall_forall. intros c Hin.
  rewrite forallb_forall in H. specialize (H c Hin).
  apply andb_true_iff in H as [H1 H2].
  apply negb_true_iff in H1, H2. apply N.eqb_neq in H1, H2.
  split; assumption.
Qed.

Ltac split_apps :=
  repeat match goal with
         | |- Forall _ (_ ++ _) => apply Forall_app; split
         end.

(** Whatever the clock reads, also a year written with a sign. *)
Lemma timestampOf_noSeparator (d : Date) : Forall noSeparator (timestampOf d).
Proof.
  unfold timestampOf.
  apply Forall_before_first, Forall_replaceFirst; [split; discriminate|].
  apply Forall_removeAll. unfold toISOString.
  assert (Hy : Forall noSeparator (isoYear (year d))).
  { unfold isoYear. destruct (_ && _)%bool; [apply pad_noSeparator|].
    apply Forall_app. split; [|apply pad_noSeparator].
    destruct (Z.ltb _ _); now apply literal_noSeparator. }
  split_apps;
    try apply pad_noSeparator; try assumption;
    now apply literal_noSeparator.
Qed.

Lemma generateFilename_shape (P : Platform) (prompt : jsstring)
  (extension : option jsstring) (maxLength : option Z) :
  generateFilename P prompt extension maxLength
  = timestampOf (now P) ++ js "_"
    ++ slug P prompt (match maxLength with Some n => n | None => 50%Z end)
    ++ js "."
    ++ safeExtension P
         (match extension with Some e => e | None => js "png" end).
Proof.
  unfold generateFilename.
  now rewrite sanitizePrompt_slug, sanitizeExtension_safe.
Qed.

Lemma generateFilename_noSeparator (P : Platform) (prompt : jsstring)
  (extension : option jsstring) (maxLength : option Z) :
  Forall noSeparator (generateFilename P prompt extension maxLength).
Proof.
  rewrite generateFilename_shape.
  split_apps.
  - apply timestampOf_noSeparator.
  - now apply literal_noSeparator.
  - eapply Forall_impl; [apply slugChar_noSeparator | apply slug_chars].
  - now apply literal_noSeparator.
  - eapply Forall_impl; [apply alnumChar_noSeparator|].
    apply safeExtension_chars.
Qed.

(** *** The example of the specification *)

Lemma slug_helloWorld (P : Platform) :
  (forall before after, lowerNonAscii P before 10024%N after = [10024%N]) ->
  slug P helloWorldSparkles 50 = js "hello-world".
Proof.
  intros Hsparkles. unfold slug, helloWorldSparkles, toLowerCase.
  cbn [js list_ascii_of_string map app toLowerCase_from].
  rewrite Hsparkles. reflexivity.
Qed.

Lemma stamped_helloWorld (P : Platform) :
  (0 <= year (now P) <= 9999)%Z ->
  (forall before after, lowerNonAscii P before 10024%N after = [10024%N]) ->
  stampedName (generateFilename P helloWorldSparkles None (Some 50%Z))
    (js "_hello-world.png").
Proof.
  intros Hyear Hsparkles.
  rewrite generateFilename_shape, (slug_helloWorld P Hsparkles).
  rewrite (timestampOf_plain_year _ Hyear).
  exists (pad 4 (Z.to_N (year (now P))) ++ pad 2 (month (now P))
          ++ pad 2 (day (now P))),
         (pad 2 (hours (now P)) ++ pad 2 (minutes (now P))
          ++ pad 2 (seconds (now P))).
  split; [now rewrite !length_app, !pad_length|].
  split; [now rewrite !length_app, !pad_length|].
  split; [unfold digits; split_apps; apply pad_digits|].
  split; [unfold digits; split_apps; apply pad_digits|].
  rewrite <- !app_assoc. reflexivity.
Qed.

Lemma stamped_any (P : Platform) (prompt : jsstring)
  (extension : option jsstring) (maxLength : option Z) :
  (0 <= year (now P) <= 9999)%Z ->
  stampedName (generateFilename P prompt extension maxLength)
    (js "_"
     ++ slug P prompt (match maxLength with Some n => n | None => 50%Z end)
     ++ js "."
     ++ safeExtension P
          (match extension with Some e => e | None => js "png" end)).
Proof.
  intros Hyear.
  rewrite generateFilename_shape, (timestampOf_plain_year _ Hyear).
  exists (pad 4 (Z.to_N (year (now P))) ++ pad 2 (month (now P))
          ++ pad 2 (day (now P))),
         (pad 2 (hours (now P)) ++ pad 2 (minutes (now P))
          ++ pad 2 (seconds (now P))).
  split; [now rewrite !length_app, !pad_length|].
  split; [now rewrite !length_app, !pad_length|].
  split; [unfold digits; split_apps; apply pad_digits|].
  split; [unfold digits; split_apps; apply pad_digits|].
  rewrite <- !app_assoc. reflexivity.
Qed.

(** C7, the counterexample: called with the same strings one second
    apart, [generateFilename] returns two different names, so it is not a
    function of its string inputs alone; and when the clock reads the
    year 10000 the name starts with a sign and seven digits, not with
    eight digits. *)
Lemma generateFilename_reads_the_clock :
  generateFilename Node.platform (js "test") None None
  = js "20250119_143022_test.png"
  /\ generateFilename (Node.atTime Node.oneSecondLater) (js "test") None None
     = js "20250119_143023_test.png"
  /\ generateFilename (Node.atTime Node.inYear10000) helloWorldSparkles None
       (Some 50%Z)
     = js "+0100000119_143022_hello-world.png".
Proof. repeat split. Qed.

Lemma generateFilename_depends_on (P P' : Platform) (prompt : jsstring)
  (extension : option jsstring) (maxLength : option Z) :
  now P = now P' -> lowerNonAscii P = lowerNonAscii P' ->
  generateFilename P prompt extension maxLength
  = generateFilename P' prompt extension maxLength.
Proof.
  intros Hnow Hlower.
  unfold generateFilename, sanitizePrompt, sanitizeExtension.
  now rewrite Hnow, Hlower.
Qed.

(** C7, as amended: [generateFilename] is total over string inputs and
    its result is determined by its arguments, the clock reading and the
    Unicode lower-casing.  For every prompt, every extension (or none)
    and every maximum length (or none) it returns the string
    timestamp ++ '_' ++ slug ++ '.' ++ ext, where the timestamp is read
    from the clock; the slug is the prompt lower-cased, stripped of
    everything outside [a-z0-9\s], trimmed, its white-space runs
    collapsed to single hyphens, truncated to the maximum length (50 by
    default), so it consists of [a-z0-9-] and may be empty; the extension
    is lower-cased, stripped of leading dots and of everything outside
    [a-z0-9], truncated to 10 characters, and 'png' when nothing is left
    (or none was given).  The result contains neither '/' nor '\'.  When
    the clock's year has four digits the name matches
    ^\d{8}_\d{6}_slug\.ext$, and for the prompt 'Hello, World! ' followed
    by U+2728 (which has no lower-case mapping), no extension and length
    50, it matches ^\d{8}_\d{6}_hello-world\.png$. *)
Theorem generateFilename_total_and_safe (P : Platform) (prompt : jsstring)
  (extension : option jsstring) (maxLength : option Z) :
  let n := match maxLength with Some n => n | None => 50%Z end in
  let ext := match extension with Some e => e | None => js "png" end in
  generateFilename P prompt extension maxLength
  = timestampOf (now P) ++ js "_" ++ slug P prompt n ++ js "."
    ++ safeExtension P ext
  /\ (Forall slugChar (slug P prompt n)
      /\ length (slug P prompt n) <= Z.to_nat n)
  /\ (Forall alnumChar (safeExtension P ext)
      /\ 1 <= length (safeExtension P ext) <= 10
      /\ (alnumOnly P ext = [] -> safeExtension P ext = js "png"))
  /\ (~ In (ch "/") (generateFilename P prompt extension maxLength)
      /\ ~ In (ch "\") (generateFilename P prompt extension maxLength))
  /\ (forall P' : Platform,
         now P = now P' -> lowerNonAscii P = lowerNonAscii P' ->
         generateFilename P prompt extension maxLength
         = generateFilename P' prompt extension maxLength)
  /\ ((0 <= year (now P) <= 9999)%Z ->
      stampedName (generateFilename P prompt extension maxLength)
        (js "_" ++ slug P prompt n ++ js "." ++ safeExtension P ext))
  /\ ((0 <= year (now P) <= 9999)%Z ->
      (forall before after,
          lowerNonAscii P before 10024%N after = [10024%N]) ->
      stampedName (generateFilename P helloWorldSparkles None (Some 50%Z))
        (js "_hello-world.png")).
Proof.
  intros n ext.
  split; [apply generateFilename_shape|].
  split; [apply slug_chars|].
  split.
  { pose proof (safeExtension_chars P ext) as [Hall Hlen].
    repeat split; try assumption; try apply Hlen.
    intros Hnone. unfold safeExtension. now rewrite Hnone. }
  split.
  { pose proof (generateFilename_noSeparator P prompt extension maxLength)
      as Hsafe.
    rewrite Forall_forall in Hsafe.
    split; intros Hin; apply Hsafe in Hin; destruct Hin as [H1 H2];
      congruence. }
  split; [intros P'; apply generateFilename_depends_on|].
  split; [apply stamped_any|].
  apply stamped_helloWorld.
Qed.

(** The example of the specification on the sample platform, whose clock
    reads 2025-01-19 14:30:22. *)
Lemma generateFilename_total_and_safe_witness :
  stampedName
    (generateFilename Node.platform helloWorldSparkles None (Some 50%Z))
    (js "_hello-world.png").
Proof.
  destruct (generateFilename_total_and_safe Node.platform
              helloWorldSparkles None (Some 50%Z))
    as [_ [_ [_ [_ [_ [_ Hexample]]]]]].
  apply Hexample.
  - cbn. lia.
  - reflexivity.
Defined.

End FilenameSpec.

(* ------------------------------------------------------------------ *)
(** ** The cases of the repository's test suite *)
(* ------------------------------------------------------------------ *)

(** The embedding run on inputs of the repository's own tests, on the
    sample platform; each equation is what the test expects. *)
Module TestSuite.

Import Utils.

Example accepts_public_domain :
  validateImageUrl Node.platform (js "https://example.com/image.jpg")
  = ([DnsLookup (js "example.com")],
     Return (js "https://example.com/image.jpg")).
Proof. reflexivity. Qed.

Example rejects_http :
  validateImageUrl Node.platform (js "http://example.com/image.jpg")
  = throw (Own (js "Only HTTPS URLs are allowed for security reasons")).
Proof. reflexivity. Qed.

Example rejects_private_literal :
  validateImageUrl Node.platform (js "https://10.0.0.1/image.jpg")
  = throw (Own (js "Access to internal/private IP addresses is not allowed")).
Proof. reflexivity. Qed.

Example rejects_mapped_private_literal :
  validateImageUrl Node.platform (js "https://[::ffff:192.168.1.1]/image.jpg")
  = throw (Own (js "Access to internal/private IP addresses is not allowed")).
Proof. reflexivity. Qed.

Example rejects_malformed :
  validateImageUrl Node.platform (js "not-a-url")
  = throw (Own (js "Invalid URL: not-a-url")).
Proof. reflexivity. Qed.

Example rejects_rebinding :
  validateImageUrl Node.platform (js "https://evil.com/image.jpg")
  = ([DnsLookup (js "evil.com")],
     Throw (Own (js "Domain evil.com resolves to internal/private IP address"
                 ))).
Proof. reflexivity. Qed.

Example rejects_unknown_domain :
  validateImageUrl Node.platform
    (js "https://nonexistent.domain.invalid/image.jpg")
  = ([DnsLookup (js "nonexistent.domain.invalid")],
     Throw (Own (js "Domain nonexistent.domain.invalid could not be resolved"
                 ))).
Proof. reflexivity. Qed.

Example rejects_empty_file :
  result (validateImagePath Node.platform (js "empty.jpg"))
  = Throw (Own (js "Image file is empty: empty.jpg")).
Proof. reflexivity. Qed.

Example rejects_missing_file :
  result (validateImagePath Node.platform (js "nonexistent.jpg"))
  = Throw (Own (js "Image file not found: nonexistent.jpg")).
Proof. reflexivity. Qed.

Example loads_png :
  loadImageAsBuffer Node.platform (js "test-image.png")
  = ([ReadFile (js "test-image.png"); ReadFile (js "test-image.png")],
     Return Node.pngHeader).
Proof. reflexivity. Qed.

Example names_test_prompt :
  generateFilename Node.platform (js "test-prompt") None None
  = js "20250119_143022_testprompt.png".
Proof. reflexivity. Qed.

Example names_with_sanitized_extension :
  generateFilename Node.platform (js "  Hello   World  ")
    (Some (js "..JPE///G")) (Some 8%Z)
  = js "20250119_143022_hello-wo.jpeg".
Proof. reflexivity. Qed.

Example redacts_short_key :
  Config.redactApiKey (VString (js "short")) = js "xxx...hort"
  /\ Config.redactApiKey VNull = js "xxx...xxx"
  /\ Config.redactApiKey VUndefined = js "xxx...xxx".
Proof. repeat split. Qed.

End TestSuite.

(* ================================================================== *)
(** ** Facts about parameter values *)
(* ================================================================== *)

Module ParamsFacts.

Import Params.

Lemma js_cons (a : ascii) (s : string) :
  js (String a s) = N_of_ascii a :: js s.
Proof. reflexivity. Qed.

(** Reading back the digits of a decimal numeral. *)
Lemma parseDigits_step (k acc : N) (rest : jsstring) :
  (k < 10)%N ->
  parseDigits 10 acc ((48 + k)%N :: rest) = parseDigits 10 (acc * 10 + k) rest.
Proof.
  intros Hk. cbn [parseDigits]. unfold digitValue, isDigit.
  destruct (N.leb_spec 48 (48 + k)); [|lia].
  destruct (N.leb_spec (48 + k) 57); [|lia].
  cbn [andb]. replace (48 + k - 48)%N with k by lia.
  destruct (N.ltb_spec k 10); [reflexivity|lia].
Qed.

Lemma parseDigits_uint (d : Decimal.uint) (acc : N) :
  parseDigits 10 acc (js (NilEmpty.string_of_uint d))
  = (acc * 10 ^ DecimalPos.Unsigned.usize d
     + DecimalPos.Unsigned.of_lu (Decimal.rev d))%N.
Proof.
  revert acc.
  induction d; intros acc;
    [ cbn; rewrite N.mul_1_r, N.add_0_r; reflexivity | .. ];
    cbn [NilEmpty.string_of_uint];
    match goal with
    | |- parseDigits _ _ (js (String ?a ?s)) = _ =>
        let k := eval vm_compute in (N_of_ascii a - 48)%N in
        change (js (String a s)) with ((48 + k)%N :: js s)
    end;
    rewrite parseDigits_step by lia;
    rewrite IHd;
    match goal with
    | |- context [Decimal.rev (?c d)] =>
        change (Decimal.rev (c d)) with (Decimal.revapp d (c Decimal.Nil));
        rewrite (DecimalPos.Unsigned.of_lu_revapp d (c Decimal.Nil))
    end;
    cbn [DecimalPos.Unsigned.usize DecimalPos.Unsigned.of_lu];
    rewrite N.pow_succ_r'; lia.
Qed.

Lemma uint_digits (d : Decimal.uint) :
  Forall (fun c => isDigit c = true) (js (NilEmpty.string_of_uint d)).
Proof. induction d; cbn; constructor; auto. Qed.

Lemma dec_digits (n : N) : Forall (fun c => isDigit c = true) (dec n).
Proof.
  unfold dec, NilZero.string_of_uint.
  destruct (N.to_uint n); try apply uint_digits.
  cbn. constructor; auto.
Qed.

Lemma dec_nonempty (n : N) : dec n <> [].
Proof.
  unfold dec, NilZero.string_of_uint.
  destruct (N.to_uint n); cbn; discriminate.
Qed.

Lemma parseDigits_dec (n : N) : parseDigits 10 0 (dec n) = n.
Proof.
  unfold dec.
  assert (E : forall d,
             parseDigits 10 0 (js (NilZero.string_of_uint d)) = N.of_uint d).
  { intros d. unfold N.of_uint. rewrite DecimalPos.Unsigned.of_uint_alt.
    destruct d; try (unfold NilZero.string_of_uint;
                     rewrite parseDigits_uint; lia).
    reflexivity. }
  rewrite E. apply DecimalN.Unsigned.of_to.
Qed.

Lemma digit_facts (c : codeunit) :
  isDigit c = true ->
  isWhiteSpace c = false /\ N.eqb c (ch "-") = false
  /\ N.eqb c (ch "+") = false /\ N.eqb c (ch "x") = false
  /\ N.eqb c (ch "X") = false /\ digitValue 10 c = Some (c - 48)%N.
Proof.
  unfold digitValue, isDigit. intros H. rewrite H.
  apply andb_prop in H as [H1 H2].
  apply N.leb_le in H1. apply N.leb_le in H2.
  assert (Hlt : ((c - 48) <? 10)%N = true) by (apply N.ltb_lt; lia).
  rewrite Hlt. unfold isWhiteSpace.
  change (ch "-") with 45%N. change (ch "+") with 43%N.
  change (ch "x") with 120%N. change (ch "X") with 88%N.
  repeat split;
    repeat match goal with
      | |- context [N.eqb c ?k] =>
          replace (N.eqb c k) with false by (symmetry; apply N.eqb_neq; lia)
      | |- context [N.leb ?k c] =>
          destruct (N.leb_spec k c); try lia
      | |- context [N.leb c ?k] =>
          destruct (N.leb_spec c k); try lia
      end; reflexivity.
Qed.

(** [parseInt] on a string of decimal digits, with or without a minus
    sign. *)
Lemma parseIntString_digits (s : jsstring) :
  s <> [] -> Forall (fun c => isDigit c = true) s ->
  parseIntString s = Some (Z.of_N (parseDigits 10 0 s))
  /\ parseIntString (ch "-" :: s) = Some (- Z.of_N (parseDigits 10 0 s))%Z.
Proof.
  intros Hne Hall. destruct s as [|c rest]; [congruence|].
  inversion Hall as [|? ? Hc Hrest]; subst.
  destruct (digit_facts c Hc) as (Hws & Hminus & Hplus & _ & _ & Hval).
  assert (Hradix : forall b r, rest = b :: r ->
            N.eqb c (ch "0") && (N.eqb b (ch "x") || N.eqb b (ch "X"))
            = false).
  { intros b r ->. inversion Hrest as [|? ? Hb _]; subst.
    destruct (digit_facts b Hb) as (_ & _ & _ & Hx & HX & _).
    rewrite Hx, HX. apply andb_false_r. }
  split.
  - unfold parseIntString. cbn [dropWhile]. rewrite Hws, Hminus, Hplus.
    destruct rest as [|b r].
    + now rewrite Hval.
    + rewrite (Hradix b r eq_refl). now rewrite Hval.
  - unfold parseIntString. cbn [dropWhile].
    change (isWhiteSpace (ch "-")) with false. cbn iota.
    rewrite N.eqb_refl.
    destruct rest as [|b r].
    + now rewrite Hval.
    + rewrite (Hradix b r eq_refl). now rewrite Hval.
Qed.

(** [parseInt] reads the decimal digits of an integer back. *)
Lemma parseIntString_decZ (z : Z) : parseIntString (decZ z) = Some z.
Proof.
  unfold decZ.
  destruct (Z.ltb_spec z 0) as [Hneg|Hpos].
  - destruct (parseIntString_digits (dec (Z.to_N (- z)))
                (dec_nonempty _) (dec_digits _)) as [_ H].
    rewrite H, parseDigits_dec. f_equal. lia.
  - destruct (parseIntString_digits (dec (Z.to_N z))
                (dec_nonempty _) (dec_digits _)) as [H _].
    rewrite H, parseDigits_dec. f_equal. lia.
Qed.

(** [parseInt] of a safe integer Number is the number. *)
Lemma parseInt_FInt (utf8 : buffer -> jsstring)
  (numberToString : Z -> jsstring) (z : Z) :
  isSafeInteger z = true -> parseInt utf8 numberToString (FInt z) = Some z.
Proof.
  intros Hsafe. unfold parseInt. cbn [toString]. rewrite Hsafe.
  apply parseIntString_decZ.
Qed.

Lemma field_is_undefined (v : field) : v = FUndefined \/ v <> FUndefined.
Proof. destruct v; auto; right; discriminate. Qed.

End ParamsFacts.

(* ================================================================== *)
(** ** [getIdeogramApiKey] *)
(* ================================================================== *)

Module KeySpec.

Import Params Runtime Operations Terms JSFacts.

Lemma blank_string (k : jsstring) :
  (truthy (FString k) && negb (str_eqb (trim k) [])) = false
  <-> trim k = [].
Proof.
  destruct k as [|c k'].
  - cbn. tauto.
  - cbn [truthy andb]. destruct (str_eqb _ []) eqn:E.
    + apply str_eqb_eq in E. tauto.
    + apply str_eqb_neq in E. cbn. split; [discriminate|tauto].
Qed.

Lemma usable_key (k : jsstring) :
  trim k <> [] ->
  (negb (truthy (FString k)) || str_eqb (trim k) []) = false.
Proof.
  intros Hk. destruct k as [|c k']; [now elim Hk|].
  cbn [truthy negb orb]. now apply str_eqb_neq.
Qed.

Lemma unusable_key (k : jsstring) :
  trim k = [] ->
  (negb (truthy (FString k)) || str_eqb (trim k) []) = true.
Proof.
  intros Hk. rewrite Hk. cbn. apply orb_true_r.
Qed.

(** X1: the key returned is never blank (empty or white space only); the
    command-line key wins whenever it is not blank, whatever the
    environment holds; a blank or absent command-line key falls back to
    IDEOGRAM_API_KEY of the environment; and when both are blank or
    absent the call throws the 'IDEOGRAM_API_KEY not found' message.  The
    key is returned as given, not trimmed. *)
Theorem getIdeogramApiKey_prefers_flag_and_is_never_blank
  (H : Host) (cliApiKey : option jsstring) :
  let envKey := env H (js "IDEOGRAM_API_KEY") in
  (forall k, getIdeogramApiKey H cliApiKey = Return k ->
     trim k <> []
     /\ (cliApiKey = Some k \/ (blank cliApiKey /\ envKey = Some k)))
  /\ (forall k, cliApiKey = Some k -> trim k <> [] ->
        getIdeogramApiKey H cliApiKey = Return k)
  /\ (forall k, blank cliApiKey -> envKey = Some k -> trim k <> [] ->
        getIdeogramApiKey H cliApiKey = Return k)
  /\ (blank cliApiKey -> blank envKey ->
        getIdeogramApiKey H cliApiKey = Throw (Own msg_missing_key)).
Proof.
  intros envKey. unfold getIdeogramApiKey. fold envKey.
  assert (Hfallback :
    forall r, match envKey with
              | None => Throw (Own msg_missing_key)
              | Some k => if negb (truthy (FString k)) || str_eqb (trim k) []
                          then Throw (Own msg_missing_key) else Return k
              end = Return r -> trim r <> [] /\ envKey = Some r).
  { intros r. destruct envKey as [e|]; [|discriminate].
    destruct (str_eqb (trim e) []) eqn:E.
    - rewrite orb_true_r. discriminate.
    - rewrite orb_false_r. destruct (negb _); [discriminate|].
      intros Hr. injection Hr as <-. apply str_eqb_neq in E. now split. }
  assert (Hflag : forall c, trim c <> [] ->
    (truthy (FString c) && negb (str_eqb (trim c) [])) = true).
  { intros c Hc. destruct (truthy (FString c) && _) eqn:E; [reflexivity|].
    apply blank_string in E. contradiction. }
  assert (Hpick : blank cliApiKey ->
            match cliApiKey with
            | Some k0 =>
                if truthy (FString k0) && negb (str_eqb (trim k0) [])
                then Some k0 else envKey
            | None => envKey
            end = envKey).
  { intros Hblank. destruct cliApiKey as [c|]; [|reflexivity].
    cbn in Hblank. apply blank_string in Hblank. now rewrite Hblank. }
  split; [|split; [|split]].
  - intros k Hr. destruct cliApiKey as [c|].
    + destruct (truthy (FString c) && negb (str_eqb (trim c) [])) eqn:E.
      * assert (Hc : trim c <> []).
        { intros Hc. apply blank_string in Hc. congruence. }
        rewrite (usable_key _ Hc) in Hr. injection Hr as <-.
        split; [exact Hc|now left].
      * apply Hfallback in Hr as [Hk Hr]. split; [exact Hk|].
        right. split; [|exact Hr]. cbn. now apply blank_string.
    + apply Hfallback in Hr as [Hk Hr]. split; [exact Hk|].
      right. now split.
  - intros k -> Hk. rewrite (Hflag _ Hk). now rewrite usable_key.
  - intros k Hblank Henv Hk. rewrite (Hpick Hblank), Henv.
    now rewrite usable_key.
  - intros Hblank Henv. rewrite (Hpick Hblank).
    destruct envKey as [e|]; [|reflexivity].
    cbn in Henv. now rewrite unusable_key.
Qed.

End KeySpec.

(* ================================================================== *)
(** ** [validateOperationParams] *)
(* ================================================================== *)

Module ValidationSpec.

Import Params Runtime Operations Terms JSFacts ParamsFacts.

Lemma next_return (a b : outcome unit) :
  next a b = Return tt <-> a = Return tt /\ b = Return tt.
Proof.
  destruct a as [[]|e]; cbn; [tauto|].
  split; [discriminate|]. intros [Ha _]. discriminate.
Qed.

Lemma next_throw (a b : outcome unit) (e : error) :
  next a b = Throw e -> a = Throw e \/ b = Throw e.
Proof. destruct a as [[]|e']; cbn; auto. Qed.

Lemma arrayIncludes_In (l : list jsstring) (v : field) :
  arrayIncludes l v = true <-> exists s, v = FString s /\ In s l.
Proof.
  destruct v; cbn;
    try (split; [discriminate|intros [s0 [Hs _]]; discriminate]).
  rewrite arr_includes_In. split.
  - intros Hin. now exists s.
  - intros [s0 [Hs Hin]]. now injection Hs as ->.
Qed.

Lemma checkPrompt_return (c : OperationConstraint) (params : OperationParams) :
  checkPrompt c params = Return tt
  <-> promptMeets (on_prompt c) (prompt params).
Proof.
  unfold checkPrompt, promptMeets.
  destruct (on_prompt c) as [pc|].
  2:{ split; [intros _ pc Hpc; discriminate|reflexivity]. }
  destruct (prompt_required pc) eqn:Hreq.
  2:{ split; [|reflexivity]. intros _ pc' Hpc' Hreq'.
      injection Hpc' as <-. congruence. }
  destruct (prompt params) as [| | | | |s| | |];
    try (split; [discriminate|];
         intros Hm; destruct (Hm pc eq_refl Hreq) as [s [Hs _]];
         discriminate).
  destruct s as [|ch0 s'].
  - cbn. split; [discriminate|].
    intros Hm. destruct (Hm pc eq_refl Hreq) as [s [Hs [Hne _]]].
    injection Hs as <-. now elim Hne.
  - cbn [truthy negb].
    destruct (Z.ltb_spec (maxLength pc) (Z.of_nat (length (ch0 :: s'))))
      as [Hlong|Hok].
    + split; [discriminate|].
      intros Hm. destruct (Hm pc eq_refl Hreq) as [s [Hs [_ Hlen]]].
      injection Hs as <-. lia.
    + split; [|reflexivity]. intros _ pc' Hpc' _. injection Hpc' as <-.
      exists (ch0 :: s'). repeat split; [discriminate|exact Hok].
Qed.

Lemma checkOption_return (constraint : option OptionsConstraint) (v : field)
  (message : jsstring) :
  checkOption constraint v message = Return tt <-> optionMeets constraint v.
Proof.
  unfold checkOption, optionMeets.
  destruct (truthy v) eqn:Hv.
  2:{ split; [|reflexivity]. intros _ oc _ Habs. discriminate. }
  destruct constraint as [oc|]; cbn [option_map].
  2:{ split; [|reflexivity]. intros _ oc Hoc. discriminate. }
  destruct (arrayIncludes (options oc) v) eqn:Hin; cbn [negb].
  - split; [|reflexivity]. intros _ oc' Hoc' _. injection Hoc' as <-.
    now apply arrayIncludes_In.
  - split; [discriminate|]. intros Hm.
    specialize (Hm oc eq_refl eq_refl).
    apply arrayIncludes_In in Hm. congruence.
Qed.

Lemma checkRange_given (H : Host) (rc : RangeConstraint) (v : field)
  (label : jsstring) :
  v <> FUndefined ->
  checkRange H (Some rc) v label
  = if match parseInt (utf8 H) (numberToString H) v with
       | None => true
       | Some n => Z.ltb n (range_min rc) || Z.ltb (range_max rc) n
       end
    then Throw (Own (label ++ js " must be between " ++ decZ (range_min rc)
                     ++ js " and " ++ decZ (range_max rc)))
    else Return tt.
Proof. intros Hv. destruct v; try reflexivity. now elim Hv. Qed.

Lemma checkRange_return (H : Host) (constraint : option RangeConstraint)
  (v : field) (label : jsstring) :
  checkRange H constraint v label = Return tt <-> rangeMeets H constraint v.
Proof.
  unfold rangeMeets.
  destruct constraint as [rc|].
  2:{ unfold checkRange. destruct (negb (isUndefined v));
        (split; [intros _ rc Hrc; discriminate|reflexivity]). }
  destruct (field_is_undefined v) as [->|Hv].
  { cbn. split; [|reflexivity]. intros _ rc' _ Habs. now elim Habs. }
  rewrite (checkRange_given H rc v label Hv).
  destruct (parseInt (utf8 H) (numberToString H) v) as [n|] eqn:Hn.
  2:{ split; [discriminate|].
      intros Hm. destruct (Hm rc eq_refl Hv) as [n' [Hn' _]].
      discriminate. }
  destruct (Z.ltb_spec n (range_min rc)) as [Hlo|Hlo]; cbn [orb].
  { split; [discriminate|].
    intros Hm. destruct (Hm rc eq_refl Hv) as [n' [Hn' [Hr _]]].
    injection Hn' as <-. lia. }
  destruct (Z.ltb_spec (range_max rc) n) as [Hhi|Hhi].
  { split; [discriminate|].
    intros Hm. destruct (Hm rc eq_refl Hv) as [n' [Hn' [Hr _]]].
    injection Hn' as <-. lia. }
  split; [|reflexivity]. intros _ rc' Hrc' _. injection Hrc' as <-.
  exists n. repeat split; try lia.
  intros z -> Hsafe. rewrite (parseInt_FInt _ _ _ Hsafe) in Hn.
  now injection Hn.
Qed.

(** What the validation accepts for a name it knows. *)
Lemma validate_return (H : Host) (operation : jsstring)
  (c : OperationConstraint) (params : OperationParams) :
  constraintsOf operation = Some c ->
  (validateOperationParams H operation params = Return tt
   <-> meets H c params).
Proof.
  intros Hc. unfold validateOperationParams, meets. rewrite Hc.
  rewrite !next_return, checkPrompt_return, !checkOption_return,
    !checkRange_return.
  tauto.
Qed.

Lemma ownProperty_In {A} (o : list (jsstring * A)) (key : jsstring) :
  ownProperty o key = None <-> ~ In key (map fst o).
Proof.
  induction o as [|[k v] o' IH]; cbn.
  - tauto.
  - destruct (str_eqb key k) eqn:E.
    + apply str_eqb_eq in E. subst. split; [discriminate|].
      intros Hn. elim Hn. now left.
    + apply str_eqb_neq in E. rewrite IH. split.
      * intros Hn [Hk|Hin]; [congruence|contradiction].
      * intros Hn Hin. apply Hn. now right.
Qed.

Lemma constraintsOf_none (operation : jsstring) :
  constraintsOf operation = None
  <-> ~ In operation (operationKeys ++ objectPrototypeKeys).
Proof.
  unfold constraintsOf, operationKeys. rewrite in_app_iff.
  destruct (ownProperty OPERATION_CONSTRAINTS operation) as [c|] eqn:E.
  - split; [discriminate|]. intros Hn. exfalso. apply Hn. left.
    destruct (in_dec (list_eq_dec N.eq_dec) operation
                (map fst OPERATION_CONSTRAINTS)) as [Hin|Hout];
      [exact Hin|].
    apply ownProperty_In in Hout. congruence.
  - apply ownProperty_In in E.
    destruct (arr_includes objectPrototypeKeys operation) eqn:Ei.
    + apply arr_includes_In in Ei. split; [discriminate|tauto].
    + split; [|reflexivity]. intros _ [Hin|Hin]; [contradiction|].
      apply arr_includes_In in Hin. congruence.
Qed.

Lemma constraintsOf_inherited (operation : jsstring) :
  In operation objectPrototypeKeys ->
  constraintsOf operation = Some unconstrained.
Proof.
  intros Hin. cbn in Hin.
  repeat (destruct Hin as [<-|Hin]; [reflexivity|]). contradiction.
Qed.

Lemma constraintsOf_own (operation : jsstring) :
  In operation operationKeys ->
  exists c, ownProperty OPERATION_CONSTRAINTS operation = Some c
            /\ constraintsOf operation = Some c.
Proof.
  intros Hin. cbn in Hin.
  repeat (destruct Hin as [<-|Hin]; [eexists; split; reflexivity|]).
  contradiction.
Qed.

Lemma own_is_known (operation : jsstring) (c : OperationConstraint) :
  ownProperty OPERATION_CONSTRAINTS operation = Some c ->
  constraintsOf operation = Some c.
Proof. unfold constraintsOf. now intros ->. Qed.

(** Every message of a rejected parameter starts with a letter other
    than 'U'. *)
Lemma rejection_not_unknown (H : Host) (c : OperationConstraint)
  (operation : jsstring) (params : OperationParams) (m : jsstring) :
  constraintsOf operation = Some c ->
  validateOperationParams H operation params = Throw (Own m) ->
  exists c0 rest, m = c0 :: rest /\ c0 <> ch "U".
Proof.
  intros Hc. unfold validateOperationParams. rewrite Hc.
  assert (Hopt : forall k v msg e,
             checkOption k v msg = Throw e -> e = Own msg).
  { intros k v msg e. unfold checkOption.
    destruct (truthy v); [|discriminate].
    destruct (option_map options k); [|discriminate].
    destruct (negb _); [|discriminate]. now intros [= <-]. }
  assert (Hrng : forall k v label e,
             checkRange H k v label = Throw e ->
             exists rest, e = Own (label ++ rest)).
  { intros k v label e. unfold checkRange.
    destruct (negb (isUndefined v)); [|discriminate].
    destruct k as [rc|]; [|discriminate].
    match goal with |- (if ?b then _ else _) = _ -> _ => destruct b end;
      [|discriminate].
    intros [= <-]. eexists. reflexivity. }
  assert (Hprompt : forall e, checkPrompt c params = Throw e ->
             exists rest, e = Own (js "Prompt " ++ rest)).
  { intros e. unfold checkPrompt.
    destruct (on_prompt c) as [pc|]; [|discriminate].
    destruct (prompt_required pc); [|discriminate].
    destruct (prompt params);
      try (intros [= <-]; eexists; reflexivity).
    destruct (negb _); [intros [= <-]; eexists; reflexivity|].
    destruct (Z.ltb _ _); [|discriminate].
    intros [= <-]. eexists. reflexivity. }
  intros Hthrow.
  repeat (apply next_throw in Hthrow as [Hthrow|Hthrow]);
    first [ apply Hprompt in Hthrow as [rest Hm]
          | apply Hopt in Hthrow as Hm
          | apply Hrng in Hthrow as [rest Hm] ];
    injection Hm as ->; do 2 eexists; (split; [reflexivity|discriminate]).
Qed.

(** X2: an operation name is rejected as unknown exactly when it is
    neither one of the seven operations nor the name of a member of
    Object.prototype; a name of the second kind ('constructor',
    'toString', '__proto__', ...) is looked up through the prototype chain
    of the constraint table and accepted with any parameters. *)
Theorem unknown_operation_unless_own_or_inherited
  (H : Host) (operation : jsstring) (params : OperationParams) :
  (validateOperationParams H operation params
   = Throw (Own (js "Unknown operation: " ++ operation))
   <-> ~ In operation (operationKeys ++ objectPrototypeKeys))
  /\ (In operation objectPrototypeKeys ->
      validateOperationParams H operation params = Return tt).
Proof.
  split.
  - split.
    + intros Hthrow.
      destruct (constraintsOf operation) as [c|] eqn:Hc;
        [|now apply constraintsOf_none].
      destruct (rejection_not_unknown H c operation params _ Hc Hthrow)
        as [c0 [rest [Hm Hne]]].
      injection Hm as <- _. now elim Hne.
    + intros Hout. apply constraintsOf_none in Hout.
      unfold validateOperationParams. now rewrite Hout.
  - intros Hin.
    apply (validate_return H operation unconstrained params
             (constraintsOf_inherited _ Hin)).
    unfold meets, promptMeets, optionMeets, rangeMeets. cbn.
    repeat split; intros; discriminate.
Qed.

Lemma ownProperty_Some {A} (o : list (jsstring * A)) (key : jsstring)
  (v : A) :
  ownProperty o key = Some v -> In v (map snd o).
Proof.
  induction o as [|[k w] o' IH]; cbn; [discriminate|].
  destruct (str_eqb key k); [intros [= <-]; now left|].
  intros Hv. right. now apply IH.
Qed.

(** The range of [numImages] in the table: 1 to 8, and 1 to 4 for
    'upscale'. *)
Lemma numImages_limit (operation : jsstring) (c : OperationConstraint)
  (rc : RangeConstraint) :
  ownProperty OPERATION_CONSTRAINTS operation = Some c ->
  on_numImages c = Some rc ->
  range_min rc = 1%Z
  /\ (range_max rc = 8%Z \/ (c = for_upscale /\ range_max rc = 4%Z)).
Proof.
  intros Hown Hrc. apply ownProperty_Some in Hown. cbn in Hown.
  repeat (destruct Hown as [<-|Hown];
          [cbn in Hrc; try discriminate; injection Hrc as <-; cbn; auto|]).
  contradiction.
Qed.

(** X3: for each of the seven operations, [validateOperationParams]
    accepts a parameter object exactly when it meets every constraint the
    function reads from the table: a required prompt is a non-empty
    string within the maximum length; each of resolution, aspectRatio,
    renderingSpeed, magicPrompt, styleType and stylePreset, when truthy,
    is one of the listed options; and each of numImages, imageWeight,
    resemblance and detail, when not undefined, reads through parseInt as
    an integer of the range.  In particular an accepted numImages given
    as a safe integer Number lies between 1 and 8 whenever the operation
    constrains it, and between 1 and 4 for 'upscale'.  Beyond the safe
    range the test is made on what parseInt reads off the printed
    number, not on the number: 1e21, printed '1e+21', is accepted as
    1. *)
Theorem accepted_exactly_when_constraints_are_met
  (H : Host) (operation : jsstring) (c : OperationConstraint)
  (params : OperationParams) :
  ownProperty OPERATION_CONSTRAINTS operation = Some c ->
  (validateOperationParams H operation params = Return tt
   <-> meets H c params)
  /\ (forall n rc,
        validateOperationParams H operation params = Return tt ->
        on_numImages c = Some rc ->
        numImages params = FInt n ->
        isSafeInteger n = true ->
        (1 <= n <= 8)%Z /\ (operation = js "upscale" -> (n <= 4)%Z))
  /\ (forall n rc,
        validateOperationParams H operation params = Return tt ->
        on_numImages c = Some rc ->
        numImages params = FInt n ->
        isSafeInteger n = false ->
        exists m, parseIntString (numberToString H n) = Some m
                  /\ (1 <= m <= 8)%Z).
Proof.
  intros Hown.
  pose proof (validate_return H operation c params (own_is_known _ _ Hown))
    as Hiff.
  split; [exact Hiff|]. split.
  - intros n rc Hok Hrc Hn Hsafe. apply Hiff in Hok.
    destruct Hok as (_ & _ & _ & _ & _ & Hnum & _).
    destruct (Hnum rc Hrc) as [m [_ [Hrange Hint]]].
    { rewrite Hn. discriminate. }
    rewrite <- (Hint n Hn Hsafe) in Hrange.
    split.
    + destruct (numImages_limit _ _ _ Hown Hrc) as [Hmin [Hmax|[_ Hmax]]];
        lia.
    + intros ->. cbn in Hown. injection Hown as <-.
      cbn in Hrc. injection Hrc as <-. cbn in Hrange. lia.
  - intros n rc Hok Hrc Hn Hbig. apply Hiff in Hok.
    destruct Hok as (_ & _ & _ & _ & _ & Hnum & _).
    destruct (Hnum rc Hrc) as [m [Hread [Hrange _]]].
    { rewrite Hn. discriminate. }
    rewrite Hn in Hread. unfold parseInt in Hread. cbn [toString] in Hread.
    rewrite Hbig in Hread. exists m. split; [exact Hread|].
    destruct (numImages_limit _ _ _ Hown Hrc) as [Hmin [Hmax|[_ Hmax]]];
      lia.
Qed.

(** The valid call of the test suite, and the same call with numImages
    1e21. *)
Lemma accepted_exactly_when_constraints_are_met_witness :
  ownProperty OPERATION_CONSTRAINTS (js "generate-v3") = Some for_generate_v3
  /\ validateOperationParams Lab.host (js "generate-v3") Lab.sampleParams
     = Return tt
  /\ meets Lab.host for_generate_v3 Lab.sampleParams
  /\ toString (utf8 Lab.host) (numberToString Lab.host) (FInt (10 ^ 21))
     = js "1e+21"
  /\ validateOperationParams Lab.host (js "generate-v3") Lab.exponentParams
     = Return tt.
Proof.
  split; [reflexivity|]. split; [vm_compute; reflexivity|].
  split.
  - apply (proj1 (accepted_exactly_when_constraints_are_met Lab.host
                    (js "generate-v3") for_generate_v3 Lab.sampleParams
                    eq_refl)).
    vm_compute. reflexivity.
  - split; vm_compute; reflexivity.
Defined.

Lemma optionMeets_omitted (k : option OptionsConstraint) (a b : field) :
  omitted a b -> optionMeets k b -> optionMeets k a.
Proof.
  intros [->| ->] Hm; [exact Hm|]. intros oc _ Habs. discriminate.
Qed.

Lemma rangeMeets_omitted (H : Host) (k : option RangeConstraint)
  (a b : field) :
  omitted a b -> rangeMeets H k b -> rangeMeets H k a.
Proof.
  intros [->| ->] Hm; [exact Hm|]. intros rc _ Habs. now elim Habs.
Qed.

(** X4: leaving out optional parameters never turns an accepted call
    into a rejected one: if [q] is accepted and [p] is [q] with some of
    resolution, aspectRatio, renderingSpeed, magicPrompt, numImages,
    styleType, stylePreset, imageWeight, resemblance and detail set to
    undefined, then [p] is accepted. *)
Theorem omitting_optional_parameters_never_rejects
  (H : Host) (operation : jsstring) (p q : OperationParams) :
  omits p q ->
  validateOperationParams H operation q = Return tt ->
  validateOperationParams H operation p = Return tt.
Proof.
  intros Homits Hq.
  destruct (constraintsOf operation) as [c|] eqn:Hc.
  2:{ unfold validateOperationParams in Hq. rewrite Hc in Hq. discriminate. }
  apply (validate_return H operation c _ Hc) in Hq.
  apply (validate_return H operation c _ Hc).
  unfold omits in Homits. unfold meets in *.
  destruct Homits as (Hp & H1 & H2 & H3 & H4 & H5 & H6 & H7 & H8 & H9 & H10).
  destruct Hq as (Q0 & Q1 & Q2 & Q3 & Q4 & Q5 & Q6 & Q7 & Q8 & Q9 & Q10).
  rewrite Hp.
  repeat split;
    eauto using optionMeets_omitted, rangeMeets_omitted.
Qed.

(** The valid call of the test suite without aspectRatio and numImages. *)
Lemma omitting_optional_parameters_never_rejects_witness :
  omits Lab.fewerParams Lab.sampleParams
  /\ validateOperationParams Lab.host (js "generate-v3") Lab.sampleParams
     = Return tt
  /\ validateOperationParams Lab.host (js "generate-v3") Lab.fewerParams
     = Return tt.
Proof.
  assert (Homits : omits Lab.fewerParams Lab.sampleParams).
  { unfold omits, omitted. cbn. repeat split; auto. }
  assert (Hok : validateOperationParams Lab.host (js "generate-v3")
                  Lab.sampleParams = Return tt)
    by (vm_compute; reflexivity).
  split; [exact Homits|]. split; [exact Hok|].
  exact (omitting_optional_parameters_never_rejects Lab.host
           (js "generate-v3") Lab.fewerParams Lab.sampleParams Homits Hok).
Defined.

(** Every prompt constraint of the table allows 10000 units. *)
Lemma prompt_limit (operation : jsstring) (c : OperationConstraint)
  (pc : PromptConstraint) :
  ownProperty OPERATION_CONSTRAINTS operation = Some c ->
  on_prompt c = Some pc ->
  maxLength pc = 10000%Z.
Proof.
  intros Hown Hpc. apply ownProperty_Some in Hown. cbn in Hown.
  repeat (destruct Hown as [<-|Hown];
          [cbn in Hpc; try discriminate; now injection Hpc as <-|]).
  contradiction.
Qed.

(** X5: the entries [required: true] of image, mask and resolution are
    not enforced: for each of the seven operations a non-empty prompt of
    at most 10000 units alone is accepted, also for edit-v3 (image and
    mask required) and reframe-v3 (image and resolution required); and
    'describe' accepts every parameter object. *)
Theorem required_inputs_are_not_enforced
  (H : Host) (operation s : jsstring) :
  In operation operationKeys ->
  s <> [] -> (Z.of_nat (length s) <= 10000)%Z ->
  validateOperationParams H operation (promptOnly s) = Return tt
  /\ (forall params,
        validateOperationParams H (js "describe") params = Return tt).
Proof.
  intros Hin Hne Hlen. split.
  - destruct (constraintsOf_own _ Hin) as [c [Hown Hc]].
    apply (validate_return H operation c _ Hc).
    unfold meets, optionMeets, rangeMeets, promptOnly. cbn.
    repeat split; try (intros; discriminate);
      try (intros rc _ Habs; now elim Habs).
    intros pc Hpc _. exists s. repeat split; [exact Hne|].
    now rewrite (prompt_limit _ _ _ Hown Hpc).
  - intros params.
    apply (validate_return H (js "describe") for_describe params eq_refl).
    unfold meets, promptMeets, optionMeets, rangeMeets. cbn.
    repeat split; intros; discriminate.
Qed.

(** 'edit-v3' with a prompt and neither image nor mask. *)
Lemma required_inputs_are_not_enforced_witness :
  In (js "edit-v3") operationKeys
  /\ js "a cat" <> []
  /\ (Z.of_nat (length (js "a cat")) <= 10000)%Z
  /\ validateOperationParams Lab.host (js "edit-v3") (promptOnly (js "a cat"))
     = Return tt.
Proof.
  assert (Hin : In (js "edit-v3") operationKeys) by (right; left; reflexivity).
  assert (Hne : js "a cat" <> []) by discriminate.
  assert (Hlen : (Z.of_nat (length (js "a cat")) <= 10000)%Z)
    by (vm_compute; discriminate).
  split; [exact Hin|]. split; [exact Hne|]. split; [exact Hlen|].
  exact (proj1 (required_inputs_are_not_enforced Lab.host (js "edit-v3")
                  (js "a cat") Hin Hne Hlen)).
Defined.

End ValidationSpec.

(* ================================================================== *)
(** ** [buildFormData] *)
(* ================================================================== *)

Module FormSpec.

Import Params Runtime Operations Forms Terms JSFacts.

Lemma append_items (key : jsstring) (items : list field) (fd : FormData) :
  fold_left
    (fun fd item =>
       match item with
       | FBuffer b => append fd key (File b (js "image.jpg"))
       | _ => append fd key (Raw item)
       end) items fd
  = fd ++ map (itemPart key) items.
Proof.
  revert fd. induction items as [|item rest IH]; intros fd; cbn [fold_left map].
  - now rewrite app_nil_r.
  - rewrite IH. unfold append, itemPart.
    destruct item; rewrite <- app_assoc; reflexivity.
Qed.

Lemma appendEntry_parts (H : Host) (fd : FormData)
  (entry : jsstring * field) :
  appendEntry H fd entry = fd ++ entryParts H entry.
Proof.
  destruct entry as [key value]. unfold appendEntry, entryParts, append.
  cbn [fst snd].
  destruct value; try reflexivity; try (now rewrite app_nil_r).
  apply append_items.
Qed.

Lemma fold_appendEntry (H : Host) (params : list (jsstring * field))
  (fd : FormData) :
  fold_left (appendEntry H) params fd = fd ++ flat_map (entryParts H) params.
Proof.
  revert fd. induction params as [|e rest IH]; intros fd;
    cbn [fold_left flat_map].
  - now rewrite app_nil_r.
  - now rewrite IH, appendEntry_parts, app_assoc.
Qed.

(** The form is the concatenation of what each property contributes. *)
Lemma buildFormData_parts (H : Host) (params : list (jsstring * field)) :
  buildFormData H params = flat_map (entryParts H) params.
Proof. unfold buildFormData. now rewrite fold_appendEntry. Qed.

Lemma entryParts_names (H : Host) (entry : jsstring * field) :
  map part_name (entryParts H entry)
  = repeat (fst entry) (arity (snd entry)).
Proof.
  destruct entry as [key value]. unfold entryParts. cbn [fst snd].
  destruct value; try reflexivity.
  cbn [arity]. induction items as [|i r IH]; cbn; [reflexivity|].
  now rewrite IH.
Qed.

(** X6: [buildFormData] appends the fields property by property, in the
    order of the parameter object: the form of two objects written one
    after the other is the one form followed by the other; a property
    that is undefined, null or an empty array contributes nothing,
    wherever it stands; and the field names are the property names, each
    once, except that an array gives its name once per item. *)
Theorem buildFormData_appends_in_order
  (H : Host) (p q : list (jsstring * field)) :
  buildFormData H (p ++ q) = buildFormData H p ++ buildFormData H q
  /\ (forall key v,
        v = FUndefined \/ v = FNull \/ v = FArray [] ->
        buildFormData H (p ++ (key, v) :: q) = buildFormData H (p ++ q))
  /\ map part_name (buildFormData H p)
     = flat_map (fun entry => repeat (fst entry) (arity (snd entry))) p.
Proof.
  rewrite !buildFormData_parts. split; [apply flat_map_app|]. split.
  - intros key v Hv. rewrite !buildFormData_parts, !flat_map_app.
    cbn [flat_map].
    destruct Hv as [->|[->| ->]]; reflexivity.
  - induction p as [|e r IH]; cbn [flat_map map]; [reflexivity|].
    now rewrite map_app, IH, entryParts_names.
Qed.

Lemma in_itemPart_file (key k : jsstring) (b : buffer) (n : jsstring)
  (items : list field) :
  In {| part_name := k; part_value := File b n |} (map (itemPart key) items)
  <-> k = key /\ n = js "image.jpg" /\ In (FBuffer b) items.
Proof.
  rewrite in_map_iff. split.
  - intros [item [Hpart Hin]]. unfold itemPart in Hpart.
    destruct item; try discriminate.
    injection Hpart as Hk Hb Hn. subst. auto.
  - intros (-> & -> & Hin). exists (FBuffer b). now split.
Qed.

(** X7: a field of the form carries a file exactly when the parameter
    object has a Buffer under that name, as the property itself or as an
    item of an array property; the file name is then always 'image.jpg',
    whatever the bytes are.  A Buffer anywhere else (inside an object) is
    never sent as a file. *)
Theorem buildFormData_files_are_the_buffers
  (H : Host) (params : list (jsstring * field))
  (key : jsstring) (b : buffer) (filename : jsstring) :
  In {| part_name := key; part_value := File b filename |}
     (buildFormData H params)
  <-> filename = js "image.jpg"
      /\ (In (key, FBuffer b) params
          \/ exists items, In (key, FArray items) params
                           /\ In (FBuffer b) items).
Proof.
  rewrite buildFormData_parts, in_flat_map. split.
  - intros [[k v] [Hin Hpart]]. unfold entryParts in Hpart.
    cbn [fst snd] in Hpart.
    destruct v; cbn in Hpart;
      try contradiction;
      try (destruct Hpart as [Hpart|[]]; discriminate).
    + destruct Hpart as [Hpart|[]]. injection Hpart as Hk Hb Hn.
      subst. split; [reflexivity|now left].
    + apply in_itemPart_file in Hpart as (-> & -> & Hitem).
      split; [reflexivity|]. right. now exists items.
  - intros [-> [Hin|[items [Hin Hitem]]]].
    + exists (key, FBuffer b). split; [exact Hin|]. now left.
    + exists (key, FArray items). split; [exact Hin|].
      unfold entryParts. cbn [fst snd]. now apply in_itemPart_file.
Qed.

End FormSpec.

(* ================================================================== *)
(** ** The client's requests *)
(* ================================================================== *)

Module RequestSpec.

Import Params Runtime Operations Forms Api Terms JSFacts.

Lemma verifyApiKey_set (api : IdeogramAPI) :
  apiKey api <> [] -> verifyApiKey api = Return tt.
Proof.
  unfold verifyApiKey. destruct (apiKey api); [congruence|reflexivity].
Qed.

Lemma payload_message_marked (n : Z) :
  includes (js "Request payload too large") (msg_payload n) = true.
Proof.
  apply includes_startsWith. unfold msg_payload.
  change (js "Request payload too large: ")
    with (js "Request payload too large" ++ js ": ").
  rewrite <- app_assoc. apply startsWith_app.
Qed.

(** The first [try] of [_makeRequest], settled. *)
Lemma checkSize_run (H : Host) (formData : FormData) :
  checkSize H formData =
  ([], match getLengthSync H formData with
       | Success n =>
           if Z.ltb MAX_REQUEST_SIZE n
           then Throw (Own (msg_payload n))
           else Return tt
       | Failure e =>
           match err_message e with
           | Some m =>
               if includes (js "Request payload too large") m
               then Throw (Foreign e)
               else Return tt
           | None => Throw (Foreign undefinedIncludes)
           end
       end).
Proof.
  unfold checkSize, attempt, andThen, now_or_never.
  destruct (getLengthSync H formData) as [n|e]; cbn [settle].
  - destruct (Z.ltb MAX_REQUEST_SIZE n); unfold raise, done;
      cbn [app message_of negb]; [|reflexivity].
    now rewrite payload_message_marked.
  - unfold raise, done. cbn [message_of app].
    destruct (err_message e) as [m|]; [|reflexivity].
    destruct (includes _ m); reflexivity.
Qed.

(** [_makeRequest] for an instance whose key is set. *)
Lemma makeRequest_run (H : Host) (api : IdeogramAPI) (endpoint : jsstring)
  (formData : FormData) :
  apiKey api <> [] ->
  makeRequest H api endpoint formData =
  match snd (checkSize H formData) with
  | Throw e => ([], Throw e)
  | Return _ =>
      ([postOf api endpoint formData],
       match axios_post H (baseUrl api ++ endpoint) formData (postConfig api)
       with
       | Responded contentType body =>
           if isJson contentType then Return body
           else Throw (explain H {| caught_error := Own msg_invalid_response;
                                    caught_response := None |})
       | HttpFailure status dataMessage e =>
           Throw (explain H {| caught_error := Foreign e;
                               caught_response := Some (status, dataMessage) |})
       | NetworkFailure e =>
           Throw (explain H {| caught_error := Foreign e;
                               caught_response := None |})
       end)
  end.
Proof.
  intros Hkey. unfold makeRequest. rewrite (verifyApiKey_set _ Hkey).
  rewrite checkSize_run. unfold andThen, now_or_never, post, postOf.
  cbn [snd app].
  match goal with
  | |- context [match ?v with Return _ => _ | Throw _ => _ end] =>
      destruct v as [[]|err]
  end; [|reflexivity].
  cbn [app].
  destruct (axios_post H (baseUrl api ++ endpoint) formData (postConfig api))
    as [contentType body|status dataMessage e|e]; try reflexivity.
  unfold isJson. destruct contentType as [c|]; [|reflexivity].
  destruct c as [|c0 c']; [reflexivity|].
  cbn [truthy negb orb].
  destruct (includes (js "application/json") (c0 :: c')); reflexivity.
Qed.

(** X8: a form whose known length exceeds 50 MiB is never sent: the call
    fails with 'Request payload too large: <size>MB exceeds maximum of
    50MB' before any request; a form of at most 50 MiB is sent in exactly
    one POST to base URL + endpoint with the instance's key and the fixed
    limits; and when the length cannot be computed (the library throws an
    error whose message does not contain 'Request payload too large') the
    form is sent all the same, unchecked. *)
Theorem oversized_forms_are_not_sent
  (H : Host) (api : IdeogramAPI) (endpoint : jsstring) (formData : FormData) :
  apiKey api <> [] ->
  let run := makeRequest H api endpoint formData in
  (forall n, getLengthSync H formData = Success n ->
     ((50 * 1024 * 1024 < n)%Z -> run = ([], Throw (Own (msg_payload n))))
     /\ ((n <= 50 * 1024 * 1024)%Z ->
         actions run = [postOf api endpoint formData]))
  /\ (forall e m, getLengthSync H formData = Failure e ->
        err_message e = Some m ->
        includes (js "Request payload too large") m = false ->
        actions run = [postOf api endpoint formData]).
Proof.
  intros Hkey run. subst run. rewrite (makeRequest_run _ _ _ _ Hkey).
  rewrite checkSize_run. cbn [snd]. split.
  - intros n ->. unfold MAX_REQUEST_SIZE.
    destruct (Z.ltb_spec (50 * 1024 * 1024) n); split; intros; try lia;
      reflexivity.
  - intros e m -> -> ->. reflexivity.
Qed.

(** A form with a small image is sent. *)
Lemma oversized_forms_are_not_sent_witness :
  apiKey Lab.client <> []
  /\ getLengthSync Lab.host Lab.imageForm = Success 221%Z
  /\ actions (makeRequest Lab.host Lab.client ENDPOINTS.UPSCALE Lab.imageForm)
     = [postOf Lab.client ENDPOINTS.UPSCALE Lab.imageForm].
Proof.
  assert (Hkey : apiKey Lab.client <> []) by discriminate.
  assert (Hlen : getLengthSync Lab.host Lab.imageForm = Success 221%Z)
    by reflexivity.
  split; [exact Hkey|]. split; [exact Hlen|].
  apply (proj2 (proj1 (oversized_forms_are_not_sent Lab.host Lab.client
                         ENDPOINTS.UPSCALE Lab.imageForm Hkey)
                  221%Z Hlen)).
  vm_compute. discriminate.
Defined.

(** X9: an instance exists only for a non-empty key and a base URL that
    starts with 'https://' (the default when none is given); so whatever
    [_makeRequest] does for such an instance, it does nothing but at most
    one POST, to a URL that starts with 'https://', carrying exactly the
    key the instance was created with. *)
Theorem requests_use_https_and_the_given_key
  (key base : option jsstring) (api : IdeogramAPI) :
  newIdeogramAPI key base = Return api ->
  (key = Some (apiKey api) /\ apiKey api <> []
   /\ baseUrl api = match base with Some b => b | None => BASE_URL end
   /\ startsWith (js "https://") (baseUrl api) = true)
  /\ (forall H endpoint formData,
        (actions (makeRequest H api endpoint formData) = []
         \/ actions (makeRequest H api endpoint formData)
            = [postOf api endpoint formData])
        /\ (forall url form cfg,
              In (HttpPost url form cfg)
                 (actions (makeRequest H api endpoint formData)) ->
              startsWith (js "https://") url = true
              /\ header_api_key cfg = apiKey api
              /\ key = Some (header_api_key cfg))).
Proof.
  unfold newIdeogramAPI.
  set (b0 := match base with Some b => b | None => BASE_URL end).
  intros Hnew.
  destruct key as [k|]; [|discriminate].
  destruct k as [|k0 k']; [discriminate|]. cbn [truthy negb] in Hnew.
  destruct (startsWith (js "https://") b0) eqn:Hs; [|discriminate].
  cbn [negb] in Hnew. injection Hnew as <-. cbn [apiKey baseUrl].
  split; [repeat split; [discriminate|exact Hs]|].
  intros H endpoint formData.
  rewrite makeRequest_run by (cbn; discriminate).
  destruct (snd (checkSize H formData)) as [[]|e]; cbn [actions fst].
  - split; [now right|]. intros url form cfg [Hin|[]].
    unfold postOf in Hin. injection Hin as <- <- <-.
    cbn [baseUrl apiKey postConfig header_api_key].
    repeat split.
    destruct (startsWith_prefix _ _ Hs) as [r Hr]. rewrite Hr.
    rewrite <- app_assoc. apply startsWith_app.
  - split; [now left|]. intros url form cfg [].
Qed.

(** The client of the command line: the key of the environment and the
    default base URL. *)
Lemma requests_use_https_and_the_given_key_witness :
  newIdeogramAPI (Some (js "env-key")) None = Return Lab.client
  /\ startsWith (js "https://") (baseUrl Lab.client) = true.
Proof.
  assert (Hnew : newIdeogramAPI (Some (js "env-key")) None = Return Lab.client)
    by reflexivity.
  split; [exact Hnew|].
  apply (proj1 (requests_use_https_and_the_given_key _ _ _ Hnew)).
Defined.

Lemma explain_generic (H : Host) (c : Caught) (m : jsstring) :
  production H = true ->
  explain H c = Own m ->
  In m genericMessages
  \/ exists status dataMessage,
       caught_response c = Some (status, dataMessage)
       /\ ((status = 400%N /\ m = js "Invalid input: "
              ++ toString (utf8 H) (numberToString H)
                   (orElse dataMessage
                      (match message_of (caught_error c) with
                       | Some m => FString m
                       | None => FUndefined
                       end)))
           \/ (status = 422%N /\ m = js "Validation failed: "
                 ++ toString (utf8 H) (numberToString H)
                      (orElse dataMessage
                         (match message_of (caught_error c) with
                          | Some m => FString m
                          | None => FUndefined
                          end)))).
Proof.
  intros Hprod. unfold explain. rewrite Hprod.
  destruct (caught_response c) as [[status dataMessage]|].
  - destruct (N.eqb_spec status 400) as [->|_].
    { intros [= <-]. right. exists 400%N, dataMessage. auto. }
    destruct (N.eqb_spec status 401) as [->|_].
    { intros [= <-]. left. cbn. auto. }
    destruct (N.eqb_spec status 403) as [->|_].
    { intros [= <-]. left. cbn. auto. }
    destruct (N.eqb_spec status 422) as [->|_].
    { intros [= <-]. right. exists 422%N, dataMessage. auto. }
    destruct (N.eqb_spec status 429) as [->|_].
    { intros [= <-]. left. cbn. auto. }
    intros [= <-]. left. cbn. auto 6.
  - intros [= <-]. left. cbn. auto 6.
Qed.

Lemma explain_own_in_production (H : Host) (c : Caught) :
  production H = true -> exists m, explain H c = Own m.
Proof.
  intros Hprod. unfold explain. rewrite Hprod.
  destruct (caught_response c) as [[status dataMessage]|];
    [|eexists; reflexivity].
  repeat match goal with
         | |- context [if ?b then _ else _] => destruct b
         end; eexists; reflexivity.
Qed.

(** X10: with NODE_ENV=production, whatever goes wrong once the request
    has been sent (an error status, a network failure, a response that is
    not JSON) is reported as an [Error] with one of five fixed messages,
    except for the statuses 400 and 422, whose message is 'Invalid input:
    ' or 'Validation failed: ' followed by the server's message (the
    error's own message when the response has none).  No other status
    lets the server's text through. *)
Theorem production_failures_are_generic
  (H : Host) (api : IdeogramAPI) (endpoint : jsstring) (formData : FormData)
  (e : error) :
  apiKey api <> [] ->
  production H = true ->
  In (postOf api endpoint formData)
     (actions (makeRequest H api endpoint formData)) ->
  outcome_of (makeRequest H api endpoint formData) = Throw e ->
  exists m, e = Own m
    /\ (In m genericMessages
        \/ exists status dataMessage err,
             axios_post H (baseUrl api ++ endpoint) formData (postConfig api)
             = HttpFailure status dataMessage err
             /\ ((status = 400%N
                  /\ m = js "Invalid input: "
                         ++ serverMessage H dataMessage err)
                 \/ (status = 422%N
                     /\ m = js "Validation failed: "
                            ++ serverMessage H dataMessage err))).
Proof.
  intros Hkey Hprod. rewrite (makeRequest_run _ _ _ _ Hkey).
  destruct (snd (checkSize H formData)) as [[]|e0]; cbn [actions fst];
    [|intros []].
  intros _. cbn [outcome_of snd].
  destruct (axios_post H (baseUrl api ++ endpoint) formData (postConfig api))
    as [contentType body|status dataMessage err|err] eqn:Hpost.
  - destruct (isJson contentType); [discriminate|]. intros [= <-].
    destruct (explain_own_in_production H
                {| caught_error := Own msg_invalid_response;
                   caught_response := None |} Hprod) as [m Hm].
    exists m. split; [exact Hm|].
    destruct (explain_generic H _ m Hprod Hm) as [Hg|[s [d [Hr _]]]];
      [now left|discriminate].
  - intros [= <-].
    destruct (explain_own_in_production H
                {| caught_error := Foreign err;
                   caught_response := Some (status, dataMessage) |} Hprod)
      as [m Hm].
    exists m. split; [exact Hm|].
    destruct (explain_generic H _ m Hprod Hm) as [Hg|[s [d [Hr Hcases]]]];
      [now left|].
    right. cbn in Hr. injection Hr as <- <-.
    exists status, dataMessage, err. split; [reflexivity|exact Hcases].
  - intros [= <-].
    destruct (explain_own_in_production H
                {| caught_error := Foreign err;
                   caught_response := None |} Hprod) as [m Hm].
    exists m. split; [exact Hm|].
    destruct (explain_generic H _ m Hprod Hm) as [Hg|[s [d [Hr _]]]];
      [now left|discriminate].
Qed.

(** In production the server's text of a status 500 is not passed on. *)
Lemma production_failures_are_generic_witness :
  apiKey Lab.client <> []
  /\ production Lab.productionHost = true
  /\ In (postOf Lab.client ENDPOINTS.UPSCALE Lab.imageForm)
        (actions (makeRequest Lab.productionHost Lab.client ENDPOINTS.UPSCALE
                    Lab.imageForm))
  /\ outcome_of (makeRequest Lab.productionHost Lab.client ENDPOINTS.UPSCALE
                   Lab.imageForm)
     = Throw (Own (js "Operation failed. Please try again."))
  /\ exists m, Own (js "Operation failed. Please try again.") = Own m
       /\ (In m genericMessages
           \/ exists status dataMessage err,
                axios_post Lab.productionHost
                  (baseUrl Lab.client ++ ENDPOINTS.UPSCALE) Lab.imageForm
                  (postConfig Lab.client)
                = HttpFailure status dataMessage err
                /\ ((status = 400%N
                     /\ m = js "Invalid input: "
                            ++ serverMessage Lab.productionHost dataMessage err)
                    \/ (status = 422%N
                        /\ m = js "Validation failed: "
                               ++ serverMessage Lab.productionHost
                                    dataMessage err))).
Proof.
  assert (Hkey : apiKey Lab.client <> []) by discriminate.
  assert (Hprod : production Lab.productionHost = true) by reflexivity.
  assert (Hin : In (postOf Lab.client ENDPOINTS.UPSCALE Lab.imageForm)
                  (actions (makeRequest Lab.productionHost Lab.client
                              ENDPOINTS.UPSCALE Lab.imageForm)))
    by (left; reflexivity).
  assert (Hout : outcome_of (makeRequest Lab.productionHost Lab.client
                               ENDPOINTS.UPSCALE Lab.imageForm)
                 = Throw (Own (js "Operation failed. Please try again.")))
    by reflexivity.
  split; [exact Hkey|]. split; [exact Hprod|]. split; [exact Hin|].
  split; [exact Hout|].
  exact (production_failures_are_generic Lab.productionHost Lab.client
           ENDPOINTS.UPSCALE Lab.imageForm _ Hkey Hprod Hin Hout).
Defined.

(** X11: a response is returned only when its Content-Type contains
    'application/json'.  Any other successful response, or one without
    the header, makes the call fail: outside production with 'Invalid
    response format from API'; in production that error is caught by the
    method's own handler and replaced by 'Request failed. Please check
    your connection and try again.', the message of a network failure. *)
Theorem non_json_responses_are_rejected
  (H : Host) (api : IdeogramAPI) (endpoint : jsstring) (formData : FormData)
  (contentType : option jsstring) (body : field) :
  apiKey api <> [] ->
  snd (checkSize H formData) = Return tt ->
  axios_post H (baseUrl api ++ endpoint) formData (postConfig api)
  = Responded contentType body ->
  outcome_of (makeRequest H api endpoint formData)
  = if isJson contentType then Return body
    else if production H
    then Throw (Own (js "Request failed. Please check your connection and "
                     ++ js "try again."))
    else Throw (Own (js "Invalid response format from API")).
Proof.
  intros Hkey Hsize Hpost. rewrite (makeRequest_run _ _ _ _ Hkey).
  rewrite Hsize, Hpost. cbn [outcome_of snd].
  destruct (isJson contentType); [reflexivity|].
  unfold explain. cbn [caught_response caught_error].
  destruct (production H); reflexivity.
Qed.

(** An HTML page in answer to 'remix', outside production. *)
Lemma non_json_responses_are_rejected_witness :
  apiKey Lab.client <> []
  /\ snd (checkSize Lab.host Lab.imageForm) = Return tt
  /\ axios_post Lab.host (baseUrl Lab.client ++ ENDPOINTS.REMIX_V3)
       Lab.imageForm (postConfig Lab.client)
     = Responded (Some (js "text/html")) (FString (js "<html></html>"))
  /\ outcome_of (makeRequest Lab.host Lab.client ENDPOINTS.REMIX_V3
                   Lab.imageForm)
     = Throw (Own (js "Invalid response format from API")).
Proof.
  assert (Hkey : apiKey Lab.client <> []) by discriminate.
  assert (Hsize : snd (checkSize Lab.host Lab.imageForm) = Return tt)
    by reflexivity.
  assert (Hpost : axios_post Lab.host (baseUrl Lab.client ++ ENDPOINTS.REMIX_V3)
                    Lab.imageForm (postConfig Lab.client)
                  = Responded (Some (js "text/html"))
                      (FString (js "<html></html>")))
    by reflexivity.
  split; [exact Hkey|]. split; [exact Hsize|]. split; [exact Hpost|].
  exact (non_json_responses_are_rejected Lab.host Lab.client
           ENDPOINTS.REMIX_V3 Lab.imageForm _ _ Hkey Hsize Hpost).
Defined.

End RequestSpec.

(* ================================================================== *)
(** ** Facts about tasks *)
(* ================================================================== *)

Module TaskFacts.

Import Params Runtime.

Lemma andThen_throw {A B} (m : task A) (k : A -> task B) (e : error) :
  outcome_of m = Throw e -> andThen m k = (actions m, Throw e).
Proof. destruct m as [t [a|e']]; cbn; [discriminate|]. now intros [= ->]. Qed.

Lemma andThen_return {A B} (m : task A) (k : A -> task B) (a : A) :
  outcome_of m = Return a ->
  andThen m k = (actions m ++ actions (k a), outcome_of (k a)).
Proof.
  destruct m as [t [a'|e']]; cbn; [|discriminate].
  intros [= ->]. now destruct (k a).
Qed.

Lemma andThen_actions {A B} (m : task A) (k : A -> task B) :
  actions (andThen m k) = actions m
  \/ exists a, outcome_of m = Return a
               /\ actions (andThen m k) = actions m ++ actions (k a).
Proof.
  destruct (outcome_of m) as [a|e] eqn:E.
  - right. exists a. split; [reflexivity|].
    now rewrite (andThen_return _ _ _ E).
  - left. now rewrite (andThen_throw _ _ _ E).
Qed.

Lemma andThen_returns {A B} (m : task A) (k : A -> task B) (b : B) :
  outcome_of (andThen m k) = Return b ->
  exists a, outcome_of m = Return a /\ outcome_of (k a) = Return b.
Proof.
  destruct (outcome_of m) as [a|e] eqn:E.
  - rewrite (andThen_return _ _ _ E). cbn. intros Hb. now exists a.
  - rewrite (andThen_throw _ _ _ E). discriminate.
Qed.

Lemma andThen_throw_eq {A B} (m : task A) (k : A -> task B) (e : error)
  (t : list action) :
  outcome_of m = Throw e -> actions m = t -> andThen m k = (t, Throw e).
Proof. intros He <-. now apply andThen_throw. Qed.

Lemma lift_actions {A} (m : io A) : actions (lift m) = map Core (trace m).
Proof. reflexivity. Qed.

Lemma lift_outcome {A} (m : io A) : outcome_of (lift m) = result m.
Proof. reflexivity. Qed.

Lemma core_not_post (t : list event) (a : action) :
  In a (map Core t) -> isPost a = false /\ isWrite a = false.
Proof. rewrite in_map_iff. intros [e [<- _]]. now split. Qed.

End TaskFacts.

(* ================================================================== *)
(** ** The operations of the client *)
(* ================================================================== *)

Module OperationSpec.

Import Params Runtime Operations Forms Api Terms JSFacts TaskFacts.
Import FormSpec RequestSpec.

(** [_makeRequest] makes at most the one request. *)
Lemma makeRequest_actions (H : Host) (api : IdeogramAPI)
  (endpoint : jsstring) (formData : FormData) :
  actions (makeRequest H api endpoint formData) = []
  \/ actions (makeRequest H api endpoint formData)
     = [postOf api endpoint formData].
Proof.
  destruct (apiKey api) as [|k0 k'] eqn:Hk.
  - left. unfold makeRequest, verifyApiKey. now rewrite Hk.
  - rewrite makeRequest_run by (rewrite Hk; discriminate).
    destruct (snd (checkSize H formData)); cbn; auto.
Qed.

Lemma makeRequest_posts (H : Host) (api : IdeogramAPI)
  (endpoint : jsstring) (formData : FormData) (a : action) :
  In a (actions (makeRequest H api endpoint formData)) ->
  a = postOf api endpoint formData.
Proof.
  destruct (makeRequest_actions H api endpoint formData) as [-> | ->].
  - intros [].
  - intros [<-|[]]. reflexivity.
Qed.

Lemma bufferOf_core (H : Host) (i : image) (a : action) :
  In a (actions (bufferOf H i)) -> isPost a = false.
Proof.
  destruct i as [b|p]; cbn [bufferOf].
  - intros [].
  - rewrite lift_actions. intros Hin. now apply core_not_post in Hin.
Qed.

Lemma bufferOf_loaded (H : Host) (i : image) (b : buffer) :
  outcome_of (bufferOf H i) = Return b <-> loaded H i b.
Proof.
  destruct i as [b'|p]; cbn [bufferOf loaded].
  - split; [now intros [= ->]|now intros ->].
  - rewrite lift_outcome, AcquireSpec.loadImageAsBuffer_returns_iff.
    rewrite FileSpec.validateImagePath_accepts_iff. tauto.
Qed.

(** A request made after loading an image is made with what was
    loaded. *)
Lemma post_after_load (H : Host) (i : image) (k : buffer -> task field)
  (a : action) :
  In a (actions (andThen (bufferOf H i) k)) -> isPost a = true ->
  exists b, loaded H i b /\ In a (actions (k b)).
Proof.
  intros Hin Hpost.
  destruct (andThen_actions (bufferOf H i) k) as [E|[b [Hb E]]];
    rewrite E in Hin.
  - apply bufferOf_core in Hin. congruence.
  - apply in_app_or in Hin as [Hin|Hin].
    + apply bufferOf_core in Hin. congruence.
    + exists b. split; [now apply bufferOf_loaded|exact Hin].
Qed.

Lemma file_field_sent (H : Host) (params : list (jsstring * field))
  (name : string) (b : buffer) :
  In (js name, FBuffer b) params ->
  In (fileField name b) (buildFormData H params).
Proof.
  intros Hin. rewrite buildFormData_parts, in_flat_map.
  exists (js name, FBuffer b). split; [exact Hin|]. now left.
Qed.

Lemma text_field_sent (H : Host) (params : list (jsstring * field))
  (name : string) (s : jsstring) :
  In (js name, FString s) params ->
  In (textField name s) (buildFormData H params).
Proof.
  intros Hin. rewrite buildFormData_parts, in_flat_map.
  exists (js name, FString s). split; [exact Hin|]. now left.
Qed.

Lemma default_sent (H : Host) (params : list (jsstring * field))
  (name : string) (v : field) (d : jsstring) :
  In (js name, orElse v (FString d)) params ->
  truthy v = false ->
  In (textField name d) (buildFormData H params).
Proof.
  unfold orElse. intros Hin Hv. rewrite Hv in Hin.
  now apply text_field_sent.
Qed.

Lemma number_field_sent (H : Host) (params : list (jsstring * field))
  (name : string) (n : Z) :
  In (js name, FInt n) params ->
  In (textField name (if isSafeInteger n then decZ n
                      else numberToString H n))
     (buildFormData H params).
Proof.
  intros Hin. rewrite buildFormData_parts, in_flat_map.
  exists (js name, FInt n). split; [exact Hin|]. now left.
Qed.

(** X12: for an instance with a key, [generate] builds one form and does
    nothing but post it, once, to base URL + '/v1/ideogram-v3/generate':
    it is posted when its length is at most 50 MiB, and not when it is
    more.  In the form a prompt string is sent as it is, and a falsy
    renderingSpeed, magicPrompt or numImages (undefined, null, '', 0,
    NaN, false) is replaced by 'DEFAULT', 'AUTO' and 1: in particular
    numImages: 0 is sent as num_images=1.  Any other integer numImages is
    sent as the number prints: a safe integer in decimal digits. *)
Theorem generate_fills_in_the_defaults
  (H : Host) (api : IdeogramAPI) (params : OperationParams) :
  apiKey api <> [] ->
  exists form,
    let request :=
      HttpPost (baseUrl api ++ js "/v1/ideogram-v3/generate") form
        (postConfig api) in
    (forall a, In a (actions (generate H api params)) -> a = request)
    /\ (forall n, getLengthSync H form = Success n ->
          ((n <= 50 * 1024 * 1024)%Z ->
           actions (generate H api params) = [request])
          /\ ((50 * 1024 * 1024 < n)%Z ->
              generate H api params = ([], Throw (Own (msg_payload n)))))
    /\ (forall s, prompt params = FString s ->
          In (textField "prompt" s) form)
    /\ (truthy (renderingSpeed params) = false ->
        In (textField "rendering_speed" (js "DEFAULT")) form)
    /\ (truthy (magicPrompt params) = false ->
        In (textField "magic_prompt" (js "AUTO")) form)
    /\ (truthy (numImages params) = false ->
        In (textField "num_images" (js "1")) form)
    /\ (forall n, numImages params = FInt n -> n <> 0%Z ->
          (isSafeInteger n = true ->
           In (textField "num_images" (decZ n)) form)
          /\ (isSafeInteger n = false ->
              In (textField "num_images" (numberToString H n)) form)).
Proof.
  intros Hkey. unfold generate.
  match goal with
  | |- context [makeRequest H api ENDPOINTS.GENERATE_V3 ?fd] =>
      exists fd; set (form := fd)
  end.
  cbv zeta. split; [|split].
  - intros a Hin. now apply makeRequest_posts in Hin.
  - intros n Hn. rewrite (makeRequest_run _ _ _ _ Hkey), checkSize_run, Hn.
    cbn [snd]. unfold MAX_REQUEST_SIZE.
    destruct (Z.ltb_spec (50 * 1024 * 1024) n); split; intros; try lia;
      reflexivity.
  - subst form. repeat split.
    + intros s Hs. apply text_field_sent. rewrite Hs. cbn. auto.
    + intros Hv.
      apply (default_sent H _ _ (renderingSpeed params)); [|exact Hv].
      cbn. auto 10.
    + intros Hv. apply (default_sent H _ _ (magicPrompt params)); [|exact Hv].
      cbn. auto 10.
    + intros Hv. rewrite buildFormData_parts, in_flat_map.
      exists (js "num_images", FInt 1). split.
      * unfold orElse. rewrite Hv. cbn. auto 12.
      * now left.
    + intros Hsafe.
      assert (Hsent := number_field_sent H
                [ (js "prompt", prompt params);
                  (js "seed", seed params);
                  (js "resolution", resolution params);
                  (js "aspect_ratio", aspectRatio params);
                  (js "rendering_speed",
                   orElse (renderingSpeed params) DEFAULT);
                  (js "magic_prompt", orElse (magicPrompt params) AUTO);
                  (js "negative_prompt", negativePrompt params);
                  (js "num_images", orElse (numImages params) (FInt 1));
                  (js "color_palette", colorPalette params);
                  (js "style_codes", styleCodes params);
                  (js "style_type", styleType params);
                  (js "style_preset", stylePreset params) ]
                "num_images" n).
      rewrite Hsafe in Hsent. apply Hsent.
      unfold orElse. rewrite H0. cbn [truthy].
      destruct (Z.eqb_spec n 0); [contradiction|]. cbn. auto 12.
    + intros Hbig.
      assert (Hsent := number_field_sent H
                [ (js "prompt", prompt params);
                  (js "seed", seed params);
                  (js "resolution", resolution params);
                  (js "aspect_ratio", aspectRatio params);
                  (js "rendering_speed",
                   orElse (renderingSpeed params) DEFAULT);
                  (js "magic_prompt", orElse (magicPrompt params) AUTO);
                  (js "negative_prompt", negativePrompt params);
                  (js "num_images", orElse (numImages params) (FInt 1));
                  (js "color_palette", colorPalette params);
                  (js "style_codes", styleCodes params);
                  (js "style_type", styleType params);
                  (js "style_preset", stylePreset params) ]
                "num_images" n).
      rewrite Hbig in Hsent. apply Hsent.
      unfold orElse. rewrite H0. cbn [truthy].
      destruct (Z.eqb_spec n 0); [contradiction|]. cbn. auto 12.
Qed.

(** The prompt 'a cat' alone. *)
Lemma generate_fills_in_the_defaults_witness :
  apiKey Lab.client <> []
  /\ actions (generate Lab.host Lab.client (promptOnly (js "a cat")))
     = [postOf Lab.client ENDPOINTS.GENERATE_V3 Lab.catForm]
  /\ In (textField "num_images" (js "1")) Lab.catForm.
Proof.
  assert (Hkey : apiKey Lab.client <> []) by discriminate.
  split; [exact Hkey|]. split; [reflexivity|].
  destruct (generate_fills_in_the_defaults Lab.host Lab.client
              (promptOnly (js "a cat")) Hkey)
    as (form & Hone & _ & _ & _ & _ & Hnum & _).
  assert (Hform : postOf Lab.client ENDPOINTS.GENERATE_V3 Lab.catForm
                  = HttpPost
                      (baseUrl Lab.client ++ js "/v1/ideogram-v3/generate")
                      form (postConfig Lab.client))
    by (apply Hone; left; reflexivity).
  injection Hform as ->. exact (Hnum eq_refl).
Defined.

(** X13: [reframe] checks the square before anything else: when
    [assertSquareImage] fails, [reframe] fails with the same error
    without reading the file for upload and without a request; and a
    request is made only after the decoder reported equal width and
    height for the Buffer or for the path, with the loaded bytes in the
    field 'image': the measured Buffer itself, or what the path yields
    when it is read for the upload. *)
Theorem reframe_checks_the_square_first
  (H : Host) (api : IdeogramAPI) (params : OperationParams) (image : image) :
  (forall e,
      result (Utils.assertSquareImage (base H) (source image)) = Throw e ->
      reframe H api params image = ([], Throw e))
  /\ (forall url form cfg,
        In (HttpPost url form cfg) (actions (reframe H api params image)) ->
        (exists d, Spec.readDimensions (base H) (source image) = Success d
                   /\ width d = height d)
        /\ url = baseUrl api ++ js "/v1/ideogram-v3/reframe"
        /\ exists b, loaded H image b /\ In (fileField "image" b) form).
Proof.
  unfold reframe.
  pose proof (SquareSpec.assertSquareImage_run (base H) (source image))
    as Hrun.
  split.
  - intros e He. apply andThen_throw_eq.
    + rewrite lift_outcome. exact He.
    + rewrite lift_actions, Hrun. reflexivity.
  - intros url form cfg Hin.
    destruct (andThen_actions
                (lift (Utils.assertSquareImage (base H) (source image)))
                (fun _ =>
                   andThen (bufferOf H image)
                     (fun imageBuffer =>
                        makeRequest H api ENDPOINTS.REFRAME_V3
                          (buildFormData H
                             [ (js "image", FBuffer imageBuffer);
                               (js "resolution", resolution params);
                               (js "num_images",
                                orElse (numImages params) (FInt 1));
                               (js "seed", seed params);
                               (js "rendering_speed",
                                orElse (renderingSpeed params) DEFAULT);
                               (js "style_preset", stylePreset params);
                               (js "color_palette", colorPalette params);
                               (js "style_codes", styleCodes params) ]))))
      as [E|[[] [Hsq E]]]; rewrite E in Hin;
      rewrite lift_actions, Hrun in Hin; cbn [trace fst map app] in Hin;
      [contradiction|].
    rewrite lift_outcome, Hrun in Hsq. cbn [result snd] in Hsq.
    split.
    { destruct (Spec.readDimensions (base H) (source image)) as [d|e];
        [|discriminate].
      exists d. split; [reflexivity|].
      destruct (N.eqb_spec (width d) (height d)); [assumption|discriminate]. }
    apply post_after_load in Hin as [b [Hb Hin]]; [|reflexivity].
    apply makeRequest_posts in Hin. unfold postOf in Hin.
    injection Hin as -> -> ->. split; [reflexivity|].
    exists b. split; [exact Hb|]. apply file_field_sent. now left.
Qed.

(** X14: [edit] loads the image first and the mask second: when the image
    cannot be loaded the call fails with that error and the mask is never
    read; and a request is made only when both were loaded, to base URL +
    '/v1/ideogram-v3/edit', with their bytes in the fields 'image' and
    'mask'.  A Buffer is sent as it is.  A path is read twice: the first
    read must find a file that is not empty and starts with a known
    signature, and the bytes of the second read are sent when they are at
    most 50 MiB, whatever they are. *)
Theorem edit_loads_the_image_then_the_mask
  (H : Host) (api : IdeogramAPI) (params : OperationParams)
  (image mask : image) :
  (forall e, outcome_of (bufferOf H image) = Throw e ->
     edit H api params image mask = (actions (bufferOf H image), Throw e))
  /\ (forall url form cfg,
        In (HttpPost url form cfg) (actions (edit H api params image mask)) ->
        url = baseUrl api ++ js "/v1/ideogram-v3/edit"
        /\ exists bi bm,
             loaded H image bi
             /\ loaded (afterReads (readsOf image) H) mask bm
             /\ In (fileField "image" bi) form
             /\ In (fileField "mask" bm) form)
  /\ (forall p checked sent,
        readFile (base H) p = Success checked ->
        checked <> [] -> Spec.recognizedSignature checked ->
        readFile (afterRead (base H)) p = Success sent ->
        (Z.of_nat (length sent) <= 50 * 1024 * 1024)%Z ->
        bufferOf H (ImagePath p)
        = ([Core (ReadFile p); Core (ReadFile p)], Return sent)).
Proof.
  unfold edit. split; [|split].
  - intros e He. now apply andThen_throw.
  - intros url form cfg Hin.
    apply post_after_load in Hin as [bi [Hbi Hin]]; [|reflexivity].
    apply post_after_load in Hin as [bm [Hbm Hin]]; [|reflexivity].
    apply makeRequest_posts in Hin. unfold postOf in Hin.
    injection Hin as -> -> ->. split; [reflexivity|].
    exists bi, bm. repeat split; try assumption;
      apply file_field_sent; cbn; auto.
  - intros p checked sent Hfirst Hne Hsig Hsecond Hsize.
    cbn [bufferOf]. unfold lift.
    rewrite AcquireSpec.loadImageAsBuffer_valid
      by (apply FileSpec.validateImagePath_accepts_iff; now exists checked).
    rewrite Hsecond. cbn [fst snd map]. unfold Utils.maxBytes.
    destruct (Z.ltb_spec (50 * 1024 * 1024) (Z.of_nat (length sent)));
      [lia|reflexivity].
Qed.

(** X15: [remix], [replaceBackground], [upscale] and [describe] make a
    request only after the image was loaded, and send the loaded bytes as
    a file named 'image.jpg' (field 'image', or 'image_file' for upscale
    and describe): a Buffer as it is, unchecked; for a path, the bytes of
    the second read of the file, at most 50 MiB of them, after a first
    read that found a file that is not empty and starts with a known
    signature. *)
Theorem image_operations_send_what_was_loaded
  (H : Host) (api : IdeogramAPI) (params : OperationParams) (image : image)
  (url : jsstring) (form : FormData) (cfg : PostConfig) :
  (In (HttpPost url form cfg) (actions (remix H api params image)) ->
   url = baseUrl api ++ js "/v1/ideogram-v3/remix"
   /\ exists b, loaded H image b /\ In (fileField "image" b) form)
  /\ (In (HttpPost url form cfg)
         (actions (replaceBackground H api params image)) ->
      url = baseUrl api ++ js "/v1/ideogram-v3/replace-background"
      /\ exists b, loaded H image b /\ In (fileField "image" b) form)
  /\ (In (HttpPost url form cfg) (actions (upscale H api params image)) ->
      url = baseUrl api ++ js "/upscale"
      /\ exists b, loaded H image b /\ In (fileField "image_file" b) form)
  /\ (In (HttpPost url form cfg) (actions (describe H api params image)) ->
      url = baseUrl api ++ js "/describe"
      /\ exists b, loaded H image b
                   /\ In (fileField "image_file" b) form).
Proof.
  unfold remix, replaceBackground, upscale, describe.
  split; [|split; [|split]];
    (intros Hin;
     apply post_after_load in Hin as [b [Hb Hin]]; [|reflexivity];
     apply makeRequest_posts in Hin; unfold postOf in Hin;
     injection Hin as -> -> ->;
     split; [reflexivity|];
     exists b; (split; [exact Hb|]); apply file_field_sent; cbn; auto).
Qed.

(** A file replaced between the two reads: the PNG header passes the
    check, and the script that took its place is what 'describe'
    uploads. *)
Lemma replaced_file_is_sent_unchecked :
  actions (describe Lab.hostOfReplacedFile Lab.client noParams
             (ImagePath (js "upload.png")))
  = [ Core (ReadFile (js "upload.png")); Core (ReadFile (js "upload.png"));
      postOf Lab.client ENDPOINTS.DESCRIBE
        [fileField "image_file" Lab.script] ]
  /\ Utils.validateImagePath (afterRead Lab.replacedFile) (js "upload.png")
     = ([ReadFile (js "upload.png")],
        Throw (Own (Utils.msg_not_image (js "upload.png")))).
Proof. split; reflexivity. Qed.

End OperationSpec.

(* ================================================================== *)
(** ** Files written: [saveImage] and the command line *)
(* ================================================================== *)

Module SaveSpec.

Import Params Runtime Operations Forms Api Cli Terms JSFacts TaskFacts.

(** [saveImage], settled. *)
Lemma saveImage_run (H : Host) (imageData : field) (outputPath : jsstring) :
  saveImage H imageData outputPath =
  match mkdir H (dirname H outputPath) with
  | Failure e => ([MkDir (dirname H outputPath)], Throw (Foreign e))
  | Success _ =>
      match bytesOf H imageData with
      | None => ([MkDir (dirname H outputPath)], Throw (Own msg_image_data))
      | Some b =>
          ([MkDir (dirname H outputPath); WriteFile outputPath b],
           match writeFile H outputPath b with
           | Success _ => Return outputPath
           | Failure e => Throw (Foreign e)
           end)
      end
  end.
Proof.
  unfold saveImage, fsMkdir, fsWriteFile, andThen.
  destruct (mkdir H (dirname H outputPath)) as [[]|e]; cbn [settle];
    [|reflexivity].
  destruct imageData; cbn [bytesOf]; unfold done, raise; try reflexivity;
    cbn [app];
    match goal with
    | |- context [writeFile H outputPath ?b] =>
        destruct (writeFile H outputPath b) as [[]|e]; reflexivity
    end.
Qed.

(** X16: [saveImage] creates the directory of the output path before it
    looks at the data, so the directory is created also when the data is
    neither a Buffer nor a string and the call fails with 'imageData must
    be a Buffer or base64-encoded string'.  It writes at most one file,
    the output path, with the Buffer's bytes or the base64 decoding of
    the string, and it returns the output path only after that write
    succeeded. *)
Theorem saveImage_creates_the_directory_first
  (H : Host) (imageData : field) (outputPath : jsstring) :
  let run := saveImage H imageData outputPath in
  let dir := dirname H outputPath in
  (exists rest, actions run = MkDir dir :: rest
      /\ (rest = []
          \/ exists b, bytesOf H imageData = Some b
                       /\ mkdir H dir = Success tt
                       /\ rest = [WriteFile outputPath b]))
  /\ (bytesOf H imageData = None -> mkdir H dir = Success tt ->
      run = ([MkDir dir], Throw (Own msg_image_data)))
  /\ (forall p, outcome_of run = Return p ->
        p = outputPath
        /\ exists b, bytesOf H imageData = Some b
                     /\ writeFile H outputPath b = Success tt
                     /\ actions run = [MkDir dir; WriteFile outputPath b]).
Proof.
  intros run dir. subst run dir. rewrite saveImage_run.
  destruct (mkdir H (dirname H outputPath)) as [[]|e] eqn:Hmk.
  - destruct (bytesOf H imageData) as [b|] eqn:Hb.
    + split; [|split].
      * eexists. split; [reflexivity|]. right. exists b. auto.
      * discriminate.
      * intros p. cbn [outcome_of snd actions fst].
        destruct (writeFile H outputPath b) as [[]|e] eqn:Hw;
          [|discriminate].
        intros [= <-]. split; [reflexivity|]. exists b. auto.
    + split; [|split].
      * eexists. split; [reflexivity|]. now left.
      * reflexivity.
      * discriminate.
  - split; [|split].
    + eexists. split; [reflexivity|]. now left.
    + discriminate.
    + discriminate.
Qed.

(** [downloadImage] of the command line, settled. *)
Lemma downloadImage_run (H : Host) (url outputPath : jsstring) :
  downloadImage H url outputPath =
  let v := Utils.validateImageUrl (base H) url in
  match result v with
  | Throw e => (map Core (trace v), Throw e)
  | Return _ =>
      match axios_get (base H) url Cli.downloadConfig with
      | Failure e =>
          (map Core (trace v) ++ [Core (HttpGet url Cli.downloadConfig)],
           Throw (Foreign e))
      | Success r =>
          (map Core (trace v) ++ Core (HttpGet url Cli.downloadConfig)
             :: actions (saveImage H (FBuffer (data r)) outputPath),
           match outcome_of (saveImage H (FBuffer (data r)) outputPath) with
           | Return _ => Return tt
           | Throw e => Throw e
           end)
      end
  end.
Proof.
  cbv zeta. unfold downloadImage.
  destruct (result (Utils.validateImageUrl (base H) url)) as [u|e] eqn:Hv.
  - pose proof (UrlStages.validateImageUrl_returns_url _ _ _ Hv) as ->.
    rewrite (andThen_return _ _ url) by (rewrite lift_outcome; exact Hv).
    rewrite lift_actions. cbn [outcome_of actions fst snd].
    destruct (axios_get (base H) url Cli.downloadConfig) as [r|e] eqn:Hget.
    + rewrite (andThen_return _ _ r)
        by (unfold Utils.httpGet, lift, outcome_of; cbn [snd];
            now rewrite Hget).
      cbn [outcome_of actions fst snd].
      change (fst (lift (Utils.httpGet (base H) url downloadConfig)))
        with [Core (HttpGet url downloadConfig)].
      set (save := saveImage H (FBuffer (data r)) outputPath).
      destruct (outcome_of save) as [p|e] eqn:Hs.
      * rewrite (andThen_return _ _ p Hs). cbn [actions done fst snd].
        now rewrite app_nil_r.
      * rewrite (andThen_throw _ _ e Hs). reflexivity.
    + rewrite (andThen_throw _ _ (Foreign e))
        by (unfold Utils.httpGet, lift, outcome_of; cbn [snd];
            now rewrite Hget).
      reflexivity.
  - rewrite (andThen_throw _ _ e) by (rewrite lift_outcome; exact Hv).
    now rewrite lift_actions.
Qed.

(** The URL validation makes no call but at most one DNS lookup. *)
Lemma validateImageUrl_trace (P : Platform) (url : jsstring) :
  trace (Utils.validateImageUrl P url) = []
  \/ exists host, trace (Utils.validateImageUrl P url) = [DnsLookup host].
Proof.
  destruct (UrlStages.preParseScan_cases url) as [Hs|[Hs|Hs]];
    try (rewrite (UrlStages.scan_rejection_is_final P _ _ Hs); now left).
  destruct (parseURL P url) as [u|] eqn:Hp;
    [|rewrite (UrlStages.unparseable_after_scan P _ Hs Hp); now left].
  destruct (str_eqb (protocol u) (js "https:")) eqn:Hproto.
  2:{ apply str_eqb_neq in Hproto.
      rewrite (UrlStages.scheme_after_parse P _ _ Hs Hp Hproto). now left. }
  apply str_eqb_eq in Hproto.
  destruct (arr_includes Utils.blockedHostnames
              (stripBrackets (Utils.lowerHostname P u))) eqn:Hb.
  { apply arr_includes_In in Hb.
    rewrite (UrlStages.blocked_hostname P _ _ Hs Hp Hproto Hb). now left. }
  assert (Hnb : ~ In (stripBrackets (Utils.lowerHostname P u))
                    Utils.blockedHostnames).
  { intros Hin. apply arr_includes_In in Hin. congruence. }
  destruct (isIPv4 P (stripBrackets (Utils.lowerHostname P u))) eqn:H4.
  { rewrite (UrlStages.literal_branch P _ _ Hs Hp Hproto Hnb);
      [now left|now rewrite H4]. }
  destruct (isIPv6 P (stripBrackets (Utils.lowerHostname P u))) eqn:H6.
  { rewrite (UrlStages.literal_branch P _ _ Hs Hp Hproto Hnb);
      [now left|now rewrite H4, H6]. }
  rewrite (UrlStages.domain_branch P _ _ Hs Hp Hproto Hnb H4 H6).
  right. eexists. reflexivity.
Qed.

Lemma validation_makes_no_request (P : Platform) (url : jsstring)
  (a : action) :
  In a (map Core (trace (Utils.validateImageUrl P url))) ->
  exists host, a = Core (DnsLookup host).
Proof.
  destruct (validateImageUrl_trace P url) as [-> |[host ->]]; cbn.
  - intros [].
  - intros [<-|[]]. now exists host.
Qed.

(** X17: the command line's [downloadImage] requests nothing unless
    [validateImageUrl] accepted the URL: on rejection it fails with the
    validation's error after the validation's own calls only.  Otherwise
    it makes one GET of that URL, with a response limit of 100 MiB, a
    timeout of 60 s and at most 5 redirects, and writes the bytes of the
    response to the output path: the Content-Type of the response and
    the format of the bytes are not looked at.  It returns exactly when
    the validation, the GET, the creation of the directory and the write
    all succeeded. *)
Theorem downloadImage_fetches_validated_urls_unchecked
  (H : Host) (url outputPath : jsstring) :
  let run := downloadImage H url outputPath in
  let v := Utils.validateImageUrl (base H) url in
  (forall e, result v = Throw e -> run = (map Core (trace v), Throw e))
  /\ (forall u cfg, In (Core (HttpGet u cfg)) (actions run) ->
        result v = Return url /\ u = url /\ cfg = Cli.downloadConfig
        /\ maxContentLength cfg = (100 * 1024 * 1024)%Z)
  /\ (forall p b, In (WriteFile p b) (actions run) ->
        p = outputPath
        /\ exists r, axios_get (base H) url Cli.downloadConfig = Success r
                     /\ b = data r)
  /\ (outcome_of run = Return tt
      <-> result v = Return url
          /\ exists r, axios_get (base H) url Cli.downloadConfig = Success r
                       /\ mkdir H (dirname H outputPath) = Success tt
                       /\ writeFile H outputPath (data r) = Success tt).
Proof.
  intros run v. subst run. rewrite downloadImage_run. fold v. cbv zeta.
  destruct (result v) as [u0|e0] eqn:Hv.
  2:{ split; [now intros e [= <-]|]. split; [|split].
      - intros u cfg Hin. apply validation_makes_no_request in Hin
          as [host Hin]. discriminate.
      - intros p b Hin. apply validation_makes_no_request in Hin
          as [host Hin]. discriminate.
      - split; [discriminate|]. intros [Habs _]. discriminate. }
  pose proof (UrlStages.validateImageUrl_returns_url _ _ _ Hv) as ->.
  split; [discriminate|].
  destruct (axios_get (base H) url Cli.downloadConfig) as [r|e] eqn:Hget.
  - rewrite saveImage_run. cbn [bytesOf].
    destruct (mkdir H (dirname H outputPath)) as [[]|e] eqn:Hmk;
      cbn [actions outcome_of fst snd].
    + split; [|split].
      * intros u cfg Hin. apply in_app_or in Hin as [Hin|Hin].
        { apply validation_makes_no_request in Hin as [host Hin].
          discriminate. }
        destruct Hin as [Hin|[Hin|[Hin|[]]]]; try discriminate.
        injection Hin as <- <-. auto.
      * intros p b Hin. apply in_app_or in Hin as [Hin|Hin].
        { apply validation_makes_no_request in Hin as [host Hin].
          discriminate. }
        destruct Hin as [Hin|[Hin|[Hin|[]]]]; try discriminate.
        injection Hin as <- <-. split; [reflexivity|]. now exists r.
      * destruct (writeFile H outputPath (data r)) as [[]|e] eqn:Hw.
        { split; [|reflexivity]. intros _. split; [reflexivity|].
          exists r. auto. }
        split; [discriminate|]. intros [_ [r' [Hr' [_ Hw']]]].
        injection Hr' as <-. congruence.
    + split; [|split].
      * intros u cfg Hin. apply in_app_or in Hin as [Hin|Hin].
        { apply validation_makes_no_request in Hin as [host Hin].
          discriminate. }
        destruct Hin as [Hin|[Hin|[]]]; try discriminate.
        injection Hin as <- <-. auto.
      * intros p b Hin. apply in_app_or in Hin as [Hin|Hin].
        { apply validation_makes_no_request in Hin as [host Hin].
          discriminate. }
        destruct Hin as [Hin|[Hin|[]]]; discriminate.
      * split; [discriminate|]. intros [_ [r' [_ [Hmk' _]]]]. discriminate.
  - cbn [actions outcome_of fst snd]. split; [|split].
    + intros u cfg Hin. apply in_app_or in Hin as [Hin|Hin].
      { apply validation_makes_no_request in Hin as [host Hin].
        discriminate. }
      destruct Hin as [Hin|[]]. injection Hin as <- <-. auto.
    + intros p b Hin. apply in_app_or in Hin as [Hin|Hin].
      { apply validation_makes_no_request in Hin as [host Hin].
        discriminate. }
      destruct Hin as [Hin|[]]. discriminate.
    + split; [discriminate|]. intros [_ [r' [Hr' _]]]. discriminate.
Qed.

End SaveSpec.

(* ================================================================== *)
(** ** The names [saveResults] gives to the images *)
(* ================================================================== *)

Module BatchSpec.

Import Params Runtime Operations Forms Api Cli Terms JSFacts TaskFacts.
Import ParamsFacts SaveSpec.

(** Lower-casing an ASCII prefix does not look at what follows. *)
Lemma toLowerCase_ascii_app (f : jsstring -> codeunit -> jsstring -> jsstring)
  (a b before : jsstring) :
  ascii_only a ->
  toLowerCase_from f before (a ++ b)
  = map lowerAscii a ++ toLowerCase_from f (before ++ a) b.
Proof.
  intros Ha. revert before.
  induction Ha as [|c a Hc Ha IH]; intros before; cbn [app map].
  - now rewrite app_nil_r.
  - cbn [toLowerCase_from]. apply N.ltb_lt in Hc. rewrite Hc.
    cbn [app]. rewrite IH, <- app_assoc. reflexivity.
Qed.

Lemma toLowerCase_ascii (f : jsstring -> codeunit -> jsstring -> jsstring)
  (a before : jsstring) :
  ascii_only a -> toLowerCase_from f before a = map lowerAscii a.
Proof.
  intros Ha. rewrite <- (app_nil_r a) at 1.
  rewrite (toLowerCase_ascii_app f a [] before Ha). cbn. apply app_nil_r.
Qed.

Lemma digit_is_kept (c : codeunit) :
  isDigit c = true ->
  (c < 128)%N /\ lowerAscii c = c /\ isWhiteSpace c = false
  /\ Utils.isLowerAlnum c = true.
Proof.
  intros Hc. destruct (digit_facts c Hc) as (Hws & _).
  unfold isDigit in Hc. apply andb_prop in Hc as [H1 H2].
  apply N.leb_le in H1. apply N.leb_le in H2.
  repeat split; [lia| |exact Hws|].
  - unfold lowerAscii, isUpper.
    destruct (N.leb_spec 65 c); [lia|reflexivity].
  - unfold Utils.isLowerAlnum, isDigit.
    destruct (N.leb_spec 48 c); [|lia].
    destruct (N.leb_spec c 57); [|lia]. apply orb_true_r.
Qed.

(** What is left of the index suffix after lower-casing and stripping:
    its digits. *)
Lemma suffix_stripped (f : jsstring -> codeunit -> jsstring -> jsstring)
  (before : jsstring) (n : N) :
  removeAll (fun c => negb (Utils.isLowerAlnum c || isWhiteSpace c))
    (toLowerCase_from f before (js "-" ++ dec n))
  = dec n.
Proof.
  assert (Hd := dec_digits n).
  rewrite toLowerCase_ascii.
  2:{ constructor; [reflexivity|].
      eapply Forall_impl; [|exact Hd]. intros c Hc.
      now apply digit_is_kept in Hc. }
  change (js "-" ++ dec n) with (45%N :: dec n).
  unfold removeAll.
  set (keep := fun c => negb (negb (Utils.isLowerAlnum c || isWhiteSpace c))).
  assert (Hminus : keep (lowerAscii 45%N) = false) by reflexivity.
  cbn [map filter]. rewrite Hminus.
  induction Hd as [|c l Hc Hl IH]; [reflexivity|].
  cbn [map filter].
  destruct (digit_is_kept c Hc) as (_ & -> & _ & Hk).
  unfold keep at 1. rewrite Hk. cbn [orb negb]. now rewrite IH.
Qed.

Lemma removeAll_app (cls : codeunit -> bool) (a b : jsstring) :
  removeAll cls (a ++ b) = removeAll cls a ++ removeAll cls b.
Proof. unfold removeAll. apply filter_app. Qed.

Lemma dropWhile_app_stop (f : codeunit -> bool) (a d : jsstring) :
  match d with c :: _ => f c = false | [] => True end ->
  dropWhile f (a ++ d) = dropWhile f a ++ d.
Proof.
  intros Hd. induction a as [|c a IH]; cbn [app dropWhile].
  - destruct d as [|c d]; [reflexivity|]. cbn. now rewrite Hd.
  - destruct (f c); [exact IH|reflexivity].
Qed.

Lemma dropWhile_suffix (f : codeunit -> bool) (s : jsstring) :
  exists w, s = w ++ dropWhile f s.
Proof.
  induction s as [|c s [w IH]]; [now exists []|].
  cbn [dropWhile]. destruct (f c).
  - exists (c :: w). cbn. now rewrite <- IH.
  - now exists [].
Qed.

Lemma dropWhileEnd_prefix (f : codeunit -> bool) (s : jsstring) :
  exists w, s = dropWhileEnd f s ++ w.
Proof.
  unfold dropWhileEnd. destruct (dropWhile_suffix f (rev s)) as [w Hw].
  exists (rev w). rewrite <- rev_app_distr, <- Hw. now rewrite rev_involutive.
Qed.

Lemma dropWhileEnd_app_stop (f : codeunit -> bool) (x d : jsstring)
  (c : codeunit) :
  f c = false -> dropWhileEnd f (x ++ d ++ [c]) = x ++ d ++ [c].
Proof.
  intros Hc. unfold dropWhileEnd.
  rewrite !rev_app_distr. cbn [rev app dropWhile]. rewrite Hc.
  change (c :: rev d ++ rev x) with (rev [c] ++ rev d ++ rev x).
  rewrite <- !rev_app_distr, rev_involutive. now rewrite <- app_assoc.
Qed.

Lemma hyphenate_from_app (b : bool) (y w : jsstring) :
  exists t, hyphenate_from b (y ++ w) = hyphenate_from b y ++ t.
Proof.
  revert b. induction y as [|c y IH]; intros b; cbn [app hyphenate_from].
  - now exists (hyphenate_from b w).
  - destruct (isWhiteSpace c).
    + destruct (IH true) as [t ->]. exists t. now rewrite app_assoc.
    + destruct (IH false) as [t ->]. now exists t.
Qed.

(** The slug of the prompt is a prefix of the untruncated slug of the
    prompt followed by an index. *)
Lemma slug_prefix (P : Platform) (prompt : jsstring) (n : N) :
  ascii_only prompt ->
  exists t,
    hyphenate
      (trim
         (removeAll (fun c => negb (Utils.isLowerAlnum c || isWhiteSpace c))
            (toLowerCase (lowerNonAscii P) (prompt ++ js "-" ++ dec n))))
    = hyphenate
        (trim
           (removeAll (fun c => negb (Utils.isLowerAlnum c || isWhiteSpace c))
              (toLowerCase (lowerNonAscii P) prompt)))
      ++ t.
Proof.
  intros Ha. unfold toLowerCase.
  rewrite (toLowerCase_ascii_app _ _ _ [] Ha), (toLowerCase_ascii _ _ [] Ha).
  rewrite removeAll_app, suffix_stripped.
  set (A := removeAll _ (map lowerAscii prompt)).
  (* the digits end the string, so trimming stops at them *)
  assert (Hd := dec_digits n). assert (Hne := dec_nonempty n).
  destruct (exists_last Hne) as [d [c Hdc]]. rewrite Hdc in *.
  assert (Hc : isWhiteSpace c = false).
  { apply Forall_app in Hd as [_ Hd]. inversion Hd as [|? ? Hcd _]; subst.
    now apply digit_is_kept in Hcd. }
  assert (Hhead : match d ++ [c] with
                  | c0 :: _ => isWhiteSpace c0 = false
                  | [] => True
                  end).
  { destruct d as [|c0 d]; cbn [app]; [exact Hc|].
    inversion Hd as [|? ? Hc0 _]; subst. now apply digit_is_kept in Hc0. }
  unfold trim. rewrite (dropWhile_app_stop _ _ _ Hhead).
  rewrite (dropWhileEnd_app_stop _ _ _ _ Hc).
  remember (dropWhile isWhiteSpace A) as X eqn:HX.
  destruct (dropWhileEnd_prefix isWhiteSpace X) as [w Hw].
  remember (dropWhileEnd isWhiteSpace X) as Y eqn:HY.
  clear HX HY. subst X. rewrite <- app_assoc.
  unfold hyphenate. apply hyphenate_from_app.
Qed.

(** When the slug of the prompt alone fills the 50 characters, the index
    is cut off. *)
Lemma index_cut_off (P : Platform) (prompt : jsstring) (count i : nat) :
  ascii_only prompt ->
  length (Utils.sanitizePrompt P prompt 50) = 50 ->
  Utils.sanitizePrompt P (filenameBase count prompt i) 50
  = Utils.sanitizePrompt P prompt 50.
Proof.
  intros Ha Hfull. unfold filenameBase.
  destruct (Nat.ltb 1 count); [|reflexivity].
  unfold Utils.sanitizePrompt, substring0 in *.
  destruct (slug_prefix P prompt (N.of_nat (i + 1)) Ha) as [t ->].
  set (y := hyphenate _) in *.
  rewrite firstn_app.
  assert (Hlen : Z.to_nat 50 <= length y).
  { rewrite length_firstn in Hfull. change (Z.to_nat 50) with 50 in *. lia. }
  replace (Z.to_nat 50 - length y) with 0 by lia.
  cbn [firstn]. apply app_nil_r.
Qed.

(** X19: [saveResults] tells the images of a batch apart by appending
    '-1', '-2', ... to the prompt before it builds the file name; the
    name keeps 50 characters of the slug.  So for an ASCII prompt whose
    own slug already has 50 characters the index is cut off: every image
    of the batch gets the file name of the bare prompt, and two images
    named at the same clock reading get the same name. *)
Theorem batch_index_is_cut_off_for_long_prompts
  (P : Platform) (prompt : jsstring) (count i j : nat) :
  ascii_only prompt ->
  length (Utils.sanitizePrompt P prompt 50) = 50 ->
  Utils.generateFilename P (filenameBase count prompt i) None None
  = Utils.generateFilename P prompt None None
  /\ Utils.generateFilename P (filenameBase count prompt i) None None
     = Utils.generateFilename P (filenameBase count prompt j) None None.
Proof.
  intros Ha Hfull. unfold Utils.generateFilename.
  now rewrite !(index_cut_off P prompt count _ Ha Hfull).
Qed.

(** Sixty times the letter 'a', the first two images of a batch. *)
Lemma batch_index_is_cut_off_for_long_prompts_witness :
  ascii_only Lab.longPrompt
  /\ length (Utils.sanitizePrompt Node.platform Lab.longPrompt 50) = 50
  /\ Utils.generateFilename Node.platform (filenameBase 2 Lab.longPrompt 0)
       None None
     = Utils.generateFilename Node.platform (filenameBase 2 Lab.longPrompt 1)
         None None.
Proof.
  assert (Ha : ascii_only Lab.longPrompt).
  { apply Forall_forall. intros c Hc. apply repeat_spec in Hc. subst c.
    reflexivity. }
  assert (Hfull : length (Utils.sanitizePrompt Node.platform Lab.longPrompt 50)
                  = 50) by (vm_compute; reflexivity).
  split; [exact Ha|]. split; [exact Hfull|].
  exact (proj2 (batch_index_is_cut_off_for_long_prompts Node.platform
                  Lab.longPrompt 2 0 1 Ha Hfull)).
Defined.

Lemma fetched_app (a b : list action) :
  fetched (a ++ b) = fetched a ++ fetched b.
Proof.
  induction a as [|x a IH]; [reflexivity|].
  cbn [app fetched]. destruct x as [[h|q|u c]| | | |]; cbn [app];
    now rewrite ?IH.
Qed.

Lemma validation_fetches_nothing (P : Platform) (url : jsstring) :
  fetched (map Core (trace (Utils.validateImageUrl P url))) = []
  /\ filter isImageWrite (map Core (trace (Utils.validateImageUrl P url)))
     = [].
Proof.
  destruct (validateImageUrl_trace P url) as [-> |[host ->]]; now split.
Qed.

(** One download: what it fetches and what it writes. *)
Lemma downloadImage_summary (H : Host) (url outputPath : jsstring) :
  let run := downloadImage H url outputPath in
  (forall p b, In (WriteFile p b) (actions run) -> p = outputPath)
  /\ (forall p t, ~ In (WriteText p t) (actions run))
  /\ (fetched (actions run) = [] \/ fetched (actions run) = [url])
  /\ (outcome_of run = Return tt ->
      fetched (actions run) = [url]
      /\ length (filter isImageWrite (actions run)) = 1).
Proof.
  cbv zeta. rewrite downloadImage_run. cbv zeta.
  pose proof (validation_fetches_nothing (base H) url) as [Hf Hw].
  assert (Hcore : forall a,
             In a (map Core (trace (Utils.validateImageUrl (base H) url))) ->
             exists host, a = Core (DnsLookup host))
    by apply validation_makes_no_request.
  destruct (result (Utils.validateImageUrl (base H) url)) as [u0|e0].
  2:{ cbn [actions outcome_of fst snd]. rewrite Hf.
      repeat split; try (now left); try discriminate.
      - intros p b Hin. apply Hcore in Hin as [h Hin]. discriminate.
      - intros p t Hin. apply Hcore in Hin as [h Hin]. discriminate. }
  destruct (axios_get (base H) url Cli.downloadConfig) as [r|e].
  2:{ cbn [actions outcome_of fst snd]. rewrite fetched_app, Hf.
      repeat split; try (now right); try discriminate.
      - intros p b Hin. apply in_app_or in Hin as [Hin|[Hin|[]]];
          [apply Hcore in Hin as [h Hin]|]; discriminate.
      - intros p t Hin. apply in_app_or in Hin as [Hin|[Hin|[]]];
          [apply Hcore in Hin as [h Hin]|]; discriminate. }
  rewrite saveImage_run. cbn [bytesOf].
  destruct (mkdir H (dirname H outputPath)) as [[]|e];
    cbn [actions outcome_of fst snd];
    rewrite fetched_app, Hf, ?filter_app, ?Hw; cbn [app fetched].
  - repeat split; try (now right).
    + intros p b Hin. apply in_app_or in Hin as [Hin|Hin].
      { apply Hcore in Hin as [h Hin]. discriminate. }
      destruct Hin as [Hin|[Hin|[Hin|[]]]]; try discriminate.
      now injection Hin as <- _.
    + intros p t Hin. apply in_app_or in Hin as [Hin|Hin].
      { apply Hcore in Hin as [h Hin]. discriminate. }
      destruct Hin as [Hin|[Hin|[Hin|[]]]]; discriminate.
  - repeat split; try (now right); try discriminate.
    + intros p b Hin. apply in_app_or in Hin as [Hin|Hin].
      { apply Hcore in Hin as [h Hin]. discriminate. }
      destruct Hin as [Hin|[Hin|[]]]; discriminate.
    + intros p t Hin. apply in_app_or in Hin as [Hin|Hin].
      { apply Hcore in Hin as [h Hin]. discriminate. }
      destruct Hin as [Hin|[Hin|[]]]; discriminate.
Qed.

Section Loop.

Variable H : Host.
Variable clock : nat -> Date.
Variables promptOrName outputDir : jsstring.
Variable count : nat.

Lemma saveEach_cons (i : nat) (image : ImageData) (rest : list ImageData) :
  saveEach H clock promptOrName outputDir count i (image :: rest)
  = andThen (downloadImage H (url image)
               (pathOf H clock promptOrName outputDir count i))
      (fun _ => saveEach H clock promptOrName outputDir count (S i) rest).
Proof. reflexivity. Qed.

(** The loop over the images. *)
Lemma saveEach_summary (images : list ImageData) (i : nat) :
  let run := saveEach H clock promptOrName outputDir count i images in
  (forall p b, In (WriteFile p b) (actions run) ->
     exists j, i <= j < i + length images
               /\ p = pathOf H clock promptOrName outputDir count j)
  /\ (forall p t, ~ In (WriteText p t) (actions run))
  /\ (exists k, k <= length images
                /\ fetched (actions run) = map url (firstn k images)
                /\ (outcome_of run = Return tt -> k = length images))
  /\ (outcome_of run = Return tt ->
      length (filter isImageWrite (actions run)) = length images).
Proof.
  cbv zeta. revert i. induction images as [|image rest IH]; intros i.
  - cbn. repeat split; try contradiction; try tauto.
    exists 0. repeat split; lia.
  - rewrite saveEach_cons.
    pose proof (downloadImage_summary H (url image)
                  (pathOf H clock promptOrName outputDir count i))
      as (Dw & Dt & Df & Dr).
    cbv zeta in Dw, Dt, Df, Dr.
    destruct (IH (S i)) as (Rw & Rt & (k & Hk & Rf & Rk) & Rr).
    destruct (outcome_of (downloadImage H (url image)
               (pathOf H clock promptOrName outputDir count i)))
      as [[]|e] eqn:Hd.
    + rewrite (andThen_return _ _ tt Hd).
      cbn [actions outcome_of fst snd].
      destruct (Dr eq_refl) as [Dfetch Dcount].
      split; [|split; [|split]].
      * intros p b Hin. apply in_app_or in Hin as [Hin|Hin].
        { exists i. split; [cbn [length]; lia|]. now apply Dw in Hin. }
        destruct (Rw p b Hin) as [j [Hj Hp]]. exists j.
        split; [cbn [length]; lia|exact Hp].
      * intros p t Hin. apply in_app_or in Hin as [Hin|Hin].
        { now apply Dt in Hin. } now apply Rt in Hin.
      * exists (S k). cbn [length firstn map]. split; [lia|].
        split; [rewrite fetched_app; unfold actions in *;
                now rewrite Dfetch, Rf|].
        intros Hr. now rewrite (Rk Hr).
      * intros Hr. rewrite filter_app, length_app. unfold actions in *.
        rewrite Dcount, (Rr Hr). reflexivity.
    + rewrite (andThen_throw _ _ e Hd). cbn [actions outcome_of fst snd].
      split; [|split; [|split]].
      * intros p b Hin. exists i. split; [cbn [length]; lia|].
        now apply Dw in Hin.
      * exact Dt.
      * destruct Df as [Df|Df].
        { exists 0. cbn [firstn map]. repeat split; [lia|exact Df|].
          discriminate. }
        exists 1. cbn [firstn map length]. repeat split; [lia|exact Df|].
        discriminate.
      * discriminate.
Qed.

Lemma downloadsFrom_app (before rest : list ImageData) (i : nat) :
  downloadsFrom H clock promptOrName outputDir count i (before ++ rest)
  = downloadsFrom H clock promptOrName outputDir count i before
    ++ downloadsFrom H clock promptOrName outputDir count
         (i + length before) rest.
Proof.
  revert i. induction before as [|image before IH]; intros i; cbn.
  - now rewrite Nat.add_0_r.
  - rewrite IH. now rewrite Nat.add_succ_r.
Qed.

Lemma saveEach_all_return (images : list ImageData) (i : nat) :
  allReturn (downloadsFrom H clock promptOrName outputDir count i images) ->
  saveEach H clock promptOrName outputDir count i images
  = (actionsOf (downloadsFrom H clock promptOrName outputDir count i images),
     Return tt).
Proof.
  revert i. induction images as [|image rest IH]; intros i Hall.
  - reflexivity.
  - cbn [downloadsFrom] in Hall. inversion Hall as [|d l Hd Hrest]; subst.
    rewrite saveEach_cons. rewrite (andThen_return _ _ tt Hd).
    rewrite (IH (S i) Hrest). reflexivity.
Qed.

Lemma saveEach_first_failure (before : list ImageData) (image : ImageData)
  (rest : list ImageData) (e : error) (i : nat) :
  allReturn (downloadsFrom H clock promptOrName outputDir count i before) ->
  outcome_of (downloadImage H (url image)
                (pathOf H clock promptOrName outputDir count
                   (i + length before))) = Throw e ->
  saveEach H clock promptOrName outputDir count i (before ++ image :: rest)
  = (actionsOf (downloadsFrom H clock promptOrName outputDir count i
                  (before ++ [image])),
     Throw e).
Proof.
  revert i. induction before as [|b before IH]; intros i Hall He.
  - cbn [app length] in *. rewrite Nat.add_0_r in He.
    rewrite saveEach_cons. rewrite (andThen_throw _ _ e He).
    cbn. now rewrite app_nil_r.
  - cbn [downloadsFrom] in Hall. inversion Hall as [|d l Hd Hrest]; subst.
    cbn [app]. rewrite saveEach_cons. rewrite (andThen_return _ _ tt Hd).
    cbn [length] in He. rewrite Nat.add_succ_r in He.
    rewrite (IH (S i) Hrest He). reflexivity.
Qed.

Lemma all_return_fetches_all (images : list ImageData) (i : nat) :
  allReturn (downloadsFrom H clock promptOrName outputDir count i images) ->
  fetched (actionsOf (downloadsFrom H clock promptOrName outputDir count i
                        images)) = map url images
  /\ length (filter isImageWrite
               (actionsOf (downloadsFrom H clock promptOrName outputDir count
                             i images))) = length images.
Proof.
  revert i. induction images as [|image rest IH]; intros i Hall.
  - now split.
  - cbn [downloadsFrom] in Hall. inversion Hall as [|d l Hd Hrest]; subst.
    destruct (IH (S i) Hrest) as [Hf Hw].
    pose proof (downloadImage_summary H (url image)
                  (pathOf H clock promptOrName outputDir count i))
      as (_ & _ & _ & Dr).
    destruct (Dr Hd) as [Df Dw].
    cbn [downloadsFrom actionsOf flat_map map length].
    unfold actionsOf in Hf, Hw.
    rewrite fetched_app, filter_app, length_app, Df, Dw, Hf, Hw.
    now split.
Qed.

End Loop.

(** [saveResults], step by step. *)
Lemma saveResults_run (H : Host) (clock : nat -> Date)
  (response : GenerationResponse)
  (operation promptOrName baseOutputDir : jsstring) (options : field) :
  let images := extractImages response in
  let outputDir := pathJoin H baseOutputDir operation in
  let loop :=
    saveEach H clock promptOrName outputDir (length images) 0 images in
  images <> [] ->
  exists metadata : task unit,
    saveResults H clock response operation promptOrName baseOutputDir options
    = match mkdir H outputDir with
      | Failure e => ([MkDir outputDir], Throw (Foreign e))
      | Success _ =>
          match outcome_of loop with
          | Throw e => (MkDir outputDir :: actions loop, Throw e)
          | Return _ =>
              (MkDir outputDir :: actions loop ++ actions metadata,
               outcome_of metadata)
          end
      end
    /\ (exists p t, actions metadata = [WriteText p t]).
Proof.
  cbv zeta. intros Hne. unfold saveResults.
  destruct (extractImages response) as [|image rest] eqn:Himages;
    [congruence|].
  cbn [length Nat.eqb].
  set (images := image :: rest).
  set (outputDir := pathJoin H baseOutputDir operation).
  set (loop := saveEach H clock promptOrName outputDir (S (length rest)) 0
                 images).
  match goal with
  | |- context [andThen (saveMetadata H ?p ?m) ?k] =>
      exists (andThen (saveMetadata H p m) k);
      set (metadata := andThen (saveMetadata H p m) k)
  end.
  split.
  - unfold ensureDirectory, fsMkdir.
    destruct (mkdir H outputDir) as [[]|e]; cbn [settle];
      [|reflexivity].
    unfold andThen at 1 2. cbn [done app].
    destruct (outcome_of loop) as [[]|e] eqn:Hl.
    + rewrite (andThen_return _ _ tt Hl). reflexivity.
    + rewrite (andThen_throw _ _ e Hl). reflexivity.
  - subst metadata. unfold saveMetadata, fsWriteText, andThen, done.
    do 2 eexists.
    match goal with
    | |- context [settle ?x] => destruct x as [[]|e]
    end; cbn; reflexivity.
Qed.

(** [saveResults], step by step, with the metadata file. *)
Lemma saveResults_settled (H : Host) (clock : nat -> Date)
  (response : GenerationResponse)
  (operation promptOrName baseOutputDir : jsstring) (options : field) :
  let images := extractImages response in
  let outputDir := pathJoin H baseOutputDir operation in
  let loop :=
    saveEach H clock promptOrName outputDir (length images) 0 images in
  let metadataPath :=
    metadataPathOf H clock promptOrName outputDir (length images) in
  images <> [] ->
  exists text,
    saveResults H clock response operation promptOrName baseOutputDir options
    = match mkdir H outputDir with
      | Failure e => ([MkDir outputDir], Throw (Foreign e))
      | Success _ =>
          match outcome_of loop with
          | Throw e => (MkDir outputDir :: actions loop, Throw e)
          | Return _ =>
              (MkDir outputDir :: actions loop
                 ++ [WriteText metadataPath text],
               match writeText H metadataPath text with
               | Success _ => Return tt
               | Failure e => Throw (Foreign e)
               end)
          end
      end.
Proof.
  cbv zeta. intros Hne. unfold saveResults.
  destruct (extractImages response) as [|image rest] eqn:Himages;
    [congruence|].
  cbn [length Nat.eqb].
  set (images := image :: rest).
  set (outputDir := pathJoin H baseOutputDir operation).
  set (loop := saveEach H clock promptOrName outputDir (S (length rest)) 0
                 images).
  match goal with
  | |- context [saveMetadata H ?p ?m] =>
      exists (stringifyPretty H m)
  end.
  unfold ensureDirectory, fsMkdir.
  destruct (mkdir H outputDir) as [[]|e]; cbn [settle];
    [|reflexivity].
  unfold andThen at 1 2. cbn [done app].
  destruct (outcome_of loop) as [[]|e] eqn:Hl.
  - rewrite (andThen_return _ _ tt Hl).
    unfold saveMetadata, fsWriteText, metadataPathOf.
    match goal with
    | |- context [settle ?x] => destruct x as [[]|e]
    end; reflexivity.
  - rewrite (andThen_throw _ _ e Hl). reflexivity.
Qed.

(** X18: [saveResults] does nothing at all when the response has no
    images.  Otherwise it creates the output directory and, if that
    fails, stops there.  Then it downloads the images one after the
    other in the order of the response and stops at the first download
    that fails: the call fails with that download's error, it has done
    what the downloads up to that one did and nothing else, so that no
    later image is requested and no metadata is written.  When every
    download returns, the metadata file is written after them, and the
    call returns exactly when that write succeeds. *)
Theorem saveResults_stops_at_the_first_failure
  (H : Host) (clock : nat -> Date) (response : GenerationResponse)
  (operation promptOrName baseOutputDir : jsstring) (options : field) :
  let run :=
    saveResults H clock response operation promptOrName baseOutputDir
      options in
  let images := extractImages response in
  let dir := pathJoin H baseOutputDir operation in
  let downloads :=
    downloadsFrom H clock promptOrName dir (length images) 0 in
  (images = [] -> run = ([], Return tt))
  /\ (images <> [] -> forall e, mkdir H dir = Failure e ->
      run = ([MkDir dir], Throw (Foreign e)))
  /\ (forall before image rest e,
        images = before ++ image :: rest ->
        mkdir H dir = Success tt ->
        allReturn (downloads before) ->
        outcome_of (downloadImage H (url image)
                      (pathOf H clock promptOrName dir (length images)
                         (length before))) = Throw e ->
        run = (MkDir dir :: actionsOf (downloads (before ++ [image])),
               Throw e)
        /\ (fetched (actions run) = map url before
            \/ fetched (actions run) = map url (before ++ [image]))
        /\ forall p t, ~ In (WriteText p t) (actions run))
  /\ (images <> [] ->
      mkdir H dir = Success tt ->
      allReturn (downloads images) ->
      exists text,
        let metadataPath :=
          metadataPathOf H clock promptOrName dir (length images) in
        actions run
        = MkDir dir :: actionsOf (downloads images)
          ++ [WriteText metadataPath text]
        /\ outcome_of run
           = match writeText H metadataPath text with
             | Success _ => Return tt
             | Failure e => Throw (Foreign e)
             end
        /\ fetched (actions run) = map url images
        /\ length (filter isImageWrite (actions run)) = length images).
Proof.
  cbv zeta.
  destruct (extractImages response) as [|image0 rest0] eqn:Himages.
  { unfold saveResults. rewrite Himages. cbn [length Nat.eqb].
    split; [reflexivity|]. split; [congruence|]. split; [|congruence].
    intros before image rest e Habs. now destruct before. }
  assert (Hne : extractImages response <> [])
    by (rewrite Himages; discriminate).
  destruct (saveResults_settled H clock response operation promptOrName
              baseOutputDir options Hne) as [text Hrun].
  rewrite Himages in Hrun. rewrite Hrun. clear Hrun.
  set (dir := pathJoin H baseOutputDir operation).
  remember (length (image0 :: rest0)) as count eqn:Hcount.
  split; [discriminate|]. split; [|split].
  - intros _ e ->. reflexivity.
  - intros before image rest e Hsplit -> Hall He.
    pose proof (saveEach_summary H clock promptOrName dir count
                  (image0 :: rest0) 0) as (_ & Lt & _).
    cbv zeta in Lt. revert Lt. rewrite Hsplit.
    rewrite (saveEach_first_failure H clock promptOrName dir count
               before image rest e 0 Hall He).
    cbn [outcome_of actions fst snd]. intros Lt. split; [reflexivity|].
    split.
    2:{ intros p t [Hin|Hin]; [discriminate|]. now apply Lt in Hin. }
    clear Lt. rewrite downloadsFrom_app. unfold actionsOf.
    rewrite flat_map_app. cbn [downloadsFrom flat_map]. rewrite app_nil_r.
    destruct (all_return_fetches_all H clock promptOrName dir count
                before 0 Hall) as [Hf Hw].
    unfold actionsOf in Hf, Hw.
    pose proof (downloadImage_summary H (url image)
                  (pathOf H clock promptOrName dir count
                     (0 + length before)))
      as (Dw & Dt & Df & Dr).
    cbv zeta in Dw, Dt, Df, Dr.
    cbn [fetched]. rewrite fetched_app, Hf, map_app. cbn [map].
    destruct Df as [-> | ->]; [left; apply app_nil_r|now right].
  - intros _ -> Hall.
    rewrite (saveEach_all_return H clock promptOrName dir count
               (image0 :: rest0) 0 Hall).
    cbn [outcome_of actions fst snd]. exists text.
    destruct (all_return_fetches_all H clock promptOrName dir
                count (image0 :: rest0) 0 Hall) as [Hf Hw].
    split; [reflexivity|]. split; [reflexivity|].
    split.
    + cbn [fetched]. rewrite fetched_app, Hf. cbn [fetched].
      apply app_nil_r.
    + cbn [filter isImageWrite]. rewrite filter_app, length_app, Hw.
      subst count. cbn. lia.
Qed.

(** Three images, the second with an http URL: the first is fetched and
    written, the second is refused, the third is never requested. *)
Lemma saveResults_stops_at_the_first_failure_witness :
  saveResults Lab.host Lab.stillClock Lab.brokenResponse (js "generate")
    (js "a cat") (js "datasets/ideogram") FNull
  = (MkDir (js "datasets/ideogram/generate")
       :: actionsOf
            (downloadsFrom Lab.host Lab.stillClock (js "a cat")
               (js "datasets/ideogram/generate") 3 0
               [Lab.publicImage; Lab.plainHttpImage]),
     Throw (Own (js "Only HTTPS URLs are allowed for security reasons")))
  /\ fetched
       (actions
          (saveResults Lab.host Lab.stillClock Lab.brokenResponse
             (js "generate") (js "a cat") (js "datasets/ideogram") FNull))
     = [js "https://example.com/image.jpg"].
Proof.
  pose proof (saveResults_stops_at_the_first_failure Lab.host Lab.stillClock
                Lab.brokenResponse (js "generate") (js "a cat")
                (js "datasets/ideogram") FNull) as (_ & _ & Hfailure & _).
  cbv zeta in Hfailure.
  destruct (Hfailure [Lab.publicImage] Lab.plainHttpImage [Lab.publicImage]
              (Own (js "Only HTTPS URLs are allowed for security reasons"))
              eq_refl eq_refl)
    as [Hrun _].
  - repeat constructor.
  - reflexivity.
  - split; [exact Hrun|reflexivity].
Defined.

Lemma generateFilename_atClock (P : Platform) (d : Date)
  (prompt : jsstring) :
  Utils.generateFilename (atClock P d) prompt None None
  = Utils.timestampOf d ++ js "_" ++ Utils.sanitizePrompt P prompt 50
    ++ js "." ++ Utils.sanitizeExtension P (js "png").
Proof. reflexivity. Qed.

(** X20: for an ASCII prompt whose slug fills the 50 characters, and
    when all clock readings of the call fall into the same second, every
    image of the batch is written to one and the same path, the one of
    the bare prompt: each image overwrites the one before it, and what
    remains is the last. *)
Theorem long_prompt_batch_overwrites_one_file
  (H : Host) (clock : nat -> Date) (response : GenerationResponse)
  (operation promptOrName baseOutputDir : jsstring) (options : field)
  (p : jsstring) (b : buffer) :
  ascii_only promptOrName ->
  length (Utils.sanitizePrompt (base H) promptOrName 50) = 50 ->
  (forall i, Utils.timestampOf (clock i) = Utils.timestampOf (clock 0)) ->
  In (WriteFile p b)
     (actions (saveResults H clock response operation promptOrName
                 baseOutputDir options)) ->
  p = pathJoin H (pathJoin H baseOutputDir operation)
        (Utils.generateFilename (atClock (base H) (clock 0)) promptOrName
           None None).
Proof.
  intros Ha Hfull Hclock Hin.
  destruct (extractImages response) as [|image rest] eqn:Himages.
  { unfold saveResults in Hin. rewrite Himages in Hin. destruct Hin. }
  assert (Hne : extractImages response <> [])
    by (rewrite Himages; discriminate).
  destruct (saveResults_run H clock response operation promptOrName
              baseOutputDir options Hne) as [metadata [Hrun [mp [mt Hmeta]]]].
  rewrite Hrun in Hin. clear Hrun.
  set (outputDir := pathJoin H baseOutputDir operation) in *.
  pose proof (saveEach_summary H clock promptOrName outputDir
                (length (extractImages response)) (extractImages response) 0)
    as (Lw & _).
  cbv zeta in Lw.
  assert (Hloop : In (WriteFile p b)
            (actions (saveEach H clock promptOrName outputDir
                        (length (extractImages response)) 0
                        (extractImages response)))).
  { destruct (mkdir H outputDir) as [[]|e].
    - destruct (outcome_of _) as [[]|e]; cbn [actions fst] in Hin.
      + destruct Hin as [Hin|Hin]; [discriminate|].
        apply in_app_or in Hin as [Hin|Hin]; [exact Hin|].
        rewrite Hmeta in Hin. destruct Hin as [Hin|[]]. discriminate.
      + destruct Hin as [Hin|Hin]; [discriminate|exact Hin].
    - destruct Hin as [Hin|[]]. discriminate. }
  destruct (Lw p b Hloop) as [j [_ ->]]. unfold pathOf.
  rewrite !generateFilename_atClock, Hclock.
  now rewrite (index_cut_off (base H) promptOrName _ j Ha Hfull).
Qed.

(** Two images for the prompt of sixty letters, within one second. *)
Lemma long_prompt_batch_overwrites_one_file_witness :
  ascii_only Lab.longPrompt
  /\ length (Utils.sanitizePrompt (base Lab.host) Lab.longPrompt 50) = 50
  /\ (forall i, Utils.timestampOf (Lab.stillClock i)
                = Utils.timestampOf (Lab.stillClock 0))
  /\ In (WriteFile Lab.longPromptPath Node.jpegHeader)
        (actions (saveResults Lab.host Lab.stillClock Lab.twoImageResponse
                    (js "generate") Lab.longPrompt (js "datasets/ideogram")
                    FNull))
  /\ Lab.longPromptPath
     = pathJoin Lab.host (pathJoin Lab.host (js "datasets/ideogram")
                            (js "generate"))
         (Utils.generateFilename (atClock (base Lab.host) (Lab.stillClock 0))
            Lab.longPrompt None None).
Proof.
  assert (Ha : ascii_only Lab.longPrompt).
  { apply Forall_forall. intros c Hc. apply repeat_spec in Hc. subst c.
    reflexivity. }
  assert (Hfull : length (Utils.sanitizePrompt (base Lab.host)
                            Lab.longPrompt 50) = 50)
    by (vm_compute; reflexivity).
  assert (Hclock : forall i, Utils.timestampOf (Lab.stillClock i)
                             = Utils.timestampOf (Lab.stillClock 0))
    by reflexivity.
  assert (Hin : In (WriteFile Lab.longPromptPath Node.jpegHeader)
                  (actions (saveResults Lab.host Lab.stillClock
                              Lab.twoImageResponse (js "generate")
                              Lab.longPrompt (js "datasets/ideogram") FNull))).
  { vm_compute. do 4 right. left. reflexivity. }
  split; [exact Ha|]. split; [exact Hfull|]. split; [exact Hclock|].
  split; [exact Hin|].
  exact (long_prompt_batch_overwrites_one_file Lab.host Lab.stillClock
           Lab.twoImageResponse (js "generate") Lab.longPrompt
           (js "datasets/ideogram") FNull _ _ Ha Hfull Hclock Hin).
Defined.

End BatchSpec.

(* ================================================================== *)
(** ** [createSpinner] *)
(* ================================================================== *)

Module SpinnerSpec.

Import Progress.

Lemma run_app (a b : list step) (st : Spinner * Terminal) :
  run (a ++ b) st = run b (run a st).
Proof. apply fold_left_app. Qed.

Lemma existsb_eqb_In (id : nat) (l : list nat) :
  existsb (Nat.eqb id) l = true <-> In id l.
Proof.
  rewrite existsb_exists. split.
  - intros [x [Hin Hx]]. apply Nat.eqb_eq in Hx. now subst.
  - intros Hin. exists id. split; [exact Hin|apply Nat.eqb_refl].
Qed.

(** Firing a running timer [n] times draws [n] frames. *)
Lemma fire_many (id n : nat) (s : Spinner) (t : Terminal) :
  In id (timers t) -> frameIndex s < 10 ->
  run (repeat (Fire id) n) (s, t)
  = ({| message := message s;
        frameIndex := (frameIndex s + n) mod 10;
        interval := interval s |},
     {| written := written t
                   ++ map (fun k => drawn (message s) (frameIndex s + k))
                        (seq 0 n);
        timers := timers t;
        nextTimer := nextTimer t |}).
Proof.
  revert s t. induction n as [|n IH]; intros s t Hid Hlt.
  - unfold run. cbn [repeat fold_left seq map].
    rewrite Nat.add_0_r, Nat.mod_small, app_nil_r by exact Hlt.
    now destruct s, t.
  - cbn [repeat]. unfold run. cbn [fold_left perform].
    apply existsb_eqb_In in Hid as Hex. rewrite Hex.
    fold (run (repeat (Fire id) n) (draw s t)).
    unfold draw. change (length frames) with 10.
    rewrite IH.
    2:{ exact Hid. }
    2:{ cbn [frameIndex]. apply Nat.mod_upper_bound. discriminate. }
    cbn [timers stdoutWrite frameIndex message interval written nextTimer].
    f_equal.
    + f_equal. rewrite Nat.Div0.add_mod_idemp_l. f_equal. lia.
    + f_equal. rewrite <- app_assoc. f_equal. cbn [seq map app].
      f_equal.
      * unfold drawn. rewrite Nat.add_0_r, Nat.mod_small by exact Hlt.
        reflexivity.
      * rewrite <- seq_shift, map_map. apply map_ext.
        intros k. unfold drawn. do 3 f_equal.
        rewrite Nat.Div0.add_mod_idemp_l. f_equal. lia.
Qed.

Lemma filter_fresh (id : nat) (l : list nat) :
  ~ In id l -> filter (fun x => negb (Nat.eqb x id)) (l ++ [id]) = l.
Proof.
  intros Hout. rewrite filter_app. cbn. rewrite Nat.eqb_refl. cbn.
  rewrite app_nil_r. induction l as [|x l IH]; [reflexivity|].
  cbn. destruct (Nat.eqb_spec x id) as [->|Hne].
  - elim Hout. now left.
  - cbn. f_equal. apply IH. intros Hin. apply Hout. now right.
Qed.

(** X21: a spinner that is started, drawn [n] times and stopped leaves
    no timer behind and writes a line break, the frames in their cyclic
    order of ten with the message, and the final message (or the escape
    sequence that clears the line).  But [start] overwrites the handle of
    a timer that is already running: after a second [start], [stop]
    clears only the newer timer, and the older one keeps running and
    drawing with no handle left to clear it. *)
Theorem spinner_draws_in_order_and_second_start_leaks
  (message : jsstring) (t : Terminal) (n : nat)
  (finalMessage : option jsstring) :
  ~ In (nextTimer t) (timers t) ->
  (let (s', t') :=
     run (Start :: repeat (Fire (nextTimer t)) n ++ [Stop finalMessage])
       (createSpinner message, t) in
   timers t' = timers t
   /\ interval s' = None
   /\ frameIndex s' = n mod 10
   /\ written t' = written t ++ [[10%N]]
                   ++ map (drawn message) (seq 0 n)
                   ++ [[13%N]; farewell finalMessage])
  /\ (let (s', t') :=
        run [Start; Start; Stop finalMessage] (createSpinner message, t) in
      In (nextTimer t) (timers t')
      /\ interval s' = None
      /\ fst (perform (s', t') (Fire (nextTimer t)))
         = {| Progress.message := message; frameIndex := 1;
              interval := None |}).
Proof.
  intros Hfresh. split.
  - change (Start :: repeat (Fire (nextTimer t)) n ++ [Stop finalMessage])
      with ([Start] ++ repeat (Fire (nextTimer t)) n ++ [Stop finalMessage]).
    rewrite !run_app.
    change (run [Start] (createSpinner message, t))
      with (start (createSpinner message) t).
    unfold start, setInterval, stdoutWrite, createSpinner.
    cbn [written timers nextTimer Progress.message frameIndex interval].
    rewrite fire_many;
      cbn [written timers nextTimer Progress.message frameIndex interval];
      [|apply in_or_app; right; now left|lia].
    cbn [run fold_left perform stop interval clearInterval stdoutWrite
         written timers nextTimer Progress.message frameIndex].
    assert (Hdraw : map (fun k : nat => drawn message (0 + k)) (seq 0 n)
                    = map (drawn message) (seq 0 n))
      by (apply map_ext; intros k; reflexivity).
    rewrite Hdraw.
    destruct finalMessage as [[|c m]|];
      cbn [timers written stdoutWrite clearInterval farewell];
      rewrite (filter_fresh _ _ Hfresh), <- !app_assoc;
      repeat split.
  - cbn [run fold_left perform start setInterval stdoutWrite stop interval
         clearInterval createSpinner written timers nextTimer
         Progress.message frameIndex].
    assert (Hin : In (nextTimer t)
                    (filter (fun x => negb (Nat.eqb x (S (nextTimer t))))
                       ((timers t ++ [nextTimer t]) ++ [S (nextTimer t)]))).
    { apply filter_In. split.
      - apply in_or_app. left. apply in_or_app. right. now left.
      - destruct (Nat.eqb_spec (nextTimer t) (S (nextTimer t))); [lia|].
        reflexivity. }
    destruct finalMessage as [[|c m]|];
      cbn [timers stdoutWrite written nextTimer perform];
      (split; [exact Hin|]); (split; [reflexivity|]);
      apply existsb_eqb_In in Hin; unfold perform;
      cbn [timers stdoutWrite clearInterval written nextTimer];
      rewrite Hin; reflexivity.
Qed.

(** A fresh terminal, and two frames drawn. *)
Lemma spinner_draws_in_order_and_second_start_leaks_witness :
  ~ In 7 []
  /\ written (snd (run [Start; Fire 7; Fire 7; Stop None]
                     (createSpinner (js "Generating images..."),
                      {| written := []; timers := []; nextTimer := 7 |})))
     = [ [10%N];
         drawn (js "Generating images...") 0;
         drawn (js "Generating images...") 1;
         [13%N]; [13; 27; 91; 75]%N ].
Proof.
  assert (Hfresh : ~ In 7 []) by (intros []).
  split; [exact Hfresh|].
  exact (proj2 (proj2 (proj2
           (proj1 (spinner_draws_in_order_and_second_start_leaks
                     (js "Generating images...")
                     {| written := []; timers := []; nextTimer := 7 |}
                     2 None Hfresh))))).
Defined.

End SpinnerSpec.
